(** * Greybus manifest parsing and connection management

    A shallow embedding of [drivers/staging/greybus/manifest.c] and
    [drivers/staging/greybus/connection.c], with the properties of
    the operation sequencer, the CPort allocator, the connection
    registry and the manifest parser stated over it. *)

From Stdlib Require Import ZArith Lia.
From Stdlib.Strings Require Import Byte.
From stdpp Require Import base tactics option list gmap numbers.

Local Open Scope Z_scope.

(** ** Machine integers *)

Module Kernel.

(** Unsigned [w]-bit wrap-around: the value of a cast to [uW]. *)
Definition wrap (w x : Z) : Z := x mod 2 ^ w.

Definition u8 (x : Z) : Z := wrap 8 x.
Definition u16 (x : Z) : Z := wrap 16 x.
Definition u32 (x : Z) : Z := wrap 32 x.
Definition size_t (x : Z) : Z := wrap 64 x.

(** Two's complement [int]: the kernel builds with wrapping signed
    arithmetic, and [atomic_t] holds an [int]. *)
Definition int (x : Z) : Z := (x + 2 ^ 31) mod 2 ^ 32 - 2 ^ 31.

Definition U16_MAX : Z := 65535.

(** errno values of <uapi/asm-generic/errno-base.h> *)
Definition ENOENT : Z := 2.
Definition ENOMEM : Z := 12.
Definition EINVAL : Z := 22.
Definition ENOSPC : Z := 28.

(** C's [%] on [int] truncates towards zero. *)
Definition c_rem (a b : Z) : Z := Z.rem a b.

(** [atomic_inc_return(v)]: the incremented value, which is also stored. *)
Definition atomic_inc_return (v : Z) : Z := int (v + 1).

End Kernel.

Module Connection.
Import Kernel.

(** [struct gb_connection] (connection.h).  Pointers to the interface
    are interface identifiers; the host device is the one of [world]
    below. *)
Record gb_connection := {
  hd_cport_id : Z;
  interface : nat;
  interface_cport_id : Z;
  protocol : Z;
  operations : list Z;
  op_cycle : Z
}.

Definition set_op_cycle (v : Z) (c : gb_connection) : gb_connection :=
  {| hd_cport_id := hd_cport_id c; interface := interface c;
     interface_cport_id := interface_cport_id c; protocol := protocol c;
     operations := operations c; op_cycle := v |}.

Definition set_hd_cport_id (v : Z) (c : gb_connection) : gb_connection :=
  {| hd_cport_id := v; interface := interface c;
     interface_cport_id := interface_cport_id c; protocol := protocol c;
     operations := operations c; op_cycle := op_cycle c |}.

(** [gb_connection_op_id]: the id handed out and the connection with
    its counter advanced. *)
Definition gb_connection_op_id (c : gb_connection) : Z * gb_connection :=
  let v := atomic_inc_return (op_cycle c) in
  (u16 (c_rem v U16_MAX), set_op_cycle v c).

(** The ids returned by [n] successive calls on one connection. *)
Fixpoint gb_connection_op_ids (n : nat) (c : gb_connection) : list Z :=
  match n with
  | O => []
  | S n' =>
      let '(id, c') := gb_connection_op_id c in
      id :: gb_connection_op_ids n' c'
  end.

(** A freshly [kzalloc]ed connection: every field zero. *)
Definition zeroed : gb_connection :=
  {| hd_cport_id := 0; interface := 0%nat; interface_cport_id := 0;
     protocol := 0; operations := []; op_cycle := 0 |}.

(** Modelled from the spec: the IDA behind [hd->cport_id_map]
    ([ida_simple_get] and [ida_simple_remove] of lib/idr.c, which is not
    part of the sources at hand).  The spec's allocator "returns the
    lowest-numbered free id in [0, MAX)" and "fails with SpaceExhausted
    when none free"; [free(id)] "returns an id to the pool".  The pool
    is a bitmap: bit [i] set means id [i] is allocated. *)
Definition ida_simple_get (ida start end_ : Z) : Z * Z :=
  match list_find (fun i => Z.testbit ida i = false) (seqZ start (end_ - start)) with
  | Some (_, id) => (id, Z.setbit ida id)
  | None => (- ENOSPC, ida)
  end.

Definition ida_simple_remove (ida id : Z) : Z := Z.clearbit ida id.

(** The host device and everything hanging off it: the id map, the
    list [hd->connections], the lists [interface->connections] and the
    connection objects, all by address. *)
Record world := {
  cport_id_map : Z;
  hd_connections : list nat;
  if_connections : gmap nat (list nat);
  objs : gmap nat gb_connection;
  nalloc : nat
}.

Definition init : world :=
  {| cport_id_map := 0; hd_connections := []; if_connections := ∅;
     objs := ∅; nalloc := 0 |}.

Definition list_add_tail (a : nat) (l : list nat) : list nat := l ++ [a].
Definition list_del (a : nat) (l : list nat) : list nat :=
  filter (fun b => b ≠ a) l.

Section Registry.
(** Constants of greybus.h, and the outcome of the [n]-th [kzalloc]. *)
Variable HOST_DEV_CPORT_ID_MAX : Z.
Variable CPORT_ID_BAD : Z.
Variable kzalloc_ok : nat -> bool.

(** [hd_connection_hd_cport_id_alloc]: success flag, the connection
    with its id assigned, the id map. *)
Definition hd_connection_hd_cport_id_alloc (c : gb_connection) (ida : Z)
  : bool * gb_connection * Z :=
  let '(id, ida') := ida_simple_get ida 0 HOST_DEV_CPORT_ID_MAX in
  if id <? 0 then (false, c, ida')
  else (true, set_hd_cport_id (u16 id) c, ida').

(** [hd_connection_hd_cport_id_free] *)
Definition hd_connection_hd_cport_id_free (c : gb_connection) (ida : Z)
  : gb_connection * Z :=
  let ida' := ida_simple_remove ida (hd_cport_id c) in
  (set_hd_cport_id CPORT_ID_BAD c, ida').

(** [gb_connection_create]: the address of the new connection, or
    [None] for the null pointer. *)
Definition gb_connection_create (itf : nat) (cport_id protocol_ : Z)
    (w : world) : option nat * world :=
  let conn := nalloc w in
  if kzalloc_ok conn then
    match hd_connection_hd_cport_id_alloc zeroed (cport_id_map w) with
    | (false, _, ida') =>
        (* kfree(connection) *)
        (None,
         {| cport_id_map := ida'; hd_connections := hd_connections w;
            if_connections := if_connections w; objs := objs w;
            nalloc := S (nalloc w) |})
    | (true, c, ida') =>
        let c' :=
          {| hd_cport_id := hd_cport_id c; interface := itf;
             interface_cport_id := cport_id; protocol := protocol_;
             operations := []; op_cycle := 0 |} in
        (Some conn,
         {| cport_id_map := ida';
            hd_connections := list_add_tail conn (hd_connections w);
            if_connections :=
              <[itf := list_add_tail conn (default [] (if_connections w !! itf))]>
                (if_connections w);
            objs := <[conn := c']> (objs w);
            nalloc := S (nalloc w) |})
    end
  else
    (None,
     {| cport_id_map := cport_id_map w; hd_connections := hd_connections w;
        if_connections := if_connections w; objs := objs w;
        nalloc := S (nalloc w) |}).

(** [gb_connection_destroy].  A null pointer only warns.  The
    warning about pending operations changes nothing.  An address
    that holds no connection is outside the function's contract
    and leaves the model unchanged. *)
Definition gb_connection_destroy (connection : option nat) (w : world)
  : world :=
  match connection with
  | None => w
  | Some conn =>
      match objs w !! conn with
      | None => w
      | Some c =>
          let '(_, ida') := hd_connection_hd_cport_id_free c (cport_id_map w) in
          {| cport_id_map := ida';
             hd_connections := list_del conn (hd_connections w);
             if_connections :=
               alter (list_del conn) (interface c) (if_connections w);
             objs := delete conn (objs w);
             nalloc := nalloc w |}
      end
  end.

(** [gb_connection_op_id] on the connection stored at [conn]. *)
Definition gb_connection_op_id_at (conn : nat) (w : world) : option Z * world :=
  match objs w !! conn with
  | None => (None, w)
  | Some c =>
      let '(id, c') := gb_connection_op_id c in
      (Some id,
       {| cport_id_map := cport_id_map w; hd_connections := hd_connections w;
          if_connections := if_connections w;
          objs := <[conn := c']> (objs w); nalloc := nalloc w |})
  end.

(** One call of the connection API on the host. *)
Inductive step : world -> world -> Prop :=
| step_create itf cport_id protocol_ w :
    step w (gb_connection_create itf cport_id protocol_ w).2
| step_destroy conn w :
    is_Some (objs w !! conn) ->
    step w (gb_connection_destroy (Some conn) w)
| step_destroy_null w :
    step w (gb_connection_destroy None w)
| step_op_id conn w :
    step w (gb_connection_op_id_at conn w).2.

Definition reachable (w : world) : Prop := rtc step init w.

(** The connections of the host that are alive in [w]. *)
Definition live (w : world) (conn : nat) (c : gb_connection) : Prop :=
  conn ∈ hd_connections w /\ objs w !! conn = Some c.

(** The ids handed out by [n] successive allocations, [None] for a
    failed one, and the id map afterwards. *)
Fixpoint cport_id_allocs (n : nat) (ida : Z) : list (option Z) * Z :=
  match n with
  | O => ([], ida)
  | S n' =>
      let '(ok, c, ida') := hd_connection_hd_cport_id_alloc zeroed ida in
      let '(rest, ida'') := cport_id_allocs n' ida' in
      ((if ok then Some (hd_cport_id c) else None) :: rest, ida'')
  end.

(** [id] is the lowest free id of [ida] below the maximum. *)
Definition lowest_free (ida id : Z) : Prop :=
  0 <= id < HOST_DEV_CPORT_ID_MAX /\ Z.testbit ida id = false /\
  forall j, 0 <= j < id -> Z.testbit ida j = true.

(** No id below the maximum is free. *)
Definition exhausted (ida : Z) : Prop :=
  forall j, 0 <= j < HOST_DEV_CPORT_ID_MAX -> Z.testbit ida j = true.

End Registry.

(** An allocator that serves every request. *)
Definition served (n : nat) : bool := true.

(** A host with 8 cport ids after two connections were created. *)
Definition one_connection : option nat * world :=
  gb_connection_create 8 served 0 3 0 init.

Definition two_connections : world :=
  (gb_connection_create 8 served 1 5 0 one_connection.2).2.

(** The id a connection hands out when its counter becomes [x]. *)
Definition id_of (x : Z) : Z := u16 (c_rem (int x) U16_MAX).

Section Invariant.
Variable HOST_DEV_CPORT_ID_MAX : Z.

(** What the registry maintains: the host's list and the live
    objects agree, and the id map holds exactly the ids of the live
    connections, each held once. *)
Record registry_inv (w : world) : Prop := {
  inv_nodup : NoDup (hd_connections w);
  inv_listed : forall a, a ∈ hd_connections w <-> is_Some (objs w !! a);
  inv_fresh : forall a, is_Some (objs w !! a) -> (a < nalloc w)%nat;
  inv_held : forall a c, objs w !! a = Some c ->
    0 <= hd_cport_id c < HOST_DEV_CPORT_ID_MAX /\
    Z.testbit (cport_id_map w) (hd_cport_id c) = true;
  inv_unique : forall a b ca cb,
    objs w !! a = Some ca -> objs w !! b = Some cb ->
    hd_cport_id ca = hd_cport_id cb -> a = b;
  inv_used : forall id, Z.testbit (cport_id_map w) id = true ->
    exists a c, objs w !! a = Some c /\ hd_cport_id c = id
}.
End Invariant.

(** The connections on the list of interface [i]; the list of an
    interface that never had a connection is empty. *)
Definition connections_of (w : world) (i : nat) : list nat :=
  default [] (if_connections w !! i).

(** What the registry maintains for the lists of the interfaces: each
    holds the connection objects of its interface, once each; the
    addresses in use are below the next one. *)
Record interface_inv (w : world) : Prop := {
  if_nodup : forall i, NoDup (connections_of w i);
  if_listed : forall i a,
    a ∈ connections_of w i <->
    exists c, objs w !! a = Some c /\ interface c = i;
  if_fresh : forall a, is_Some (objs w !! a) -> (a < nalloc w)%nat
}.

(** The local id of the connection at address [a]. *)
Definition id_at (w : world) (a : nat) : Z :=
  default 0 (hd_cport_id <$> objs w !! a).

(** A connection whose counter is at [INT_MAX]. *)
Definition at_int_max : gb_connection := set_op_cycle (2 ^ 31 - 1) zeroed.

(** A host with a single cport id, after one connection was created. *)
Definition full_host : world := (gb_connection_create 1 served 0 3 0 init).2.

End Connection.

Module Manifest.
Import Kernel.

(** *** The manifest buffer *)

(** The buffer handed to the parser; a read past its end yields zero. *)
Definition byte_at (buf : list byte) (off : Z) : Z :=
  Z.of_N (Byte.to_N (nth (Z.to_nat off) buf x00)).

(** A little-endian field of [width] bytes at [off]. *)
Fixpoint le_at (buf : list byte) (off : Z) (width : nat) : Z :=
  match width with
  | O => 0
  | S w => byte_at buf off + 256 * le_at buf (off + 1) w
  end.

Global Arguments le_at : simpl never.

(** The bytes [off, off + n) of the buffer. *)
Definition bytes_at (buf : list byte) (off : Z) (n : Z) : list byte :=
  map (fun i => nth (Z.to_nat i) buf x00) (seqZ off n).

(** A field of a structure: offset from the start of the enclosing
    [struct greybus_descriptor] (or manifest), and width in bytes. *)
Definition field : Type := Z * nat.

Definition read (buf : list byte) (base : Z) (f : field) : Z :=
  le_at buf (base + f.1) f.2.

(** What greybus_manifest.h declares: structure sizes, field places,
    the descriptor type codes and the supported major version.  The
    widths of the fields the source converts with [le16_to_cpu],
    [le64_to_cpu] or passes as [u8] are fixed by the source; only
    their offsets are taken from here. *)
Record wire_layout := {
  sizeof_manifest_header : Z;
  manifest_size_off : Z;
  version_major_off : Z;
  version_minor_off : Z;
  sizeof_descriptor_header : Z;
  header_size_off : Z;
  header_type_f : field;
  sizeof_descriptor_module : Z;
  module_vendor_off : Z;
  module_product_off : Z;
  module_version_off : Z;
  module_serial_number_off : Z;
  module_vendor_stringid_off : Z;
  module_product_stringid_off : Z;
  sizeof_descriptor_string : Z;
  string_length_f : field;
  string_id_f : field;
  string_string_off : Z;
  sizeof_descriptor_cport : Z;
  GREYBUS_TYPE_MODULE : Z;
  GREYBUS_TYPE_DEVICE : Z;
  GREYBUS_TYPE_CLASS : Z;
  GREYBUS_TYPE_STRING : Z;
  GREYBUS_TYPE_CPORT : Z;
  GREYBUS_VERSION_MAJOR : Z;
  GREYBUS_VERSION_MINOR : Z
}.

(** Modelled from the spec: the wire format of greybus_manifest.h,
    which is not among the sources.  Envelope header
    [{ size: u16, version_major: u8, version_minor: u8 }]; descriptor
    header [{ size: u16, type: u16 }] followed at once by the payload;
    module payload [{ vendor: u16, product: u16, version: u16,
    vendor_stringid: u8, product_stringid: u8, serial_number: u64 }];
    string payload [{ id: u8, length: u16, bytes }]; CPort payload
    [{ number: u16, speed: u8, reserved: u8 }]; type codes Module = 1,
    String = 2, CPort = 4; supported version 0.1.  The spec gives no
    code to the Device and Class types of the source, so they stay
    arguments. *)
Definition spec_layout (device class : Z) : wire_layout :=
  {| sizeof_manifest_header := 4;
     manifest_size_off := 0;
     version_major_off := 2;
     version_minor_off := 3;
     sizeof_descriptor_header := 4;
     header_size_off := 0;
     header_type_f := (2, 2%nat);
     sizeof_descriptor_module := 16;
     module_vendor_off := 4;
     module_product_off := 6;
     module_version_off := 8;
     module_vendor_stringid_off := 10;
     module_product_stringid_off := 11;
     module_serial_number_off := 12;
     sizeof_descriptor_string := 3;
     string_id_f := (4, 1%nat);
     string_length_f := (5, 2%nat);
     string_string_off := 7;
     sizeof_descriptor_cport := 4;
     GREYBUS_TYPE_MODULE := 1;
     GREYBUS_TYPE_DEVICE := device;
     GREYBUS_TYPE_CLASS := class;
     GREYBUS_TYPE_STRING := 2;
     GREYBUS_TYPE_CPORT := 4;
     GREYBUS_VERSION_MAJOR := 0;
     GREYBUS_VERSION_MINOR := 1 |}.

(** *** Parser state *)

(** [struct manifest_desc]: [md_links] is the address of the list
    node, [md_data] the offset of the descriptor in the buffer. *)
Record manifest_desc := {
  md_links : nat;
  md_size : Z;
  md_data : Z;
  md_type : Z
}.

(** The messages of [pr_err] and [pr_info]. *)
Inductive message :=
| short_manifest (size : Z)
| manifest_size_mismatch (size manifest_size : Z)
| manifest_version_too_new (major minor : Z)
| manifest_too_small
| descriptor_too_big
| module_descriptor_too_small (desc_size : Z)
| class_descriptor_found
| string_descriptor_too_small (desc_size : Z)
| cport_descriptor_too_small (desc_size : Z)
| invalid_descriptor_type (type : Z)
| zero_sized_manifest_descriptor
| manifest_must_have_1_module (found : Z)
| excess_descriptors.

(** The static list [manifest_descs], the blocks obtained from the
    allocator and not yet freed, the number of allocation requests
    made so far, and the kernel log. *)
Record kstate := {
  manifest_descs : list manifest_desc;
  allocated : list nat;
  nalloc : nat;
  klog : list message
}.

(** The value of a pointer returned by the string routines. *)
Inductive pointer (A : Type) :=
| NULL
| ERR_PTR (err : Z)
| PTR (addr : nat) (v : A).
Arguments NULL {A}.
Arguments ERR_PTR {A} err.
Arguments PTR {A} addr v.

Definition IS_ERR {A} (p : pointer A) : bool :=
  match p with ERR_PTR _ => true | _ => false end.

Definition address {A} (p : pointer A) : option nat :=
  match p with PTR a _ => Some a | _ => None end.

(** The fields of [struct gb_module] the parser fills in. *)
Record gb_module := {
  gmod_addr : nat;
  vendor : Z;
  product : Z;
  version : Z;
  serial_number : Z;
  vendor_string : pointer (list byte);
  product_string : pointer (list byte)
}.

(** State passing. *)
Definition M (A : Type) : Type := kstate -> A * kstate.

Definition ret {A} (a : A) : M A := fun s => (a, s).
Definition bind {A B} (m : M A) (k : A -> M B) : M B :=
  fun s => let '(a, s') := m s in k a s'.

Declare Scope kernel_scope.
Delimit Scope kernel_scope with kernel.
Notation "x <- m ;; k" := (bind m (fun x => k))
  (at level 100, m at next level, right associativity) : kernel_scope.
Notation "m ;; k" := (bind m (fun _ => k))
  (at level 100, right associativity) : kernel_scope.
Local Open Scope kernel_scope.

Definition get_descs : M (list manifest_desc) :=
  fun s => (manifest_descs s, s).

Definition pr (m : message) : M unit :=
  fun s => (tt, {| manifest_descs := manifest_descs s; allocated := allocated s;
                   nalloc := nalloc s; klog := klog s ++ [m] |}).

Definition kfree (p : option nat) : M unit :=
  fun s =>
    match p with
    | None => (tt, s)
    | Some a =>
        (tt, {| manifest_descs := manifest_descs s;
                allocated := filter (fun b => b ≠ a) (allocated s);
                nalloc := nalloc s; klog := klog s |})
    end.

Definition list_add_tail (d : manifest_desc) : M unit :=
  fun s => (tt, {| manifest_descs := manifest_descs s ++ [d];
                   allocated := allocated s; nalloc := nalloc s;
                   klog := klog s |}).

Definition list_del (d : manifest_desc) : M unit :=
  fun s => (tt, {| manifest_descs :=
                     filter (fun e => md_links e ≠ md_links d) (manifest_descs s);
                   allocated := allocated s; nalloc := nalloc s;
                   klog := klog s |}).

(** [release_manifest_descriptor] *)
Definition release_manifest_descriptor (descriptor : manifest_desc) : M unit :=
  list_del descriptor ;;
  kfree (Some (md_links descriptor)).

(** [release_manifest_descriptors]: the safe traversal releases the
    entries front to back. *)
Fixpoint release_each (l : list manifest_desc) : M unit :=
  match l with
  | [] => ret tt
  | descriptor :: next => release_manifest_descriptor descriptor ;; release_each next
  end.

Definition release_manifest_descriptors : M unit :=
  l <- get_descs ;; release_each l.

Section Parser.
Variable L : wire_layout.
(** Whether the [n]-th request to the allocator is served. *)
Variable kmalloc_ok : nat -> bool.
Variable buf : list byte.

(** [kzalloc] and [kmemdup]: a fresh block, or the null pointer. *)
Definition kmalloc : M (option nat) :=
  fun s =>
    let a := nalloc s in
    if kmalloc_ok a then
      (Some a, {| manifest_descs := manifest_descs s;
                  allocated := a :: allocated s;
                  nalloc := S a; klog := klog s |})
    else
      (None, {| manifest_descs := manifest_descs s;
                allocated := allocated s;
                nalloc := S a; klog := klog s |}).

(** The type switch of [identify_descriptor]: [true] for [break],
    [false] for [return -EINVAL]. *)
Definition check_type (desc desc_size : Z) : M bool :=
  let type := read buf desc (header_type_f L) in
  if type =? GREYBUS_TYPE_MODULE L then
    if desc_size <? sizeof_descriptor_module L then
      pr (module_descriptor_too_small desc_size) ;; ret false
    else ret true
  else if type =? GREYBUS_TYPE_DEVICE L then ret true
  else if type =? GREYBUS_TYPE_CLASS L then
    pr class_descriptor_found ;; ret true
  else if type =? GREYBUS_TYPE_STRING L then
    let expected_size :=
      size_t (size_t (sizeof_descriptor_header L + sizeof_descriptor_string L)
              + read buf desc (string_length_f L)) in
    if desc_size <? expected_size then
      pr (string_descriptor_too_small desc_size) ;; ret false
    else ret true
  else if type =? GREYBUS_TYPE_CPORT L then
    if desc_size <? sizeof_descriptor_cport L then
      pr (cport_descriptor_too_small desc_size) ;; ret false
    else ret true
  else
    pr (invalid_descriptor_type (u8 type)) ;; ret false.

(** [identify_descriptor]: the bytes consumed, or a negative errno. *)
Definition identify_descriptor (desc size : Z) : M Z :=
  if size <? sizeof_descriptor_header L then
    pr manifest_too_small ;; ret (- EINVAL)
  else
    let desc_size := le_at buf (desc + header_size_off L) 2 in
    if desc_size >? size then
      pr descriptor_too_big ;; ret (- EINVAL)
    else
      ok <- check_type desc desc_size ;;
      if ok then
        descriptor <- kmalloc ;;
        match descriptor with
        | None => ret (- ENOMEM)
        | Some node =>
            list_add_tail {| md_links := node; md_size := desc_size;
                             md_data := desc;
                             md_type := read buf desc (header_type_f L) |} ;;
            ret desc_size
        end
      else ret (- EINVAL).

(** The first string descriptor of the list with the given id. *)
Definition is_string (string_id : Z) (descriptor : manifest_desc) : bool :=
  (md_type descriptor =? GREYBUS_TYPE_STRING L) &&
  (read buf (md_data descriptor) (string_id_f L) =? string_id).

(** [gb_string_get].  [kmemdup] copies [length] + 1 bytes from the
    start of the string and the store that follows overwrites the
    last of them with NUL, so the string returned holds the [length]
    bytes of the string and the NUL; this value is built here.  The
    read of the one source byte after the string, which can lie past
    a descriptor that is sized exactly, is not recorded. *)
Definition gb_string_get (string_id : Z) : M (pointer (list byte)) :=
  if string_id =? 0 then ret NULL
  else
    l <- get_descs ;;
    match find (is_string string_id) l with
    | None => ret (ERR_PTR (- ENOENT))
    | Some descriptor =>
        let desc := md_data descriptor in
        let length := read buf desc (string_length_f L) in
        string <- kmalloc ;;
        match string with
        | None => ret (ERR_PTR (- ENOMEM))
        | Some a =>
            release_manifest_descriptor descriptor ;;
            ret (PTR a (bytes_at buf (desc + string_string_off L) length ++ [x00]))
        end
    end.

(** [gb_manifest_parse_module]: [None] is the null pointer. *)
Definition gb_manifest_parse_module (module_desc : manifest_desc)
  : M (option gb_module) :=
  let desc := md_data module_desc in
  gmod <- kmalloc ;;
  match gmod with
  | None => ret None
  | Some g =>
      vendor_string_ <-
        gb_string_get (le_at buf (desc + module_vendor_stringid_off L) 1) ;;
      if IS_ERR vendor_string_ then
        kfree (Some g) ;; ret None
      else
        product_string_ <-
          gb_string_get (le_at buf (desc + module_product_stringid_off L) 1) ;;
        if IS_ERR product_string_ then
          kfree (address vendor_string_) ;; kfree (Some g) ;; ret None
        else
          release_manifest_descriptor module_desc ;;
          ret (Some
            {| gmod_addr := g;
               vendor := le_at buf (desc + module_vendor_off L) 2;
               product := le_at buf (desc + module_product_off L) 2;
               version := le_at buf (desc + module_version_off L) 2;
               serial_number := le_at buf (desc + module_serial_number_off L) 8;
               vendor_string := vendor_string_;
               product_string := product_string_ |})
  end.

(** The descriptor loop of [gb_manifest_parse], [while (size)]:
    [Some true] when the buffer is used up, [Some false] for
    [goto out_err], [None] when [fuel] iterations did not suffice. *)
Fixpoint scan_descriptors (fuel : nat) (desc size : Z) : M (option bool) :=
  if size =? 0 then ret (Some true)
  else
    match fuel with
    | O => ret None
    | S fuel' =>
        desc_size <- identify_descriptor desc size ;;
        if desc_size <=? 0 then
          (if desc_size =? 0 then pr zero_sized_manifest_descriptor else ret tt) ;;
          ret (Some false)
        else
          scan_descriptors fuel' (desc + desc_size) (size_t (size - desc_size))
    end.

(** The search for the module descriptor: the [u32] counter [found]
    and [module_desc]. *)
Definition count_module (acc : Z * option manifest_desc)
    (descriptor : manifest_desc) : Z * option manifest_desc :=
  let '(found, module_desc) := acc in
  if md_type descriptor =? GREYBUS_TYPE_MODULE L then
    (u32 (found + 1), if found =? 0 then Some descriptor else module_desc)
  else acc.

Definition find_module (l : list manifest_desc) : Z * option manifest_desc :=
  fold_left count_module l (0, None).

(** [gb_manifest_parse].  The outer [None] stands for a descriptor
    loop that is still running after [size] iterations; the inner
    one is the null pointer. *)
Definition gb_manifest_parse (size : Z) : M (option (option gb_module)) :=
  if size <=? sizeof_manifest_header L then
    pr (short_manifest size) ;; ret (Some None)
  else
    let manifest_size := le_at buf (manifest_size_off L) 2 in
    if negb (manifest_size =? size) then
      pr (manifest_size_mismatch size manifest_size) ;; ret (Some None)
    else
      let version_major := le_at buf (version_major_off L) 1 in
      let version_minor := le_at buf (version_minor_off L) 1 in
      if version_major >? GREYBUS_VERSION_MAJOR L then
        pr (manifest_version_too_new version_major version_minor) ;;
        ret (Some None)
      else
        let desc := sizeof_manifest_header L in
        let size := size_t (size - sizeof_manifest_header L) in
        scanned <- scan_descriptors (Z.to_nat size) desc size ;;
        match scanned with
        | None => ret None
        | Some false => release_manifest_descriptors ;; ret (Some None)
        | Some true =>
            l <- get_descs ;;
            let '(found, module_desc) := find_module l in
            if negb (found =? 1) then
              pr (manifest_must_have_1_module found) ;;
              release_manifest_descriptors ;;
              ret (Some None)
            else
              gmod <- match module_desc with
                      | Some d => gb_manifest_parse_module d
                      | None => ret None
                      end ;;
              rest <- get_descs ;;
              match rest with
              | [] => ret tt
              | _ :: _ => pr excess_descriptors ;; release_manifest_descriptors
              end ;;
              ret (Some gmod)
        end.
End Parser.

(** The state at module load: nothing listed, nothing allocated. *)
Definition boot : kstate :=
  {| manifest_descs := []; allocated := []; nalloc := 0; klog := [] |}.

(** The bytes of a little-endian field of [width] bytes holding [v]. *)
Definition byte_of (v : Z) : byte :=
  default x00 (Byte.of_N (Z.to_N (v mod 256))).

Fixpoint le (width : nat) (v : Z) : list byte :=
  match width with
  | O => []
  | S w => byte_of v :: le w (v / 256)
  end.

(** Encoders for the spec's wire format, to write down examples. *)
Definition envelope (size major minor : Z) : list byte :=
  le 2 size ++ le 1 major ++ le 1 minor.

Definition module_descriptor
    (size vendor_ product_ version_ vendor_stringid product_stringid serial : Z)
  : list byte :=
  le 2 size ++ le 2 1 ++ le 2 vendor_ ++ le 2 product_ ++ le 2 version_ ++
  le 1 vendor_stringid ++ le 1 product_stringid ++ le 8 serial.

Definition string_descriptor (size id : Z) (chars : list byte) : list byte :=
  le 2 size ++ le 2 2 ++ le 1 id ++ le 2 (Z.of_nat (length chars)) ++ chars.

Definition cport_descriptor (size number : Z) : list byte :=
  le 2 size ++ le 2 4 ++ le 2 number ++ le 1 0 ++ le 1 0.

(** An allocator that serves every request, and one that refuses
    the [k]-th. *)
Definition served (n : nat) : bool := true.
Definition refuse (k n : nat) : bool := negb (n =? k)%nat.

(** The spec's layout with codes for Device and Class outside the
    spec's list. *)
Definition spec_wire : wire_layout := spec_layout 6 7.

(** The scenario of the spec: envelope of size 23, module descriptor
    of size 15. *)
Definition scenario : list byte :=
  envelope 23 0 1 ++ module_descriptor 15 0x1234 0x5678 1 0 0 0.

(** The same with the sizes the layout gives: 4 + 16 bytes for the
    descriptor, 4 more for the envelope. *)
Definition scenario_sized : list byte :=
  envelope 24 0 1 ++ module_descriptor 20 0x1234 0x5678 1 0 0 0.

(** The number of module descriptors in the index. *)
Definition module_count (L : wire_layout) (l : list manifest_desc) : Z :=
  Z.of_nat (length (filter (fun d => md_type d = GREYBUS_TYPE_MODULE L) l)).

(** The envelope checks of [gb_manifest_parse] taken together. *)
Definition envelope_ok (L : wire_layout) (buf : list byte) (size : Z) : bool :=
  negb (size <=? sizeof_manifest_header L) &&
  (le_at buf (manifest_size_off L) 2 =? size) &&
  negb (le_at buf (version_major_off L) 1 >? GREYBUS_VERSION_MAJOR L).

(** The descriptor loop as [gb_manifest_parse] enters it. *)
Definition scan_manifest (L : wire_layout) (ok : nat -> bool)
    (buf : list byte) (size : Z) : M (option bool) :=
  let size' := size_t (size - sizeof_manifest_header L) in
  scan_descriptors L ok buf (Z.to_nat size') (sizeof_manifest_header L) size'.

(** What [gb_manifest_parse] does once the descriptor loop has come
    to an end with [scanned]. *)
Definition after_scan (L : wire_layout) (ok : nat -> bool) (buf : list byte)
    (scanned : option bool) : M (option (option gb_module)) :=
  match scanned with
  | None => ret None
  | Some false => release_manifest_descriptors ;; ret (Some None)
  | Some true =>
      l <- get_descs ;;
      let '(found, module_desc) := find_module L l in
      if negb (found =? 1) then
        pr (manifest_must_have_1_module found) ;;
        release_manifest_descriptors ;;
        ret (Some None)
      else
        gmod <- match module_desc with
                | Some d => gb_manifest_parse_module L ok buf d
                | None => ret None
                end ;;
        rest <- get_descs ;;
        match rest with
        | [] => ret tt
        | _ :: _ => pr excess_descriptors ;; release_manifest_descriptors
        end ;;
        ret (Some gmod)
  end.

(** A manifest whose only descriptor, of the Class type, declares
    size zero; one with two module descriptors; one with a CPort
    descriptor only. *)
Definition zero_sized : list byte := envelope 8 0 1 ++ le 2 0 ++ le 2 7.

Definition two_modules : list byte :=
  envelope 44 0 1 ++ module_descriptor 20 1 2 3 0 0 0
                  ++ module_descriptor 20 4 5 6 0 0 0.

Definition cport_only : list byte := envelope 12 0 1 ++ cport_descriptor 8 0.

(** Two string descriptors with the same id 1, "a" and "b". *)
Definition two_strings : list byte :=
  envelope 20 0 1 ++ string_descriptor 8 1 ["a"%byte]
                  ++ string_descriptor 8 1 ["b"%byte].

(** A module naming vendor string 1, without and with a string
    descriptor of that id. *)
Definition vendor_missing : list byte :=
  envelope 24 0 1 ++ module_descriptor 20 1 2 3 1 0 0.

Definition vendor_present : list byte :=
  envelope 32 0 1 ++ module_descriptor 20 1 2 3 1 0 0
                  ++ string_descriptor 8 1 ["a"%byte].

(** The index entry of the module descriptor of these manifests. *)
Definition first_desc : manifest_desc :=
  {| md_links := 0; md_size := 20; md_data := 4; md_type := 1 |}.

(** The state once the descriptors of [buf] are indexed. *)
Definition indexed (ok : nat -> bool) (buf : list byte) (size : Z) : kstate :=
  (scan_manifest spec_wire ok buf size boot).2.

(** The string ids of a module descriptor at offset [desc]. *)
Definition vendor_stringid (L : wire_layout) (buf : list byte) (desc : Z) : Z :=
  le_at buf (desc + module_vendor_stringid_off L) 1.

Definition product_stringid (L : wire_layout) (buf : list byte) (desc : Z) : Z :=
  le_at buf (desc + module_product_stringid_off L) 1.

(** The reading of the spec under which the module assembler "fails
    with the same error the String Table raised": the error of a
    failed vendor string resolution can be told from what
    [gb_manifest_parse_module] returns. *)
Definition string_error_passed_on (L : wire_layout) : Prop :=
  exists errno_of : option gb_module -> Z,
    forall ok buf d s g s1 err s2,
      kmalloc ok s = (Some g, s1) ->
      gb_string_get L ok buf (vendor_stringid L buf (md_data d)) s1
      = (ERR_PTR err, s2) ->
      errno_of (gb_manifest_parse_module L ok buf d s).1 = err.

(** Unfolds one layer of the state-passing combinators. *)
Ltac run := unfold bind, ret, pr, get_descs, list_add_tail,
              list_del, kfree, kmalloc in *; simpl in *.

(** *** Notions for the properties of the scanner and of the heap *)

(** The entries of [l] lie end to end from offset [start] to offset
    [stop], each at least one byte long. *)
Fixpoint tiles (l : list manifest_desc) (start stop : Z) : Prop :=
  match l with
  | [] => start = stop
  | d :: l' =>
      md_data d = start /\ 0 < md_size d /\ tiles l' (start + md_size d) stop
  end.

(** The verdict of the type switch of [identify_descriptor], without
    its messages. *)
Definition accepted (L : wire_layout) (buf : list byte) (desc desc_size : Z)
  : bool :=
  let type := read buf desc (header_type_f L) in
  if type =? GREYBUS_TYPE_MODULE L then
    negb (desc_size <? sizeof_descriptor_module L)
  else if type =? GREYBUS_TYPE_DEVICE L then true
  else if type =? GREYBUS_TYPE_CLASS L then true
  else if type =? GREYBUS_TYPE_STRING L then
    negb (desc_size <?
          size_t (size_t (sizeof_descriptor_header L + sizeof_descriptor_string L)
                  + read buf desc (string_length_f L)))
  else if type =? GREYBUS_TYPE_CPORT L then
    negb (desc_size <? sizeof_descriptor_cport L)
  else false.

(** An index entry as [identify_descriptor] makes it for the descriptor
    at its offset. *)
Definition entry_of (L : wire_layout) (buf : list byte) (d : manifest_desc)
  : Prop :=
  md_size d = le_at buf (md_data d + header_size_off L) 2 /\
  md_type d = read buf (md_data d) (header_type_f L) /\
  accepted L buf (md_data d) (md_size d) = true.

(** The allocated blocks that are not nodes of the index: what the
    parser holds besides its index. *)
Definition owned (s : kstate) : list nat :=
  filter (fun x => x ∉ map md_links (manifest_descs s)) (allocated s).

(** The five descriptor type codes are different, as the labels of a
    [switch] are. *)
Definition codes_distinct (L : wire_layout) : Prop :=
  NoDup [GREYBUS_TYPE_MODULE L; GREYBUS_TYPE_DEVICE L; GREYBUS_TYPE_CLASS L;
         GREYBUS_TYPE_STRING L; GREYBUS_TYPE_CPORT L].

(** A module, a CPort and a string descriptor, and nothing else. *)
Definition three_kinds : list byte :=
  envelope 43 0 1 ++ module_descriptor 20 1 2 3 0 0 0
                  ++ cport_descriptor 8 0
                  ++ string_descriptor 11 9 ["a"%byte; "b"%byte; "c"%byte; "d"%byte].

(** A manifest of a module with a vendor string of id 1 and a product
    string of id 2, and the index entries of its two string
    descriptors. *)
Definition manifest_of (minor vendor_ product_ version_ serial : Z)
    (vs ps : list byte) : list byte :=
  envelope (38 + Z.of_nat (length vs) + Z.of_nat (length ps)) 0 minor ++
  module_descriptor 20 vendor_ product_ version_ 1 2 serial ++
  string_descriptor (7 + Z.of_nat (length vs)) 1 vs ++
  string_descriptor (7 + Z.of_nat (length ps)) 2 ps.

Definition vendor_entry (vs : list byte) : manifest_desc :=
  {| md_links := 1; md_size := 7 + Z.of_nat (length vs); md_data := 24;
     md_type := 2 |}.

Definition product_entry (vs ps : list byte) : manifest_desc :=
  {| md_links := 2; md_size := 7 + Z.of_nat (length ps);
     md_data := 31 + Z.of_nat (length vs); md_type := 2 |}.

(** A module whose vendor and product string ids are both 1, with one
    string descriptor of that id. *)
Definition shared_string : list byte :=
  envelope 32 0 1 ++ module_descriptor 20 1 2 3 1 1 0
                  ++ string_descriptor 8 1 ["a"%byte].
End Manifest.

Module Es1.
Import Kernel.

(** *** The ES1 USB bridge (es1-ap-usb.c) *)

Definition NUM_CPORT_OUT_URB : nat := 8.
Definition U8_MAX : Z := 255.

(** The errno values the driver tests for, as the kernel's errno
    headers number them. *)
Definition EAGAIN : Z := 11.
Definition EPROTO : Z := 71.
Definition EOVERFLOW : Z := 75.
Definition EILSEQ : Z := 84.
Definition ECONNRESET : Z := 104.
Definition ESHUTDOWN : Z := 108.

(** A pointer into a [kmalloc]ed block. *)
Record pointer := { block : nat; offset : Z }.

Definition ptr_add (p : pointer) (k : Z) : pointer :=
  {| block := block p; offset := offset p + k |}.

(** What [%hd] prints: the low 16 bits of the argument read as a
    signed short. *)
Definition percent_hd (x : Z) : Z := (x + 2 ^ 15) mod 2 ^ 16 - 2 ^ 15.

(** The messages of the driver ([pr_err] and [dev_err]), and what it
    calls in the USB core and in the greybus core, in the order of the
    calls. *)
Inductive message :=
| gbuf_too_big
| cport_id_out_of_range (id : Z)
| no_free_urbs
| overflow (actual_length : Z)
| unknown_status (status : Z)
| cport_in_error (status : Z)
| no_cport_id
| submit_error (retval : Z).

Inductive call :=
| printk (m : message)
| usb_submit_urb (urb : nat) (filled : option (option pointer * Z))
| greybus_cport_in (cport : Z) (data : list byte).

(** The fields of [struct gbuf] the driver uses; [connection] stands
    for [gbuf->operation->connection]. *)
Record gbuf := {
  connection : Connection.gb_connection;
  outbound : bool;
  transfer_buffer : option pointer;
  transfer_buffer_length : Z;
  hcd_data : option nat;
  status : Z
}.

Definition set_buffer (p : option pointer) (n : Z) (g : gbuf) : gbuf :=
  {| connection := connection g; outbound := outbound g;
     transfer_buffer := p; transfer_buffer_length := n;
     hcd_data := hcd_data g; status := status g |}.

Definition set_hcd_data (u : option nat) (g : gbuf) : gbuf :=
  {| connection := connection g; outbound := outbound g;
     transfer_buffer := transfer_buffer g;
     transfer_buffer_length := transfer_buffer_length g;
     hcd_data := u; status := status g |}.

Definition set_status (v : Z) (g : gbuf) : gbuf :=
  {| connection := connection g; outbound := outbound g;
     transfer_buffer := transfer_buffer g;
     transfer_buffer_length := transfer_buffer_length g;
     hcd_data := hcd_data g; status := v |}.

(** An urb as its completion handler finds it: its address, its
    status, the number of bytes transferred and the bytes of its
    transfer buffer. *)
Record urb := {
  urb_addr : nat;
  urb_status : Z;
  actual_length : Z;
  urb_buffer : list byte
}.

(** The two arrays of [struct es1_ap_dev] for outgoing urbs, the urbs
    and the blocks that are allocated, whether the driver has written
    outside a block or freed what is not one, and the calls made. *)
Record state := {
  cport_out_urb : list (option nat);
  cport_out_urb_busy : list bool;
  urbs : list nat;
  nurb : nat;
  heap : gmap nat (list byte);
  nblock : nat;
  faulted : bool;
  trace : list call
}.

Definition with_busy (v : list bool) (s : state) : state :=
  {| cport_out_urb := cport_out_urb s; cport_out_urb_busy := v;
     urbs := urbs s; nurb := nurb s; heap := heap s; nblock := nblock s;
     faulted := faulted s; trace := trace s |}.

Definition with_urbs (v : list nat) (n : nat) (s : state) : state :=
  {| cport_out_urb := cport_out_urb s;
     cport_out_urb_busy := cport_out_urb_busy s;
     urbs := v; nurb := n; heap := heap s; nblock := nblock s;
     faulted := faulted s; trace := trace s |}.

Definition with_heap (v : gmap nat (list byte)) (n : nat) (s : state) : state :=
  {| cport_out_urb := cport_out_urb s;
     cport_out_urb_busy := cport_out_urb_busy s;
     urbs := urbs s; nurb := nurb s; heap := v; nblock := n;
     faulted := faulted s; trace := trace s |}.

Definition fault (s : state) : state :=
  {| cport_out_urb := cport_out_urb s;
     cport_out_urb_busy := cport_out_urb_busy s;
     urbs := urbs s; nurb := nurb s; heap := heap s; nblock := nblock s;
     faulted := true; trace := trace s |}.

Definition emit (c : call) (s : state) : state :=
  {| cport_out_urb := cport_out_urb s;
     cport_out_urb_busy := cport_out_urb_busy s;
     urbs := urbs s; nurb := nurb s; heap := heap s; nblock := nblock s;
     faulted := faulted s; trace := trace s ++ [c] |}.

Section Driver.
(** [ES1_GBUF_MSG_SIZE] is [PAGE_SIZE]; the outcome of the [n]-th
    [kzalloc] and of the [n]-th [usb_alloc_urb]. *)
Variable ES1_GBUF_MSG_SIZE : Z.
Variable kzalloc_ok : nat -> bool.
Variable usb_alloc_ok : nat -> bool.

(** [kzalloc]: a fresh block of [n] zero bytes, or the null pointer. *)
Definition kzalloc (n : Z) (s : state) : option pointer * state :=
  let b := nblock s in
  if kzalloc_ok b then
    (Some {| block := b; offset := 0 |},
     with_heap (<[b := replicate (Z.to_nat n) x00]> (heap s)) (S b) s)
  else (None, with_heap (heap s) (S b) s).

(** [kfree]: of the null pointer, nothing; of the start of a block,
    the block; anything else is a fault. *)
Definition kfree (p : option pointer) (s : state) : state :=
  match p with
  | None => s
  | Some p =>
      match heap s !! block p with
      | Some _ =>
          if offset p =? 0 then with_heap (delete (block p) (heap s)) (nblock s) s
          else fault s
      | None => fault s
      end
  end.

(** [*p = v] for a byte. *)
Definition store (p : pointer) (v : Z) (s : state) : state :=
  match heap s !! block p with
  | Some bytes =>
      if (0 <=? offset p) && (offset p <? Z.of_nat (length bytes)) then
        with_heap (<[block p := <[Z.to_nat (offset p) := Manifest.byte_of v]> bytes]>
                     (heap s)) (nblock s) s
      else fault s
  | None => fault s
  end.

(** [usb_alloc_urb] and [usb_free_urb]. *)
Definition usb_alloc_urb (s : state) : option nat * state :=
  let u := nurb s in
  if usb_alloc_ok u then (Some u, with_urbs (u :: urbs s) (S u) s)
  else (None, with_urbs (urbs s) (S u) s).

Definition usb_free_urb (u : option nat) (s : state) : state :=
  match u with
  | None => s
  | Some a => with_urbs (filter (fun b => b ≠ a) (urbs s)) (nurb s) s
  end.

(** [alloc_gbuf_data]: the return value, the gbuf and the state. *)
Definition alloc_gbuf_data (g : gbuf) (size : Z) (s : state)
  : Z * gbuf * state :=
  let cport_reserve := if outbound g then 1 else 0 in
  let s := if size >? ES1_GBUF_MSG_SIZE then emit (printk gbuf_too_big) s
           else s in
  let '(buffer, s) := kzalloc (u32 (cport_reserve + size)) s in
  match buffer with
  | None => (- ENOMEM, g, s)
  | Some buffer =>
      let id := Connection.interface_cport_id (connection g) in
      if id >? u16 U8_MAX then
        (- EINVAL, g,
         kfree (Some buffer)
           (emit (printk (cport_id_out_of_range (percent_hd id))) s))
      else if outbound g then
        (0, set_buffer (Some (ptr_add buffer 1)) size g, store buffer (u8 id) s)
      else
        (0, set_buffer (Some buffer) size g, s)
  end.

(** [free_gbuf_data] *)
Definition free_gbuf_data (g : gbuf) (s : state) : state :=
  match transfer_buffer g with
  | None => s
  | Some transfer_buffer_ =>
      kfree (Some (if outbound g then ptr_add transfer_buffer_ (-1)
                   else transfer_buffer_)) s
  end.

(** [next_free_urb]: the first slot of the pool that is not busy is
    marked busy and its urb taken; without an urb from the pool, one
    is allocated. *)
Definition next_free_urb (s : state) : option nat * state :=
  let '(urb_, s) :=
    match list_find (fun b => b = false)
                    (take NUM_CPORT_OUT_URB (cport_out_urb_busy s)) with
    | Some (i, _) =>
        (mjoin (cport_out_urb s !! i),
         with_busy (<[i := true]> (cport_out_urb_busy s)) s)
    | None => (None, s)
    end in
  match urb_ with
  | Some u => (Some u, s)
  | None => usb_alloc_urb (emit (printk no_free_urbs) s)
  end.

(** [submit_gbuf]; [submit_result] is what [usb_submit_urb] returns. *)
Definition submit_gbuf (submit_result : Z) (g : gbuf) (s : state)
  : Z * gbuf * state :=
  let buffer := (fun p => ptr_add p (-1)) <$> transfer_buffer g in
  let '(urb_, s) := next_free_urb s in
  match urb_ with
  | None => (- ENOMEM, g, s)
  | Some u =>
      (submit_result, set_hcd_data (Some u) g,
       emit (usb_submit_urb u
               (Some (buffer, u32 (transfer_buffer_length g + 1)))) s)
  end.

(** [check_urb_status] *)
Definition check_urb_status (u : urb) (s : state) : Z * state :=
  let status_ := urb_status u in
  if status_ =? 0 then (0, s)
  else if status_ =? - EOVERFLOW then
    (status_, emit (printk (overflow (actual_length u))) s)
  else if (status_ =? - ECONNRESET) || (status_ =? - ENOENT) ||
          (status_ =? - ESHUTDOWN) || (status_ =? - EILSEQ) ||
          (status_ =? - EPROTO) then (status_, s)
  else (- EAGAIN, emit (printk (unknown_status status_)) s).

(** The label [exit] of the two handlers for incoming urbs: the urb
    is submitted again. *)
Definition resubmit (submit_result : Z) (u : urb) (s : state) : state :=
  let s := emit (usb_submit_urb (urb_addr u) None) s in
  if submit_result =? 0 then s
  else emit (printk (submit_error submit_result)) s.

(** [cport_in_callback] *)
Definition cport_in_callback (submit_result : Z) (u : urb) (s : state)
  : state :=
  let '(status_, s) := check_urb_status u s in
  if negb (status_ =? 0) then
    if status_ =? - EAGAIN then resubmit submit_result u s
    else emit (printk (cport_in_error status_)) s
  else if actual_length u =? 0 then
    resubmit submit_result u (emit (printk no_cport_id) s)
  else
    let cport := Manifest.byte_at (urb_buffer u) 0 in
    let data := Manifest.bytes_at (urb_buffer u) 1 (u32 (actual_length u - 1)) in
    resubmit submit_result u (emit (greybus_cport_in cport data) s).

(** [cport_out_callback]; [g] is the gbuf [urb->context] points to. *)
Definition cport_out_callback (u : urb) (g : gbuf) (s : state)
  : gbuf * state :=
  let '(status_, s) := check_urb_status u s in
  let g := set_hcd_data None (set_status status_ g) in
  let '(urb_, s) :=
    match list_find (fun p => p = Some (urb_addr u))
                    (take NUM_CPORT_OUT_URB (cport_out_urb s)) with
    | Some (i, _) =>
        (None, with_busy (<[i := false]> (cport_out_urb_busy s)) s)
    | None => (Some (urb_addr u), s)
    end in
  (g, usb_free_urb urb_ s).
End Driver.

(** The urbs of the pool. *)
Definition pool_of (s : state) : list nat := omap id (cport_out_urb s).

(** The pool as [ap_probe] leaves it and the driver keeps it: eight
    urbs, all different, with eight flags; the urbs of the pool are
    allocated, and every allocated urb came from [usb_alloc_urb]. *)
Record pool_ok (s : state) : Prop := {
  pool_full : cport_out_urb s = Some <$> pool_of s;
  pool_size : length (pool_of s) = NUM_CPORT_OUT_URB;
  pool_flags : length (cport_out_urb_busy s) = NUM_CPORT_OUT_URB;
  pool_nodup : NoDup (pool_of s);
  pool_alloc : forall u, u ∈ pool_of s -> u ∈ urbs s;
  pool_fresh : forall u, u ∈ urbs s -> (u < nurb s)%nat
}.

(** The pool in use, with the urbs that are in flight: handed out by
    [next_free_urb] and not yet back in [cport_out_callback]. *)
Inductive pool_step (usb_alloc_ok : nat -> bool)
  : state * list nat -> state * list nat -> Prop :=
| pool_take s fl u s' :
    next_free_urb usb_alloc_ok s = (Some u, s') ->
    pool_step usb_alloc_ok (s, fl) (s', u :: fl)
| pool_none s fl s' :
    next_free_urb usb_alloc_ok s = (None, s') ->
    pool_step usb_alloc_ok (s, fl) (s', fl)
| pool_give s fl u g :
    urb_addr u ∈ fl ->
    pool_step usb_alloc_ok (s, fl)
      ((cport_out_callback u g s).2, filter (fun a => a ≠ urb_addr u) fl).

(** What holds of the pool and of the urbs in flight, when the
    driver started in state [s0] with nothing in flight. *)
Record flight_inv (s0 : state) (p : state * list nat) : Prop := {
  fi_ok : pool_ok p.1;
  fi_pool : cport_out_urb p.1 = cport_out_urb s0;
  fi_nodup : NoDup p.2;
  fi_busy : forall i u, pool_of p.1 !! i = Some u ->
    (cport_out_urb_busy p.1 !! i = Some true <-> u ∈ p.2);
  fi_urbs : forall u, u ∈ urbs p.1 <-> u ∈ urbs s0 \/ u ∈ p.2;
  fi_dyn : forall u, u ∈ p.2 -> u ∈ pool_of p.1 \/ (nurb s0 <= u)%nat;
  fi_nurb : (nurb s0 <= nurb p.1)%nat
}.

Definition probed : state :=
  {| cport_out_urb := Some <$> seq 0 8; cport_out_urb_busy := replicate 8 false;
     urbs := seq 0 8; nurb := 8; heap := ∅; nblock := 0; faulted := false;
     trace := [] |}.

Definition served (n : nat) : bool := true.

(** An outbound gbuf on a connection whose remote cport id is [id]. *)
Definition gbuf_for (id : Z) (out : bool) : gbuf :=
  {| connection :=
       {| Connection.hd_cport_id := 0; Connection.interface := 0%nat;
          Connection.interface_cport_id := id; Connection.protocol := 0;
          Connection.operations := []; Connection.op_cycle := 0 |};
     outbound := out; transfer_buffer := None; transfer_buffer_length := 0;
     hcd_data := None; status := 0 |}.

End Es1.

Module Lowmem.
Import Kernel.

(** *** The low memory killer (lowmemorykiller.c) *)

(** [short], [long] and [unsigned long]. *)
Definition short (x : Z) : Z := (x + 2 ^ 15) mod 2 ^ 16 - 2 ^ 15.
Definition long (x : Z) : Z := (x + 2 ^ 63) mod 2 ^ 64 - 2 ^ 63.
Definition ulong (x : Z) : Z := wrap 64 x.

(** The constants of linux/oom.h and linux/shrinker.h. *)
Definition OOM_DISABLE : Z := -17.
Definition OOM_ADJUST_MAX : Z := 15.
Definition OOM_SCORE_ADJ_MAX : Z := 1000.
Definition SHRINK_STOP : Z := 2 ^ 64 - 1.

(** The options of the build the file tests for; [CONFIG_ARM] stands
    for [CONFIG_ARM || CONFIG_ARM64]. *)
Record config := {
  CONFIG_ZSWAP : bool;
  CONFIG_LMK_SKIP_KILL : bool;
  CONFIG_ARM : bool
}.

(** What [lowmem_scan] reads of the task [find_lock_task_mm] returns. *)
Record task := {
  pid : Z;
  memdie : bool;
  uninterruptible : bool;
  oom_score_adj : Z;
  leader_comm : list byte;
  mm_rss : Z;
  mm_swapents : Z;
  in_current_group : bool
}.

(** A process of [for_each_process]: whether it is a kernel thread,
    the [TIF_MEMALLOC] flags of its threads, and the task with an mm
    that [find_lock_task_mm] finds for it, if any. *)
Record process := {
  kthread : bool;
  memalloc : list bool;
  mm_task : option task
}.

(** The page counters the scan reads. *)
Record vm := {
  nr_free_pages : Z;
  totalreserve_pages : Z;
  nr_file_pages : Z;
  nr_shmem : Z;
  nr_unevictable : Z;
  total_swapcache_pages : Z;
  nr_free_cma_pages : Z;
  zswap_pool_pages : Z;
  zswap_stored_pages : Z
}.

(** The static variables of the file. *)
Record lmk := {
  lowmem_adj : list Z;
  lowmem_adj_size : Z;
  lowmem_minfree : list Z;
  lowmem_minfree_size : Z;
  lowmem_lmkcount : Z;
  lowmem_deathpending_timeout : Z
}.

(** The variables as the file initialises them. *)
Definition defaults : lmk :=
  {| lowmem_adj := [0; 1; 6; 12; 0; 0]; lowmem_adj_size := 4;
     lowmem_minfree := [3 * 512; 2 * 1024; 4 * 1024; 16 * 1024; 0; 0];
     lowmem_minfree_size := 4;
     lowmem_lmkcount := 0; lowmem_deathpending_timeout := 0 |}.

(** [ARRAY_SIZE(lowmem_adj)] cut down to the two sizes. *)
Definition array_size (st : lmk) : Z :=
  let array_size := 6 in
  let array_size :=
    if lowmem_adj_size st <? array_size then lowmem_adj_size st
    else array_size in
  if lowmem_minfree_size st <? array_size then lowmem_minfree_size st
  else array_size.

(** The outcome of one pass of the loop over the processes, before
    the comparison with the task selected so far. *)
Inductive verdict :=
| skip
| abort
| candidate (p : task) (tasksize : Z).

Section Scan.
Variable cfg : config.
Variable HZ : Z.
Variable v : vm.
Variable jiffies : Z.
(** [sc->gfp_mask & __GFP_CMA] *)
Variable gfp_cma : bool.

Definition other_free : Z :=
  let other_free := int (nr_free_pages v - totalreserve_pages v) in
  if negb gfp_cma then int (other_free - nr_free_cma_pages v) else other_free.

Definition other_file : Z :=
  int (nr_file_pages v - nr_shmem v - nr_unevictable v
       - total_swapcache_pages v).

(** The loop over the thresholds, from index [i] on: [min_score_adj]
    and [minfree] when it ends. *)
Fixpoint thresholds (st : lmk) (i fuel : nat) (minfree : Z) : Z * Z :=
  match fuel with
  | O => (short (OOM_SCORE_ADJ_MAX + 1), minfree)
  | S fuel' =>
      let minfree := nth i (lowmem_minfree st) 0 in
      if (other_free <? minfree) && (other_file <? minfree) then
        (nth i (lowmem_adj st) 0, minfree)
      else thresholds st (S i) fuel' minfree
  end.

Definition min_score_adj (st : lmk) : Z :=
  (thresholds st 0 (Z.to_nat (array_size st)) 0).1.

(** [test_task_flag]: some thread of the process has the flag. *)
Definition test_task_flag (flags : list bool) : bool := existsb id flags.

(** [time_before_eq(a, b)] *)
Definition time_before_eq (a b : Z) : bool := 0 <=? long (b - a).

(** The two names [CONFIG_LMK_SKIP_KILL] spares, compared on 15
    characters. *)
Definition android_chrome : list byte :=
  [x2e; x61; x6e; x64; x72; x6f; x69; x64; x2e; x63; x68; x72; x6f; x6d; x65].
Definition app_sbrowser : list byte :=
  [x69; x64; x2e; x61; x70; x70; x2e; x73; x62; x72; x6f; x77; x73; x65; x72].

Definition strncmp15_eq (comm name : list byte) : bool :=
  bool_decide (Byte.to_N <$> take 15 comm = Byte.to_N <$> name).

(** The size of a task in pages, as the scan counts it. *)
Definition tasksize_of (p : task) : Z :=
  let tasksize := int (mm_rss p) in
  if CONFIG_ZSWAP cfg then
    let zswap_stored_pages_temp := int (zswap_stored_pages v) in
    if zswap_stored_pages_temp =? 0 then tasksize
    else
      let swap_rss :=
        int (ulong (ulong (int (zswap_pool_pages v)) * mm_swapents p)
             / ulong zswap_stored_pages_temp) in
      int (tasksize + swap_rss)
  else tasksize.

(** The body of the loop over the processes up to the comparison. *)
Definition examine (st : lmk) (tsk : process) : verdict :=
  if kthread tsk then skip
  else if CONFIG_ARM cfg && test_task_flag (memalloc tsk) then skip
  else
    match mm_task tsk with
    | None => skip
    | Some p =>
        if memdie p then
          if time_before_eq jiffies (lowmem_deathpending_timeout st) then abort
          else skip
        else if uninterruptible p then skip
        else if oom_score_adj p <? min_score_adj st then skip
        else if CONFIG_LMK_SKIP_KILL cfg && (oom_score_adj p =? 200) &&
                (strncmp15_eq (leader_comm p) android_chrome ||
                 strncmp15_eq (leader_comm p) app_sbrowser) then skip
        else
          let tasksize := tasksize_of p in
          if tasksize <=? 0 then skip
          else if in_current_group p then skip
          else candidate p tasksize
    end.

(** The loop over the processes: [None] when it returns from inside,
    else the task selected with its size. *)
Fixpoint for_each_process (st : lmk) (l : list process)
    (selected : option (task * Z)) : option (option (task * Z)) :=
  match l with
  | [] => Some selected
  | tsk :: rest =>
      match examine st tsk with
      | abort => None
      | skip => for_each_process st rest selected
      | candidate p tasksize =>
          match selected with
          | Some (sel, selected_tasksize) =>
              if oom_score_adj p <? oom_score_adj sel then
                for_each_process st rest selected
              else if (oom_score_adj p =? oom_score_adj sel) &&
                      (tasksize <=? selected_tasksize) then
                for_each_process st rest selected
              else for_each_process st rest (Some (p, tasksize))
          | None => for_each_process st rest (Some (p, tasksize))
          end
      end
  end.

(** [lowmem_scan]: the value returned, the task that was sent
    [SIGKILL], and the variables of the file. *)
Definition lowmem_scan (st : lmk) (procs : list process)
  : Z * option task * lmk :=
  if min_score_adj st =? OOM_SCORE_ADJ_MAX + 1 then (SHRINK_STOP, None, st)
  else
    match for_each_process st procs None with
    | None => (SHRINK_STOP, None, st)
    | Some None => (SHRINK_STOP, None, st)
    | Some (Some (selected, selected_tasksize)) =>
        let rem := ulong (0 + selected_tasksize) in
        (if rem =? 0 then SHRINK_STOP else rem,
         Some selected,
         {| lowmem_adj := lowmem_adj st; lowmem_adj_size := lowmem_adj_size st;
            lowmem_minfree := lowmem_minfree st;
            lowmem_minfree_size := lowmem_minfree_size st;
            lowmem_lmkcount := u32 (lowmem_lmkcount st + 1);
            lowmem_deathpending_timeout := ulong (jiffies + HZ) |})
    end.
End Scan.

(** [lowmem_oom_adj_to_oom_score_adj] *)
Definition lowmem_oom_adj_to_oom_score_adj (oom_adj : Z) : Z :=
  if oom_adj =? OOM_ADJUST_MAX then short OOM_SCORE_ADJ_MAX
  else short (int (Z.quot (int (oom_adj * OOM_SCORE_ADJ_MAX)) (- OOM_DISABLE))).

(** The loop of [lowmem_autodetect_oom_adj_values]. *)
Fixpoint convert_from (i fuel : nat) (adj : list Z) : list Z :=
  match fuel with
  | O => adj
  | S fuel' =>
      convert_from (S i) fuel'
        (<[i := lowmem_oom_adj_to_oom_score_adj (nth i adj 0)]> adj)
  end.

(** [lowmem_autodetect_oom_adj_values] *)
Definition lowmem_autodetect_oom_adj_values (st : lmk) : lmk :=
  let array_size := 6 in
  let array_size :=
    if lowmem_adj_size st <? array_size then lowmem_adj_size st
    else array_size in
  if array_size <=? 0 then st
  else
    let oom_adj := nth (Z.to_nat (array_size - 1)) (lowmem_adj st) 0 in
    if oom_adj >? OOM_ADJUST_MAX then st
    else
      let oom_score_adj_ := lowmem_oom_adj_to_oom_score_adj oom_adj in
      if oom_score_adj_ <=? OOM_ADJUST_MAX then st
      else
        {| lowmem_adj := convert_from 0 (Z.to_nat array_size) (lowmem_adj st);
           lowmem_adj_size := lowmem_adj_size st;
           lowmem_minfree := lowmem_minfree st;
           lowmem_minfree_size := lowmem_minfree_size st;
           lowmem_lmkcount := lowmem_lmkcount st;
           lowmem_deathpending_timeout := lowmem_deathpending_timeout st |}.

(** Task [q] of size [n] is no better a choice than [p] of size [m]. *)
Definition no_worse (q : task) (n : Z) (p : task) (m : Z) : Prop :=
  oom_score_adj q < oom_score_adj p \/
  (oom_score_adj q = oom_score_adj p /\ n <= m).

(** Both counters are below the [i]-th threshold. *)
Definition below (v : vm) (gfp_cma : bool) (st : lmk) (i : nat) : Prop :=
  other_free v gfp_cma < nth i (lowmem_minfree st) 0 /\
  other_file v < nth i (lowmem_minfree st) 0.

(** Examples: a machine short of memory and three processes. *)
Definition plain : config :=
  {| CONFIG_ZSWAP := false; CONFIG_LMK_SKIP_KILL := false; CONFIG_ARM := true |}.

Definition tight : vm :=
  {| nr_free_pages := 3000; totalreserve_pages := 1000; nr_file_pages := 2500;
     nr_shmem := 100; nr_unevictable := 0; total_swapcache_pages := 0;
     nr_free_cma_pages := 0; zswap_pool_pages := 0; zswap_stored_pages := 0 |}.

Definition user_task (id adj rss : Z) : process :=
  {| kthread := false; memalloc := [false];
     mm_task := Some {| pid := id; memdie := false; uninterruptible := false;
                        oom_score_adj := adj; leader_comm := [];
                        mm_rss := rss; mm_swapents := 0;
                        in_current_group := false |} |}.

Definition three_tasks : list process :=
  [user_task 10 900 50; user_task 11 905 40; user_task 12 905 70].

End Lowmem.

Module ConnectionFacts.
Import Kernel Connection.

(** *** Operation ids *)

Lemma int_add_int (x k : Z) : int (int x + k) = int (x + k).
Proof.
  unfold int.
  change (2 ^ 31) with 2147483648. change (2 ^ 32) with 4294967296.
  Z.to_euclidean_division_equations; lia.
Qed.

Lemma id_of_shift (x d : Z) : 0 < d < 65535 -> id_of x <> id_of (x + d).
Proof.
  unfold id_of, u16, wrap, c_rem, int, U16_MAX. intros Hd.
  change (2 ^ 31) with 2147483648. change (2 ^ 32) with 4294967296.
  change (2 ^ 16) with 65536.
  Z.to_euclidean_division_equations; lia.
Qed.

Lemma id_of_small (x : Z) : 0 <= x < 65535 -> id_of x = x.
Proof.
  unfold id_of, u16, wrap, c_rem, int, U16_MAX. intros Hx.
  change (2 ^ 31) with 2147483648. change (2 ^ 32) with 4294967296.
  change (2 ^ 16) with 65536.
  Z.to_euclidean_division_equations; lia.
Qed.

Lemma op_ids_length (n : nat) (c : gb_connection) :
  length (gb_connection_op_ids n c) = n.
Proof.
  revert c. induction n as [|n IH]; intros c; simpl; [done|].
  by rewrite IH.
Qed.

(** The [i]-th of [n] successive calls returns the id of the
    counter advanced [i + 1] times. *)
Lemma op_ids_lookup (n : nat) (c : gb_connection) (i : nat) :
  (i < n)%nat ->
  gb_connection_op_ids n c !! i = Some (id_of (op_cycle c + Z.of_nat i + 1)).
Proof.
  revert c i. induction n as [|n IH]; intros c i Hi; [lia|].
  simpl. destruct i as [|i]; simpl.
  - unfold id_of, atomic_inc_return.
    by replace (op_cycle c + Z.of_nat 0 + 1) with (op_cycle c + 1) by lia.
  - rewrite IH by lia. simpl. unfold atomic_inc_return, id_of.
    replace (int (op_cycle c + 1) + Z.of_nat i + 1)
      with (int (op_cycle c + 1) + (Z.of_nat i + 1)) by lia.
    rewrite int_add_int.
    by replace (op_cycle c + 1 + (Z.of_nat i + 1))
      with (op_cycle c + Z.of_nat (S i) + 1) by lia.
Qed.

Lemma op_ids_fresh (n : nat) (c : gb_connection) :
  op_cycle c = 0 -> Z.of_nat n <= 65534 ->
  gb_connection_op_ids n c = seqZ 1 (Z.of_nat n).
Proof.
  intros Hc Hn. apply list_eq. intros i.
  destruct (decide (i < n)%nat) as [Hi|Hi].
  - rewrite op_ids_lookup by done. rewrite lookup_seqZ_lt by lia.
    rewrite Hc, id_of_small by lia. f_equal. lia.
  - rewrite !lookup_ge_None_2; [done| |].
    + rewrite length_seqZ. lia.
    + rewrite op_ids_length. lia.
Qed.

(** C1, as the code has it: whatever the state of the counter, no id
    is returned twice by 65535 consecutive calls of
    [gb_connection_op_id] on one connection; the id is the incremented
    counter modulo [U16_MAX] = 65535 as long as the counter, an [int],
    has not overflowed. *)
Theorem op_id_distinct_within_65535 (c : gb_connection) :
  NoDup (gb_connection_op_ids (Z.to_nat 65535) c) /\
  (0 <= op_cycle c < 2 ^ 31 - 1 ->
   (gb_connection_op_id c).1 = (op_cycle c + 1) mod 65535).
Proof.
  split.
  2:{ intros Hc. unfold gb_connection_op_id, atomic_inc_return. cbn [fst].
      unfold u16, wrap, c_rem, int, U16_MAX.
      change (2 ^ 31) with 2147483648 in *. change (2 ^ 32) with 4294967296.
      change (2 ^ 16) with 65536.
      Z.to_euclidean_division_equations; lia. }
  apply NoDup_alt. intros i j x Hi Hj.
  assert (Hli : (i < Z.to_nat 65535)%nat).
  { apply lookup_lt_Some in Hi. by rewrite op_ids_length in Hi. }
  assert (Hlj : (j < Z.to_nat 65535)%nat).
  { apply lookup_lt_Some in Hj. by rewrite op_ids_length in Hj. }
  rewrite op_ids_lookup in Hi by done. rewrite op_ids_lookup in Hj by done.
  destruct (Nat.lt_trichotomy i j) as [Hlt|[Heq|Hgt]]; [|done|]; exfalso.
  - apply (id_of_shift (op_cycle c + Z.of_nat i + 1) (Z.of_nat j - Z.of_nat i));
      [lia|].
    replace (op_cycle c + Z.of_nat i + 1 + (Z.of_nat j - Z.of_nat i))
      with (op_cycle c + Z.of_nat j + 1) by lia.
    congruence.
  - apply (id_of_shift (op_cycle c + Z.of_nat j + 1) (Z.of_nat i - Z.of_nat j));
      [lia|].
    replace (op_cycle c + Z.of_nat j + 1 + (Z.of_nat i - Z.of_nat j))
      with (op_cycle c + Z.of_nat i + 1) by lia.
    congruence.
Qed.

Lemma op_id_distinct_within_65535_witness :
  0 <= op_cycle zeroed < 2 ^ 31 - 1 /\
  (gb_connection_op_id zeroed).1 = (op_cycle zeroed + 1) mod 65535.
Proof.
  assert (H : 0 <= op_cycle zeroed < 2 ^ 31 - 1) by (simpl; lia).
  split; [exact H|].
  exact (proj2 (op_id_distinct_within_65535 zeroed) H).
Defined.

(** C1 as stated fails: on a connection whose counter is zero the
    first and the 65536th call both return 1. *)
Lemma op_id_repeats_within_65536 :
  ~ NoDup (gb_connection_op_ids (Z.to_nat 65536) zeroed).
Proof.
  intros Hnd.
  assert (H0 : gb_connection_op_ids (Z.to_nat 65536) zeroed !! 0%nat = Some 1).
  { rewrite op_ids_lookup by lia. done. }
  assert (H1 : gb_connection_op_ids (Z.to_nat 65536) zeroed !! Z.to_nat 65535
               = Some 1).
  { rewrite op_ids_lookup by lia. rewrite Z2Nat.id by lia. reflexivity. }
  pose proof (proj1 (NoDup_alt _) Hnd _ _ _ H0 H1). lia.
Qed.

(** *** The CPort allocator *)

Section Allocator.
Variable MAX : Z.

Lemma ida_simple_get_free (ida : Z) (id ida' : Z) :
  ida_simple_get ida 0 MAX = (id, ida') -> 0 <= id ->
  lowest_free MAX ida id /\ ida' = Z.setbit ida id.
Proof.
  unfold ida_simple_get, lowest_free. intros H Hid.
  destruct (list_find _ _) as [[k x]|] eqn:Hf.
  - injection H as <- <-.
    apply list_find_Some in Hf as (Hk & Hx & Hlow).
    apply lookup_seqZ in Hk as [-> Hk]. split; [|done].
    split; [lia|]. split; [done|].
    intros j Hj. specialize (Hlow (Z.to_nat j) j).
    destruct (Z.testbit ida j) eqn:E; [done|]. exfalso. apply Hlow.
    + apply lookup_seqZ. lia.
    + lia.
    + done.
  - injection H as <- <-. unfold ENOSPC in Hid. lia.
Qed.

Lemma ida_simple_get_full (ida : Z) (id ida' : Z) :
  ida_simple_get ida 0 MAX = (id, ida') -> id < 0 ->
  exhausted MAX ida /\ ida' = ida /\ id = - ENOSPC.
Proof.
  unfold ida_simple_get, exhausted. intros H Hid.
  destruct (list_find _ _) as [[k x]|] eqn:Hf.
  - injection H as <- <-.
    apply list_find_Some in Hf as (Hk & _).
    apply lookup_seqZ in Hk. lia.
  - injection H as <- <-. split; [|done].
    intros j Hj. apply list_find_None in Hf.
    rewrite list.Forall_forall in Hf.
    destruct (Z.testbit ida j) eqn:E; [done|]. exfalso.
    apply (Hf j); [apply elem_of_seqZ; lia | done].
Qed.

Lemma lowest_free_unique (ida a b : Z) :
  lowest_free MAX ida a -> lowest_free MAX ida b -> a = b.
Proof.
  intros (Ha & Hfa & Hla) (Hb & Hfb & Hlb).
  destruct (Z.lt_trichotomy a b) as [H|[H|H]]; [|done|].
  - rewrite Hlb in Hfa by lia. done.
  - rewrite Hla in Hfb by lia. done.
Qed.

Lemma lowest_free_get (ida id : Z) :
  lowest_free MAX ida id ->
  ida_simple_get ida 0 MAX = (id, Z.setbit ida id).
Proof.
  intros Hlf. destruct (ida_simple_get ida 0 MAX) as [id' ida'] eqn:E.
  destruct (Z.lt_ge_cases id' 0) as [Hneg|Hpos].
  - apply ida_simple_get_full in E as (Hex & _); [|done].
    destruct Hlf as (Hr & Hf & _). rewrite Hex in Hf by done. done.
  - apply ida_simple_get_free in E as (Hlf' & ->); [|done].
    by rewrite (lowest_free_unique _ _ _ Hlf Hlf').
Qed.

Lemma alloc_ok (c : gb_connection) (ida id : Z) :
  MAX <= 65536 -> lowest_free MAX ida id ->
  hd_connection_hd_cport_id_alloc MAX c ida
  = (true, set_hd_cport_id id c, Z.setbit ida id).
Proof.
  intros HM Hlf. unfold hd_connection_hd_cport_id_alloc.
  rewrite (lowest_free_get _ _ Hlf). destruct Hlf as (Hr & _).
  destruct (id <? 0) eqn:E; [lia|].
  unfold u16, wrap. rewrite Z.mod_small; [done|].
  change (2 ^ 16) with 65536. lia.
Qed.

Lemma alloc_cases (c : gb_connection) (ida : Z) :
  MAX <= 65536 ->
  (exists id, lowest_free MAX ida id /\
     hd_connection_hd_cport_id_alloc MAX c ida
     = (true, set_hd_cport_id id c, Z.setbit ida id)) \/
  (exhausted MAX ida /\
     hd_connection_hd_cport_id_alloc MAX c ida = (false, c, ida)).
Proof.
  intros HM. destruct (ida_simple_get ida 0 MAX) as [id ida'] eqn:E.
  destruct (Z.lt_ge_cases id 0) as [Hneg|Hpos].
  - right. unfold hd_connection_hd_cport_id_alloc. rewrite E.
    apply ida_simple_get_full in E as (Hex & -> & ->); [|done].
    split; [done|]. done.
  - left. apply ida_simple_get_free in E as (Hlf & ->); [|done].
    exists id. split; [done|]. by apply alloc_ok.
Qed.
End Allocator.

Lemma setbit_ones (k : Z) : 0 <= k -> Z.setbit (Z.ones k) k = Z.ones (k + 1).
Proof.
  intros Hk. apply Z.bits_inj'. intros n Hn.
  rewrite Z.setbit_eqb by done.
  destruct (Z.eqb_spec k n) as [->|Hne]; simpl.
  - by rewrite Z.ones_spec_low by lia.
  - destruct (Z.lt_ge_cases n k).
    + by rewrite !Z.ones_spec_low by lia.
    + by rewrite !Z.ones_spec_high by lia.
Qed.

Lemma lowest_free_ones (MAX k : Z) :
  0 <= k < MAX -> lowest_free MAX (Z.ones k) k.
Proof.
  intros Hk. split; [done|]. split.
  - apply Z.ones_spec_high. lia.
  - intros j Hj. apply Z.ones_spec_low. lia.
Qed.

Lemma cport_id_allocs_ones (MAX : Z) (n : nat) (k : Z) :
  MAX <= 65536 -> 0 <= k -> k + Z.of_nat n <= MAX ->
  cport_id_allocs MAX n (Z.ones k)
  = (Some <$> seqZ k (Z.of_nat n), Z.ones (k + Z.of_nat n)).
Proof.
  intros HM. revert k. induction n as [|n IH]; intros k Hk Hn.
  - simpl. by rewrite Z.add_0_r.
  - cbn [cport_id_allocs].
    rewrite (alloc_ok MAX zeroed _ k HM) by (apply lowest_free_ones; lia).
    rewrite setbit_ones by done. rewrite IH by lia.
    replace (Z.of_nat (S n)) with (Z.succ (Z.of_nat n)) by lia.
    rewrite (seqZ_cons k) by lia. rewrite Z.pred_succ. simpl.
    replace (Z.succ k) with (k + 1) by lia.
    by replace (k + Z.succ (Z.of_nat n)) with (k + 1 + Z.of_nat n) by lia.
Qed.

(** C8: an allocation hands out the lowest free id below the maximum
    and fails exactly when none is free; [n] allocations in a row on
    an empty map hand out 0, 1, ..., n - 1 in this order.  Freeing the
    id [k] of a connection clears [k] in the map, leaves every other
    id as it was and sets the connection's id to [CPORT_ID_BAD]; the
    next allocation then succeeds with the lowest id free afterwards,
    which is [k] or a lower id that was free already before, never an
    id that is still held. *)
Theorem cport_id_alloc_lowest_free (MAX BAD : Z) (HMAX : MAX <= 65536) :
  (forall c ida,
     (exists id, lowest_free MAX ida id /\
        hd_connection_hd_cport_id_alloc MAX c ida
        = (true, set_hd_cport_id id c, Z.setbit ida id)) \/
     (exhausted MAX ida /\
        hd_connection_hd_cport_id_alloc MAX c ida = (false, c, ida))) /\
  (forall n : nat, Z.of_nat n <= MAX ->
     (cport_id_allocs MAX n 0).1 = Some <$> seqZ 0 (Z.of_nat n)) /\
  (forall c ida c2, 0 <= hd_cport_id c < MAX ->
     let ida' := (hd_connection_hd_cport_id_free BAD c ida).2 in
     exists id, lowest_free MAX ida' id /\ id <= hd_cport_id c /\
       hd_connection_hd_cport_id_alloc MAX c2 ida'
       = (true, set_hd_cport_id id c2, Z.setbit ida' id)) /\
  (forall c ida,
     let ida' := (hd_connection_hd_cport_id_free BAD c ida).2 in
     (hd_connection_hd_cport_id_free BAD c ida).1 = set_hd_cport_id BAD c /\
     Z.testbit ida' (hd_cport_id c) = false /\
     forall j, j <> hd_cport_id c -> Z.testbit ida' j = Z.testbit ida j) /\
  (forall c ida c2 c2' ida'', 0 <= hd_cport_id c < MAX ->
     let ida' := (hd_connection_hd_cport_id_free BAD c ida).2 in
     hd_connection_hd_cport_id_alloc MAX c2 ida' = (true, c2', ida'') ->
     let id := hd_cport_id c2' in
     (id = hd_cport_id c \/ (id < hd_cport_id c /\ Z.testbit ida id = false)) /\
     (forall j, 0 <= j < id -> Z.testbit ida j = true) /\
     (forall j, j <> id -> j <> hd_cport_id c ->
        Z.testbit ida'' j = Z.testbit ida j) /\
     Z.testbit ida'' id = true).
Proof.
  assert (Hnext : forall c ida c2, 0 <= hd_cport_id c < MAX ->
     exists id, lowest_free MAX (Z.clearbit ida (hd_cport_id c)) id /\
       id <= hd_cport_id c /\
       hd_connection_hd_cport_id_alloc MAX c2 (Z.clearbit ida (hd_cport_id c))
       = (true, set_hd_cport_id id c2,
          Z.setbit (Z.clearbit ida (hd_cport_id c)) id)).
  { intros c ida c2 Hk.
    assert (Hfree : Z.testbit (Z.clearbit ida (hd_cport_id c)) (hd_cport_id c)
                    = false) by apply Z.clearbit_eq.
    destruct (alloc_cases MAX c2 (Z.clearbit ida (hd_cport_id c)) HMAX)
      as [(id & Hlf & Heq)|(Hex & _)].
    + exists id. split; [done|]. split; [|done].
      destruct Hlf as (_ & _ & Hlow).
      destruct (Z.le_gt_cases id (hd_cport_id c)) as [|Hgt]; [done|].
      rewrite Hlow in Hfree by lia. done.
    + rewrite Hex in Hfree by done. done. }
  split; [|split; [|split; [|split]]].
  - intros c ida. by apply alloc_cases.
  - intros n Hn. change 0 with (Z.ones 0) at 1.
    by rewrite cport_id_allocs_ones by lia.
  - intros c ida c2 Hk. simpl. unfold ida_simple_remove. by apply Hnext.
  - intros c ida. simpl. unfold ida_simple_remove. split; [done|].
    split; [apply Z.clearbit_eq|].
    intros j Hj. apply Z.clearbit_neq. lia.
  - intros c ida c2 c2' ida'' Hk. simpl. unfold ida_simple_remove.
    destruct (Hnext c ida c2 Hk) as (id & Hlf & Hle & ->).
    intros [= <- <-]. cbn [hd_cport_id set_hd_cport_id].
    destruct Hlf as (Hr & Hf & Hlow).
    split; [|split; [|split]].
    + destruct (decide (id = hd_cport_id c)) as [|Hne]; [by left|right].
      split; [lia|]. by rewrite Z.clearbit_neq in Hf by lia.
    + intros j Hj. rewrite <- (Hlow j Hj). symmetry.
      apply Z.clearbit_neq. lia.
    + intros j Hj Hjk. rewrite Z.setbit_neq by lia.
      apply Z.clearbit_neq. lia.
    + apply Z.setbit_eq. lia.
Qed.

Lemma cport_id_alloc_lowest_free_witness :
  4 <= 65536 /\ (cport_id_allocs 4 3 0).1 = [Some 0; Some 1; Some 2] /\
  0 <= hd_cport_id (set_hd_cport_id 1 zeroed) < 4 /\
  hd_connection_hd_cport_id_alloc 4 zeroed
    (hd_connection_hd_cport_id_free 255 (set_hd_cport_id 1 zeroed)
       (cport_id_allocs 4 3 0).2).2
  = (true, set_hd_cport_id 1 zeroed, 7) /\
  Z.testbit (cport_id_allocs 4 3 0).2 0 = true /\
  Z.testbit (cport_id_allocs 4 3 0).2 2 = true.
Proof.
  assert (Hk : 0 <= hd_cport_id (set_hd_cport_id 1 zeroed) < 4) by (simpl; lia).
  assert (Ha : hd_connection_hd_cport_id_alloc 4 zeroed
                 (hd_connection_hd_cport_id_free 255 (set_hd_cport_id 1 zeroed)
                    (cport_id_allocs 4 3 0).2).2
               = (true, set_hd_cport_id 1 zeroed, 7)) by reflexivity.
  split; [lia|]. split.
  { exact (proj1 (proj2 (cport_id_alloc_lowest_free 4 255 ltac:(lia)))
             3%nat ltac:(lia)). }
  split; [exact Hk|]. split; [exact Ha|].
  destruct (proj2 (proj2 (proj2 (proj2
              (cport_id_alloc_lowest_free 4 255 ltac:(lia)))))
              (set_hd_cport_id 1 zeroed) (cport_id_allocs 4 3 0).2 zeroed _ 7 Hk Ha)
    as (_ & Hlow & Hkeep & _).
  cbn [hd_cport_id set_hd_cport_id] in Hlow, Hkeep.
  split; [apply Hlow; lia|].
  rewrite <- (Hkeep 2) by lia. reflexivity.
Defined.

(** *** The connection registry *)

Section RegistryInvariant.
Variable MAX : Z.
Variable BAD : Z.
Variable ok : nat -> bool.
Hypothesis HMAX : MAX <= 65536.

Lemma inv_init : registry_inv MAX init.
Proof.
  split; simpl.
  - constructor.
  - intros a. rewrite lookup_empty. split; [by intros ?%elem_of_nil|].
    by intros [? ?].
  - intros a [? H]. by rewrite lookup_empty in H.
  - intros a c H. by rewrite lookup_empty in H.
  - intros a b ca cb H. by rewrite lookup_empty in H.
  - intros id H. by rewrite Z.bits_0 in H.
Qed.

Lemma inv_create itf cport_id protocol_ w :
  registry_inv MAX w ->
  registry_inv MAX (gb_connection_create MAX ok itf cport_id protocol_ w).2.
Proof.
  intros [Hnd Hlist Hfresh Hheld Huniq Hused].
  unfold gb_connection_create.
  destruct (ok (nalloc w));
    [|split; simpl; auto; intros a Ha%Hfresh; lia].
  destruct (alloc_cases MAX zeroed (cport_id_map w) HMAX)
    as [(id & Hlf & ->)|(Hex & ->)];
    [|split; simpl; auto; intros a Ha%Hfresh; lia].
  destruct Hlf as (Hid & Hfree & _).
  assert (Hnew : objs w !! nalloc w = None).
  { destruct (objs w !! nalloc w) eqn:E; [|done].
    assert (nalloc w < nalloc w)%nat by (apply Hfresh; eauto). lia. }
  split; simpl.
  - unfold Connection.list_add_tail.
    apply list.NoDup_app. split; [done|]. split; [|apply NoDup_singleton].
    intros a Ha ->%list_elem_of_singleton.
    apply Hlist in Ha as [c Hc]. congruence.
  - intros a. unfold Connection.list_add_tail.
    rewrite elem_of_app, list_elem_of_singleton, Hlist.
    destruct (decide (a = nalloc w)) as [->|Hne].
    + rewrite lookup_insert_eq. split; eauto.
    + rewrite lookup_insert_ne by done. split; [|by left].
      by intros [?|?].
  - intros a. destruct (decide (a = nalloc w)) as [->|Hne]; [lia|].
    rewrite lookup_insert_ne by done. intros H%Hfresh. lia.
  - intros a c. destruct (decide (a = nalloc w)) as [->|Hne].
    + rewrite lookup_insert_eq. intros [= <-]. simpl.
      split; [done|]. apply Z.setbit_eq. lia.
    + rewrite lookup_insert_ne by done. intros [Hr Hb]%Hheld.
      split; [done|]. rewrite Z.setbit_eqb by lia. rewrite Hb.
      apply orb_true_r.
  - intros a b ca cb.
    destruct (decide (a = nalloc w)) as [->|Ha];
      destruct (decide (b = nalloc w)) as [->|Hb]; [done| | |].
    + rewrite lookup_insert_eq, lookup_insert_ne by done.
      intros [= <-] [_ Hbit]%Hheld. simpl. intros E. congruence.
    + rewrite lookup_insert_eq, lookup_insert_ne by done.
      intros [_ Hbit]%Hheld [= <-]. simpl. intros E. congruence.
    + rewrite !lookup_insert_ne by done. apply Huniq.
  - intros x Hx. destruct (Z.lt_ge_cases x 0) as [Hneg|Hpos].
    { by rewrite Z.testbit_neg_r in Hx. }
    rewrite Z.setbit_eqb in Hx by lia.
    destruct (Z.eqb_spec id x) as [->|Hne].
    + eexists _, _. rewrite lookup_insert_eq. done.
    + simpl in Hx. apply Hused in Hx as (a & c & Ha & Hc).
      exists a, c. rewrite lookup_insert_ne by congruence. done.
Qed.

Lemma inv_destroy connection w :
  registry_inv MAX w ->
  registry_inv MAX (gb_connection_destroy BAD connection w).
Proof.
  intros Hinv. destruct connection as [conn|]; [|done]. simpl.
  destruct (objs w !! conn) as [c|] eqn:Hc; [|done].
  destruct Hinv as [Hnd Hlist Hfresh Hheld Huniq Hused].
  unfold ida_simple_remove. split; simpl.
  - unfold Connection.list_del. by apply list.NoDup_filter.
  - intros a. unfold Connection.list_del.
    rewrite list_elem_of_filter, Hlist.
    destruct (decide (a = conn)) as [->|Hne].
    + rewrite lookup_delete_eq. split; [by intros [? _]|by intros [? ?]].
    + rewrite lookup_delete_ne by done. split; [by intros [_ ?]|done].
  - intros a. destruct (decide (a = conn)) as [->|Hne].
    + rewrite lookup_delete_eq. by intros [? ?].
    + rewrite lookup_delete_ne by done. apply Hfresh.
  - intros a ca [Hne Ha]%lookup_delete_Some.
    destruct (Hheld _ _ Ha) as [Hr Hb]. split; [done|].
    rewrite Z.clearbit_neq; [done|]. intros E.
    apply Hne. by apply (Huniq _ _ _ _ Hc Ha).
  - intros a b ca cb [_ Ha]%lookup_delete_Some [_ Hb]%lookup_delete_Some.
    by apply Huniq.
  - intros x Hx. destruct (decide (x = hd_cport_id c)) as [->|Hne].
    { by rewrite Z.clearbit_eq in Hx. }
    rewrite Z.clearbit_neq in Hx by done.
    apply Hused in Hx as (a & ca & Ha & Hca).
    exists a, ca. split; [|done]. apply lookup_delete_Some.
    split; [|done]. intros <-. congruence.
Qed.

Lemma inv_op_id conn w :
  registry_inv MAX w -> registry_inv MAX (gb_connection_op_id_at conn w).2.
Proof.
  intros Hinv. unfold gb_connection_op_id_at.
  destruct (objs w !! conn) as [c|] eqn:Hc; [|done]. simpl.
  destruct Hinv as [Hnd Hlist Hfresh Hheld Huniq Hused].
  set (c' := set_op_cycle _ c).
  assert (Hsame : forall a x, <[conn := c']> (objs w) !! a = Some x ->
            exists y, objs w !! a = Some y /\ hd_cport_id y = hd_cport_id x).
  { intros a x. destruct (decide (a = conn)) as [->|Hne].
    - rewrite lookup_insert_eq. intros [= <-]. by exists c.
    - rewrite lookup_insert_ne by done. by exists x. }
  split; simpl.
  - done.
  - intros a. rewrite Hlist. destruct (decide (a = conn)) as [->|Hne].
    + rewrite lookup_insert_eq, Hc. split; eauto.
    + by rewrite lookup_insert_ne.
  - intros a [x (y & Hy & _)%Hsame]. apply Hfresh. eauto.
  - intros a x (y & Hy & <-)%Hsame. by apply (Hheld a).
  - intros a b xa xb (ya & Hya & <-)%Hsame (yb & Hyb & <-)%Hsame.
    by apply Huniq.
  - intros x (a & y & Ha & Hy)%Hused.
    destruct (decide (a = conn)) as [->|Hne].
    + exists conn, c'. rewrite lookup_insert_eq. split; [done|].
      subst c'. simpl. congruence.
    + exists a, y. by rewrite lookup_insert_ne.
Qed.

Lemma inv_step w w' : step MAX BAD ok w w' -> registry_inv MAX w -> registry_inv MAX w'.
Proof.
  intros [itf cp pr w0|conn w0 _|w0|conn w0].
  - apply inv_create.
  - apply inv_destroy.
  - apply inv_destroy.
  - apply inv_op_id.
Qed.

Lemma inv_reachable w : reachable MAX BAD ok w -> registry_inv MAX w.
Proof.
  unfold reachable. intros H.
  apply (rtc_ind_r (R := step MAX BAD ok) (registry_inv MAX) init inv_init);
    [|exact H].
  intros x y _ Hstep IH. by apply (inv_step x).
Qed.
End RegistryInvariant.

(** A call of the API does not change the local id of a connection
    that stays alive. *)
Lemma step_keeps_id (MAX BAD : Z) (ok : nat -> bool) (w w' : world)
    (a : nat) (c c' : gb_connection) :
  registry_inv MAX w -> step MAX BAD ok w w' ->
  live w a c -> live w' a c' -> hd_cport_id c' = hd_cport_id c.
Proof.
  intros Hinv Hstep.
  destruct Hstep as [itf cp pr w|conn w _|w|conn w];
    destruct Hinv as [_ _ Hfresh _ _ _]; intros [_ Ha] [_ Ha'].
  - unfold gb_connection_create in Ha'.
    assert (Hne : nalloc w ≠ a).
    { assert (a < nalloc w)%nat by (apply Hfresh; eauto). lia. }
    destruct (ok (nalloc w)); [|simpl in Ha'; congruence].
    destruct (hd_connection_hd_cport_id_alloc MAX zeroed (cport_id_map w))
      as [[[] c0] ida']; cbn [snd objs] in Ha'; [|congruence].
    rewrite lookup_insert_ne in Ha' by done. congruence.
  - cbn [gb_connection_destroy] in Ha'.
    destruct (objs w !! conn) as [cc|]; [|congruence].
    cbn [hd_connection_hd_cport_id_free objs] in Ha'.
    apply lookup_delete_Some in Ha' as [_ Ha']. congruence.
  - cbn [gb_connection_destroy] in Ha'. congruence.
  - unfold gb_connection_op_id_at in Ha'.
    destruct (objs w !! conn) as [cc|] eqn:Hcc; [|simpl in Ha'; congruence].
    cbn [gb_connection_op_id snd objs] in Ha'.
    destruct (decide (conn = a)) as [->|Hne].
    + rewrite lookup_insert_eq in Ha'. injection Ha' as <-. simpl. congruence.
    + rewrite lookup_insert_ne in Ha' by done. congruence.
Qed.

(** C9: in every state reached by creating and destroying
    connections on a host, no two live connections hold the same
    local cport id; an id is marked allocated exactly while a live
    connection holds it; a connection keeps its id as long as it is
    alive; and destroying a live connection clears its id in the map
    and ends the connection.  A connection is alive, with its id
    marked, until it is itself destroyed: destroying a connection
    leaves every other live connection alive and unchanged and clears
    no other id; creating a connection leaves the live connections
    and the ids marked as they are and gives the new connection an id
    that was not marked; handing out an operation id leaves the map
    and the local ids as they are. *)
Theorem local_cport_id_unique (MAX BAD : Z) (ok : nat -> bool)
    (HMAX : MAX <= 65536) (w : world) :
  reachable MAX BAD ok w ->
  (forall a b ca cb, live w a ca -> live w b cb ->
     hd_cport_id ca = hd_cport_id cb -> a = b) /\
  (forall id, Z.testbit (cport_id_map w) id = true <->
     exists a c, live w a c /\ hd_cport_id c = id) /\
  (forall w' a c c', step MAX BAD ok w w' -> live w a c -> live w' a c' ->
     hd_cport_id c' = hd_cport_id c) /\
  (forall a c, live w a c ->
     let w' := gb_connection_destroy BAD (Some a) w in
     Z.testbit (cport_id_map w') (hd_cport_id c) = false /\
     forall c', ~ live w' a c') /\
  (forall a c, live w a c ->
     let w' := gb_connection_destroy BAD (Some a) w in
     (forall b cb, b <> a -> live w b cb ->
        live w' b cb /\
        Z.testbit (cport_id_map w') (hd_cport_id cb) = true) /\
     (forall b cb, live w' b cb -> b <> a /\ live w b cb) /\
     (forall id, id <> hd_cport_id c ->
        Z.testbit (cport_id_map w') id = Z.testbit (cport_id_map w) id)) /\
  (forall itf cport_id protocol_,
     let r := gb_connection_create MAX ok itf cport_id protocol_ w in
     (forall b cb, live w b cb -> live r.2 b cb) /\
     (forall id, Z.testbit (cport_id_map w) id = true ->
        Z.testbit (cport_id_map r.2) id = true) /\
     (forall conn, r.1 = Some conn ->
        (forall c0, ~ live w conn c0) /\
        exists c, live r.2 conn c /\
          Z.testbit (cport_id_map w) (hd_cport_id c) = false /\
          forall id, id <> hd_cport_id c ->
            Z.testbit (cport_id_map r.2) id = Z.testbit (cport_id_map w) id) /\
     (forall b cb, live r.2 b cb -> r.1 = Some b \/ live w b cb)) /\
  (forall conn,
     let w' := (gb_connection_op_id_at conn w).2 in
     cport_id_map w' = cport_id_map w /\
     (forall b cb, live w b cb ->
        exists cb', live w' b cb' /\ hd_cport_id cb' = hd_cport_id cb) /\
     (forall b cb', live w' b cb' ->
        exists cb, live w b cb /\ hd_cport_id cb' = hd_cport_id cb)).
Proof.
  intros Hr. pose proof (inv_reachable MAX BAD ok HMAX w Hr) as Hinv.
  pose proof (fun w' a c c' => step_keeps_id MAX BAD ok w w' a c c' Hinv) as Hkeep.
  destruct Hinv as [Hnd Hlist Hfresh Hheld Huniq Hused].
  split; [|split; [|split; [exact Hkeep|split; [|split; [|split]]]]].
  - intros a b ca cb [_ Ha] [_ Hb]. by apply Huniq.
  - intros id. split.
    + intros (a & c & Ha & Hc)%Hused. exists a, c. split; [|done].
      split; [|done]. apply Hlist. eauto.
    + intros (a & c & [_ Ha] & <-). by apply (Hheld a).
  - intros a c [_ Ha]. unfold live. simpl. rewrite Ha. simpl. split.
    + apply Z.clearbit_eq.
    + intros c' [_ Hc']. by rewrite lookup_delete_eq in Hc'.
  - intros a c [_ Ha]. unfold live. simpl. rewrite Ha. simpl.
    unfold ida_simple_remove, Connection.list_del. split; [|split].
    + intros b cb Hne [Hin Hb]. split.
      * split; [by apply list_elem_of_filter|].
        by rewrite lookup_delete_ne by congruence.
      * rewrite Z.clearbit_neq; [by apply (Hheld b)|].
        intros E. apply Hne. symmetry. by apply (Huniq _ _ _ _ Ha Hb).
    + intros b cb [[Hne Hin]%list_elem_of_filter [_ Hb]%lookup_delete_Some].
      done.
    + intros id Hid. apply Z.clearbit_neq. congruence.
  - intros itf cp pr. unfold gb_connection_create.
    destruct (ok (nalloc w));
      [|cbn [fst snd]; unfold live; cbn [hd_connections objs cport_id_map];
        split; [done|]; split; [done|]; split; [done|]; by right].
    destruct (alloc_cases MAX zeroed (cport_id_map w) HMAX)
      as [(id & Hlf & ->)|(Hex & ->)];
      [|cbn [fst snd]; unfold live; cbn [hd_connections objs cport_id_map];
        split; [done|]; split; [done|]; split; [done|]; by right].
    destruct Hlf as (Hid & Hfree & _).
    assert (Hnew : objs w !! nalloc w = None).
    { destruct (objs w !! nalloc w) eqn:E; [|done].
      assert (nalloc w < nalloc w)%nat by (apply Hfresh; eauto). lia. }
    cbn [fst snd]. unfold live, Connection.list_add_tail.
    cbn [hd_connections objs cport_id_map hd_cport_id set_hd_cport_id].
    split; [|split; [|split]].
    + intros b cb [Hin Hb]. split; [apply elem_of_app; by left|].
      rewrite lookup_insert_ne; [done|]. intros <-. congruence.
    + intros x Hx. destruct (Z.lt_ge_cases x 0) as [Hneg|Hpos].
      { by rewrite Z.testbit_neg_r in Hx. }
      rewrite Z.setbit_eqb by lia. rewrite Hx. apply orb_true_r.
    + intros conn [= <-]. split; [intros c0 [_ Hc0]; congruence|].
      eexists. split; [split|].
      * apply elem_of_app. right. by apply list_elem_of_singleton.
      * apply lookup_insert_eq.
      * cbn [hd_cport_id]. split; [done|].
        intros x Hx. apply Z.setbit_neq; [lia|congruence].
    + intros b cb [Hin Hb]. destruct (decide (b = nalloc w)) as [->|Hne].
      * by left.
      * right. rewrite lookup_insert_ne in Hb by done. split; [|done].
        apply Hlist. eauto.
  - intros conn. unfold gb_connection_op_id_at.
    destruct (objs w !! conn) as [c|] eqn:Hc;
      [|cbn [snd]; split; [done|]; split; intros b cb Hb; by exists cb].
    cbn [gb_connection_op_id snd]. unfold live.
    cbn [hd_connections objs cport_id_map]. split; [done|]. split.
    + intros b cb [Hin Hb]. destruct (decide (b = conn)) as [->|Hne].
      * eexists. split; [split; [done|apply lookup_insert_eq]|].
        simpl. congruence.
      * exists cb. by rewrite lookup_insert_ne.
    + intros b cb' [Hin Hb]. destruct (decide (b = conn)) as [->|Hne].
      * rewrite lookup_insert_eq in Hb. injection Hb as <-.
        exists c. done.
      * rewrite lookup_insert_ne in Hb by done. by exists cb'.
Qed.

Lemma local_cport_id_unique_witness :
  8 <= 65536 /\ reachable 8 255 served two_connections /\
  (forall a b ca cb, live two_connections a ca -> live two_connections b cb ->
     hd_cport_id ca = hd_cport_id cb -> a = b) /\
  exists c0 c1,
    live two_connections 0%nat c0 /\ hd_cport_id c0 = 0 /\
    live two_connections 1%nat c1 /\ hd_cport_id c1 = 1 /\
    live (gb_connection_destroy 255 (Some 0%nat) two_connections) 1%nat c1 /\
    Z.testbit
      (cport_id_map (gb_connection_destroy 255 (Some 0%nat) two_connections)) 1
    = true.
Proof.
  assert (Hr : reachable 8 255 served two_connections).
  { eapply rtc_l; [apply (step_create 8 255 served 0%nat 3 0)|].
    apply rtc_once. apply (step_create 8 255 served 1%nat 5 0). }
  pose proof (local_cport_id_unique 8 255 served ltac:(lia) _ Hr)
    as (Huniq & _ & _ & _ & Hdestroy & _).
  split; [lia|]. split; [exact Hr|]. split; [exact Huniq|].
  destruct (objs two_connections !! 0%nat) as [c0|] eqn:H0; [|discriminate H0].
  destruct (objs two_connections !! 1%nat) as [c1|] eqn:H1; [|discriminate H1].
  assert (L0 : live two_connections 0%nat c0).
  { split; [|exact H0]. vm_compute. left. }
  assert (L1 : live two_connections 1%nat c1).
  { split; [|exact H1]. vm_compute. right. left. }
  assert (E0 : hd_cport_id c0 = 0) by (injection H0 as <-; reflexivity).
  assert (E1 : hd_cport_id c1 = 1) by (injection H1 as <-; reflexivity).
  destruct (proj1 (Hdestroy 0%nat c0 L0) 1%nat c1 ltac:(discriminate) L1)
    as [Hl Hb].
  rewrite E1 in Hb.
  exists c0, c1. split; [exact L0|]. split; [exact E0|]. split; [exact L1|].
  split; [exact E1|]. split; [exact Hl|exact Hb].
Defined.

(** C10: the connection [gb_connection_create] returns has its
    counter at zero, so the first id it hands out is 1; the ids of
    the first 65534 calls are 1, 2, ..., none of them 0, and the
    65535th call is the first to return 0. *)
Theorem first_op_id_is_one (MAX : Z) (ok : nat -> bool)
    (itf : nat) (cport_id protocol_ : Z) (w w' : world) (conn : nat) :
  gb_connection_create MAX ok itf cport_id protocol_ w = (Some conn, w') ->
  exists c, objs w' !! conn = Some c /\ op_cycle c = 0 /\
    (gb_connection_op_id c).1 = 1 /\
    (forall n : nat, Z.of_nat n <= 65534 ->
       gb_connection_op_ids n c = seqZ 1 (Z.of_nat n) /\
       0 ∉ gb_connection_op_ids n c) /\
    gb_connection_op_ids (Z.to_nat 65535) c !! Z.to_nat 65534 = Some 0.
Proof.
  unfold gb_connection_create. intros H.
  destruct (ok (nalloc w)); [|done].
  destruct (hd_connection_hd_cport_id_alloc MAX zeroed (cport_id_map w))
    as [[[] c0] ida'] eqn:E; [|done].
  injection H as <- <-. cbn [objs]. rewrite lookup_insert_eq.
  eexists. split; [reflexivity|]. split; [reflexivity|].
  split; [reflexivity|]. split.
  - intros n Hn. rewrite op_ids_fresh by done. split; [done|].
    intros [? ?]%elem_of_seqZ. lia.
  - rewrite op_ids_lookup by lia. cbn [op_cycle]. rewrite Z2Nat.id by lia.
  reflexivity.
Qed.

Lemma first_op_id_is_one_witness :
  one_connection = (Some 0%nat, one_connection.2) /\
  exists c, objs one_connection.2 !! 0%nat = Some c /\
    (gb_connection_op_id c).1 = 1.
Proof.
  assert (Hr : one_connection = (Some 0%nat, one_connection.2)) by reflexivity.
  split; [exact Hr|].
  destruct (first_op_id_is_one 8 served 0 3 0 init _ 0 Hr)
    as (c & Hc & _ & H1 & _).
  exists c. split; [exact Hc | exact H1].
Defined.

End ConnectionFacts.

Module ManifestFacts.
Import Kernel Manifest.
Local Open Scope kernel_scope.

(** *** The example scenario *)

(** C2 as stated fails: with the spec's sizes the module descriptor
    is shorter than [struct greybus_descriptor_module] and the parse
    returns the null pointer; handed over with its real length of 24
    bytes, the buffer fails the envelope check. *)
Lemma scenario_rejected :
  gb_manifest_parse spec_wire served scenario 23 boot
  = (Some None,
     {| manifest_descs := []; allocated := []; nalloc := 0;
        klog := [module_descriptor_too_small 15] |}) /\
  gb_manifest_parse spec_wire served scenario 24 boot
  = (Some None,
     {| manifest_descs := []; allocated := []; nalloc := 0;
        klog := [manifest_size_mismatch 24 23] |}).
Proof. split; vm_compute; reflexivity. Qed.

(** C2, amended: with envelope size 24 and descriptor size 20 the
    parse succeeds and yields the module record of the scenario,
    whatever the codes of the Device and Class types. *)
Theorem scenario_sized_parsed (device class : Z) :
  gb_manifest_parse (spec_layout device class) served scenario_sized 24 boot
  = (Some (Some {| gmod_addr := 1; vendor := 0x1234; product := 0x5678;
                   version := 1; serial_number := 0;
                   vendor_string := NULL; product_string := NULL |}),
     {| manifest_descs := []; allocated := [1%nat]; nalloc := 2;
        klog := [] |}).
Proof. vm_compute. reflexivity. Qed.

(** *** Reading the buffer *)

Lemma byte_at_range (buf : list byte) (off : Z) : 0 <= byte_at buf off < 256.
Proof.
  unfold byte_at. pose proof (Byte.to_N_bounded (nth (Z.to_nat off) buf x00)).
  lia.
Qed.

Lemma le_at_range (buf : list byte) (off : Z) (w : nat) :
  0 <= le_at buf off w < 256 ^ Z.of_nat w.
Proof.
  revert off. induction w as [|w IH]; intros off.
  - change (le_at buf off 0) with 0. change (Z.of_nat 0) with 0.
    rewrite Z.pow_0_r. lia.
  - change (le_at buf off (S w))
      with (byte_at buf off + 256 * le_at buf (off + 1) w).
    pose proof (byte_at_range buf off). specialize (IH (off + 1)).
    rewrite Nat2Z.inj_succ, Z.pow_succ_r by lia. lia.
Qed.

Lemma le16_range (buf : list byte) (off : Z) : 0 <= le_at buf off 2 < 65536.
Proof. apply (le_at_range buf off 2). Qed.

(** *** The descriptor scanner *)

Section Scanner.
Variable L : wire_layout.
Variable ok : nat -> bool.
Variable buf : list byte.

Lemma check_type_frame desc desc_size s b s' :
  check_type L buf desc desc_size s = (b, s') ->
  manifest_descs s' = manifest_descs s /\ allocated s' = allocated s /\
  nalloc s' = nalloc s.
Proof.
  unfold check_type. run. intros H.
  repeat case_match; simplify_eq; done.
Qed.

(** [identify_descriptor] returns a negative errno and leaves the
    index alone, or returns the declared size, which fits in the
    bytes that remain, and appends one entry for it. *)
Lemma identify_descriptor_cases desc size s r s' :
  identify_descriptor L ok buf desc size s = (r, s') ->
  (r < 0 /\ manifest_descs s' = manifest_descs s /\
   allocated s' = allocated s) \/
  (r = le_at buf (desc + header_size_off L) 2 /\ 0 <= r <= size /\
   manifest_descs s' =
     manifest_descs s ++
       [{| md_links := nalloc s; md_size := r; md_data := desc;
           md_type := read buf desc (header_type_f L) |}] /\
   allocated s' = nalloc s :: allocated s /\ nalloc s' = S (nalloc s)).
Proof.
  unfold identify_descriptor. intros H.
  pose proof (le16_range buf (desc + header_size_off L)) as Hr.
  destruct (size <? sizeof_descriptor_header L).
  { run. simplify_eq. left. unfold EINVAL. done. }
  destruct (le_at buf (desc + header_size_off L) 2 >? size) eqn:Hbig.
  { run. simplify_eq. left. unfold EINVAL. done. }
  unfold bind at 1 in H.
  destruct (check_type L buf desc _ s) as [b s1] eqn:Hct.
  apply check_type_frame in Hct as (Hd & Ha & Hn).
  destruct b; run.
  - destruct (ok (nalloc s1)) eqn:Hok; simplify_eq; simpl.
    + right. rewrite Hd, Ha, Hn. split; [done|]. split; [lia|done].
    + left. unfold ENOMEM. done.
  - simplify_eq. left. unfold EINVAL. done.
Qed.

Lemma identify_descriptor_positive desc size s r s' :
  identify_descriptor L ok buf desc size s = (r, s') ->
  0 < r -> r <= size.
Proof.
  intros H Hr. apply identify_descriptor_cases in H as [(? & _)|(_ & ? & _)]; lia.
Qed.

Lemma identify_descriptor_zero desc size s :
  le_at buf (desc + header_size_off L) 2 = 0 ->
  (identify_descriptor L ok buf desc size s).1 <= 0.
Proof.
  intros Hz. destruct (identify_descriptor L ok buf desc size s) as [r s'] eqn:E.
  apply identify_descriptor_cases in E as [(? & _)|(Hr & _)]; cbn [fst];
    [lia | rewrite Hr, Hz; lia].
Qed.

(** The loop ends within [size] iterations. *)
Lemma scan_descriptors_total fuel desc size s :
  0 <= size < 2 ^ 64 -> size <= Z.of_nat fuel ->
  exists b s', scan_descriptors L ok buf fuel desc size s = (Some b, s').
Proof.
  revert desc size s. induction fuel as [|fuel IH]; intros desc size s Hs Hf.
  - assert (size = 0) as -> by lia. simpl. run. eauto.
  - cbn [scan_descriptors]. destruct (size =? 0) eqn:E0; [run; eauto|].
    unfold bind at 1.
    destruct (identify_descriptor L ok buf desc size s) as [r s1] eqn:Eid.
    destruct (r <=? 0) eqn:Er.
    + destruct (r =? 0); run; eauto.
    + pose proof (identify_descriptor_positive _ _ _ _ _ Eid).
      apply IH; unfold size_t, wrap; rewrite Z.mod_small; lia.
Qed.

(** Every entry added by the loop accounts for at least one byte. *)
Lemma scan_descriptors_length fuel desc size s r s' :
  0 <= size < 2 ^ 64 ->
  scan_descriptors L ok buf fuel desc size s = (r, s') ->
  Z.of_nat (length (manifest_descs s'))
  <= Z.of_nat (length (manifest_descs s)) + size.
Proof.
  revert desc size s. induction fuel as [|fuel IH]; intros desc size s Hs.
  - simpl. destruct (size =? 0); run; intros; simplify_eq; lia.
  - cbn [scan_descriptors]. destruct (size =? 0) eqn:E0.
    { run. intros; simplify_eq; lia. }
    unfold bind at 1.
    destruct (identify_descriptor L ok buf desc size s) as [d s1] eqn:Eid.
    apply identify_descriptor_cases in Eid.
    destruct (d <=? 0) eqn:Er.
    + assert (Z.of_nat (length (manifest_descs s1))
              <= Z.of_nat (length (manifest_descs s)) + 1).
      { destruct Eid as [(_ & -> & _)|(_ & _ & -> & _)];
          [lia | rewrite length_app; simpl; lia]. }
      destruct (d =? 0); run; intros; simplify_eq; simpl; lia.
    + destruct Eid as [(? & _)|(_ & Hd & Hl & _)]; [lia|].
      intros H. apply IH in H.
      * rewrite Hl, length_app in H. simpl in H.
        unfold size_t, wrap in H. rewrite Z.mod_small in H; lia.
      * unfold size_t, wrap. rewrite Z.mod_small; lia.
Qed.
End Scanner.

(** *** The manifest driver *)

Section Driver.
Variable L : wire_layout.
Variable ok : nat -> bool.
Variable buf : list byte.

Lemma parse_after_envelope size s :
  envelope_ok L buf size = true ->
  gb_manifest_parse L ok buf size s
  = (scanned <- scan_manifest L ok buf size ;; after_scan L ok buf scanned) s.
Proof.
  unfold envelope_ok, gb_manifest_parse.
  intros [[H1 H2]%andb_prop H3]%andb_prop.
  apply negb_true_iff in H1, H3. rewrite H1, H2, H3. simpl.
  unfold scan_manifest, bind.
  destruct (scan_descriptors _ _ _ _ _ _ s) as [[[]|] s1]; reflexivity.
Qed.

Lemma parse_envelope_rejected size s :
  envelope_ok L buf size = false ->
  exists m, gb_manifest_parse L ok buf size s = (Some None, (pr m s).2).
Proof.
  unfold envelope_ok, gb_manifest_parse. intros H.
  destruct (size <=? sizeof_manifest_header L); [eexists; reflexivity|].
  destruct (le_at buf (manifest_size_off L) 2 =? size); [|eexists; reflexivity].
  destruct (le_at buf (version_major_off L) 1 >? GREYBUS_VERSION_MAJOR L);
    [eexists; reflexivity|done].
Qed.

(** Releasing the whole index leaves it empty and allocates nothing. *)
Lemma release_each_spec l s :
  (forall e, e ∈ manifest_descs s -> md_links e ∈ map md_links l) ->
  manifest_descs (release_each l s).2 = [] /\
  allocated (release_each l s).2 ⊆ allocated s /\
  klog (release_each l s).2 = klog s /\
  (release_each l s).1 = tt.
Proof.
  revert s. induction l as [|d l IH]; intros s Hs.
  - simpl. run. split; [|done].
    destruct (manifest_descs s) as [|e ?]; [done|].
    specialize (Hs e). rewrite elem_of_nil in Hs. exfalso. apply Hs. by left.
  - cbn [release_each]. unfold release_manifest_descriptor. run.
    match goal with |- context [release_each l ?s1] => specialize (IH s1) end.
    simpl in IH. destruct IH as (Hd & Ha & Hl & Hr).
    + intros e [Hne He]%list_elem_of_filter. specialize (Hs e He).
      simpl in Hs. apply elem_of_cons in Hs as [Heq|Hin]; [congruence|done].
    + split; [done|]. split; [|done].
      etrans; [exact Ha|]. apply list_subseteq_filter.
Qed.

Lemma release_manifest_descriptors_spec s :
  manifest_descs (release_manifest_descriptors s).2 = [] /\
  allocated (release_manifest_descriptors s).2 ⊆ allocated s /\
  klog (release_manifest_descriptors s).2 = klog s.
Proof.
  unfold release_manifest_descriptors. run.
  destruct (release_each_spec (manifest_descs s) s) as (? & ? & ? & _);
    [|done].
  intros e He. by apply list_elem_of_fmap_2.
Qed.

(** The counter of module descriptors does not wrap on an index of
    fewer than 2^32 entries. *)
Lemma find_module_fold l found module_desc :
  0 <= found -> found + Z.of_nat (length l) < 2 ^ 32 ->
  (fold_left (count_module L) l (found, module_desc)).1
  = found + module_count L l.
Proof.
  revert found module_desc. unfold module_count.
  induction l as [|d l IH]; intros found module_desc H0 Hlen.
  - simpl. lia.
  - simpl in Hlen. cbn [fold_left count_module].
    destruct (Z.eqb_spec (md_type d) (GREYBUS_TYPE_MODULE L)) as [E|E].
    + rewrite filter_cons_True by done.
      assert (u32 (found + 1) = found + 1) as ->.
      { unfold u32, wrap. rewrite Z.mod_small; lia. }
      rewrite IH by lia. simpl length. lia.
    + rewrite filter_cons_False by done. rewrite IH by lia. done.
Qed.

Lemma find_module_count l :
  Z.of_nat (length l) < 2 ^ 32 -> (find_module L l).1 = module_count L l.
Proof.
  intros H. unfold find_module. rewrite find_module_fold by lia. lia.
Qed.

(** When the counter ends at a value other than zero, [module_desc]
    is set, to a module descriptor of the index: the parser never
    hands a null pointer to [gb_manifest_parse_module]. *)
Lemma find_module_fold_desc l found module_desc :
  0 <= found -> found + Z.of_nat (length l) < 2 ^ 32 ->
  let r := fold_left (count_module L) l (found, module_desc) in
  (found = 0 -> r.1 <> 0 ->
   exists d, r.2 = Some d /\ d ∈ l /\ md_type d = GREYBUS_TYPE_MODULE L) /\
  (found <> 0 -> r.2 = module_desc).
Proof.
  revert found module_desc.
  induction l as [|d l IH]; intros found module_desc H0 Hlen.
  - simpl. split; [intros -> ?; done|done].
  - simpl in Hlen. cbn [fold_left count_module].
    destruct (Z.eqb_spec (md_type d) (GREYBUS_TYPE_MODULE L)) as [E|E].
    + assert (u32 (found + 1) = found + 1) as ->.
      { unfold u32, wrap. rewrite Z.mod_small; lia. }
      destruct (IH (found + 1)
                  (if found =? 0 then Some d else module_desc)) as [_ IH2];
        [lia..|].
      split.
      * intros -> _. exists d. rewrite IH2 by lia. simpl.
        split; [done|]. split; [by left|done].
      * intros Hne. rewrite IH2 by lia.
        destruct (Z.eqb_spec found 0); [done|done].
    + destruct (IH found module_desc) as [IH1 IH2]; [lia..|].
      split; [|done].
      intros Hf Hr. destruct (IH1 Hf Hr) as (d' & ? & ? & ?).
      exists d'. split; [done|]. split; [by right|done].
Qed.

Lemma find_module_selects l :
  Z.of_nat (length l) < 2 ^ 32 -> (find_module L l).1 = 1 ->
  exists d, (find_module L l).2 = Some d /\ d ∈ l /\
            md_type d = GREYBUS_TYPE_MODULE L.
Proof.
  intros Hlen H1. unfold find_module in *.
  apply (find_module_fold_desc l 0 None); [lia|lia|done|lia].
Qed.
End Driver.

(** Whatever the layout, a first descriptor of the module type whose
    declared size is below [sizeof(struct greybus_descriptor_module)]
    makes the parser return the null pointer. *)
Lemma short_module_descriptor_rejected (L : wire_layout) (ok : nat -> bool)
    (buf : list byte) (size : Z) (s : kstate) :
  0 <= sizeof_manifest_header L ->
  read buf (sizeof_manifest_header L) (header_type_f L) = GREYBUS_TYPE_MODULE L ->
  le_at buf (sizeof_manifest_header L + header_size_off L) 2
    < sizeof_descriptor_module L ->
  exists s', gb_manifest_parse L ok buf size s = (Some None, s').
Proof.
  intros Hh Htype Hsmall. destruct (envelope_ok L buf size) eqn:Henv.
  2:{ destruct (parse_envelope_rejected L ok buf size s Henv) as (m & ->).
      eauto. }
  rewrite parse_after_envelope by done.
  unfold envelope_ok in Henv.
  apply andb_prop in Henv as [[H1 H2]%andb_prop _].
  apply negb_true_iff, Z.leb_gt in H1. apply Z.eqb_eq in H2.
  pose proof (le16_range buf (manifest_size_off L)) as Hr.
  assert (Hsize : size_t (size - sizeof_manifest_header L)
                  = size - sizeof_manifest_header L).
  { unfold size_t, wrap. rewrite Z.mod_small; lia. }
  unfold bind at 1, scan_manifest. rewrite Hsize.
  destruct (Z.to_nat (size - sizeof_manifest_header L)) as [|fuel] eqn:Hfuel;
    [lia|].
  cbn [scan_descriptors].
  destruct (Z.eqb_spec (size - sizeof_manifest_header L) 0) as [|_]; [lia|].
  assert (Hid : forall st, exists st',
            identify_descriptor L ok buf (sizeof_manifest_header L)
              (size - sizeof_manifest_header L) st = (- EINVAL, st')).
  { intros st. unfold identify_descriptor.
    destruct (_ <? sizeof_descriptor_header L); [run; eauto|].
    destruct (_ >? _); [run; eauto|].
    unfold check_type. rewrite Htype, Z.eqb_refl.
    destruct (Z.ltb_spec (le_at buf (sizeof_manifest_header L + header_size_off L) 2)
                (sizeof_descriptor_module L)); [|lia].
    run. eauto. }
  destruct (Hid s) as (s1 & Heq). unfold bind at 1. rewrite Heq.
  change (- EINVAL <=? 0) with true. change (- EINVAL =? 0) with false.
  cbn iota. unfold bind, ret. simpl. unfold bind, ret.
  destruct (release_manifest_descriptors s1). eauto.
Qed.

(** A manifest with a CPort descriptor and no module descriptor. *)
Example cport_only_rejected :
  gb_manifest_parse spec_wire served cport_only 12 boot
  = (Some None,
     {| manifest_descs := []; allocated := []; nalloc := 1;
        klog := [manifest_must_have_1_module 0] |}).
Proof. vm_compute. reflexivity. Qed.

(** A manifest whose module names a vendor string that is present:
    the string is copied and both descriptors leave the index. *)
Example vendor_present_parsed :
  gb_manifest_parse spec_wire served vendor_present 32 boot
  = (Some (Some {| gmod_addr := 2; vendor := 1; product := 2; version := 3;
                   serial_number := 0;
                   vendor_string := PTR 3 ["a"%byte; x00];
                   product_string := NULL |}),
     {| manifest_descs := []; allocated := [3%nat; 2%nat]; nalloc := 4;
        klog := [] |}).
Proof. vm_compute. reflexivity. Qed.

(** C4: when the size declared in the envelope differs from the
    length handed to [gb_manifest_parse], the parser returns the null
    pointer after one message and touches nothing else; for a buffer
    longer than the envelope header the message is the size mismatch,
    for a shorter one the earlier check reports a short manifest. *)
Theorem size_mismatch_rejected (L : wire_layout) (ok : nat -> bool)
    (buf : list byte) (size : Z) (s : kstate) :
  le_at buf (manifest_size_off L) 2 <> size ->
  exists m,
    gb_manifest_parse L ok buf size s = (Some None, (pr m s).2) /\
    (sizeof_manifest_header L < size ->
     m = manifest_size_mismatch size (le_at buf (manifest_size_off L) 2)) /\
    (size <= sizeof_manifest_header L -> m = short_manifest size).
Proof.
  intros Hne. unfold gb_manifest_parse.
  destruct (Z.leb_spec size (sizeof_manifest_header L)) as [Hshort|Hlong].
  { eexists. split; [reflexivity|]. split; [lia|done]. }
  destruct (Z.eqb_spec (le_at buf (manifest_size_off L) 2) size) as [|_];
    [done|].
  eexists. split; [reflexivity|]. split; [done|lia].
Qed.

Lemma size_mismatch_rejected_witness :
  le_at scenario (manifest_size_off spec_wire) 2 <> 24 /\
  exists m,
    gb_manifest_parse spec_wire served scenario 24 boot
    = (Some None, (pr m boot).2).
Proof.
  assert (H : le_at scenario (manifest_size_off spec_wire) 2 <> 24)
    by (vm_compute; discriminate).
  split; [exact H|].
  destruct (size_mismatch_rejected spec_wire served scenario 24 boot H)
    as (m & Hm & _).
  exists m. exact Hm.
Defined.

(** C5: [gb_manifest_parse] returns on every buffer; a descriptor
    whose declared size is zero makes the loop leave through
    [out_err], and a loop that leaves so makes the parser return the
    null pointer; a descriptor that was identified takes at least
    one and at most all of the bytes that remain. *)
Theorem descriptor_scan_terminates (L : wire_layout) (ok : nat -> bool)
    (buf : list byte) :
  (forall size s, exists r s',
     gb_manifest_parse L ok buf size s = (Some r, s')) /\
  (forall fuel desc size s, size <> 0 ->
     le_at buf (desc + header_size_off L) 2 = 0 ->
     exists s', scan_descriptors L ok buf (S fuel) desc size s = (Some false, s')) /\
  (forall size s s1, envelope_ok L buf size = true ->
     scan_manifest L ok buf size s = (Some false, s1) ->
     exists s', gb_manifest_parse L ok buf size s = (Some None, s')) /\
  (forall desc size s r s',
     identify_descriptor L ok buf desc size s = (r, s') -> 0 < r ->
     0 <= size - r < size).
Proof.
  split; [|split; [|split]].
  - intros size s. destruct (envelope_ok L buf size) eqn:Henv.
    + rewrite parse_after_envelope by done. unfold bind.
      destruct (scan_descriptors_total L ok buf
                  (Z.to_nat (size_t (size - sizeof_manifest_header L)))
                  (sizeof_manifest_header L)
                  (size_t (size - sizeof_manifest_header L)) s)
        as (b & s1 & Hscan).
      { unfold size_t, wrap. apply Z.mod_pos_bound. lia. }
      { lia. }
      unfold scan_manifest. rewrite Hscan.
      destruct b; simpl.
      * unfold bind, get_descs.
        destruct (find_module L (manifest_descs s1)) as [found module_desc].
        destruct (negb (found =? 1)).
        { unfold bind, ret. repeat case_match. simplify_eq. eauto. }
        unfold bind, ret. repeat case_match; simplify_eq; eauto.
      * unfold bind, ret. case_match. eauto.
    + destruct (parse_envelope_rejected L ok buf size s Henv) as (m & ->). eauto.
  - intros fuel desc size s Hs Hz. cbn [scan_descriptors].
    destruct (Z.eqb_spec size 0) as [|_]; [done|].
    pose proof (identify_descriptor_zero L ok buf desc size s Hz) as Hr.
    unfold bind at 1.
    destruct (identify_descriptor L ok buf desc size s) as [r s1]. simpl in Hr.
    destruct (Z.leb_spec r 0); [|lia].
    unfold bind, ret. case_match. eauto.
  - intros size s s1 Henv Hscan. rewrite parse_after_envelope by done.
    unfold bind at 1. rewrite Hscan. simpl.
    unfold bind, ret. case_match. eauto.
  - intros desc size s r s' Hid Hr.
    pose proof (identify_descriptor_positive _ _ _ _ _ _ _ _ Hid Hr). lia.
Qed.

Lemma descriptor_scan_terminates_witness :
  8 - 4 <> 0 /\ le_at zero_sized (4 + header_size_off spec_wire) 2 = 0 /\
  exists s', scan_descriptors spec_wire served zero_sized 4 4 4 boot
             = (Some false, s').
Proof.
  assert (H1 : 8 - 4 <> 0) by lia.
  assert (H2 : le_at zero_sized (4 + header_size_off spec_wire) 2 = 0)
    by reflexivity.
  split; [exact H1|]. split; [exact H2|].
  exact (proj1 (proj2 (descriptor_scan_terminates spec_wire served zero_sized))
           3%nat 4 (8 - 4) boot H1 H2).
Defined.

Lemma module_count_checked (L : wire_layout) (ok : nat -> bool)
    (buf : list byte) (size : Z) (s s1 : kstate) :
  0 <= sizeof_manifest_header L ->
  manifest_descs s = [] ->
  envelope_ok L buf size = true ->
  scan_manifest L ok buf size s = (Some true, s1) ->
  module_count L (manifest_descs s1) <> 1 ->
  exists s',
    gb_manifest_parse L ok buf size s = (Some None, s') /\
    klog s' = klog s1 ++
      [manifest_must_have_1_module (module_count L (manifest_descs s1))] /\
    manifest_descs s' = [].
Proof.
  intros Hh Hempty Henv Hscan Hcount.
  rewrite parse_after_envelope by done. unfold bind at 1. rewrite Hscan.
  assert (Hlen : Z.of_nat (length (manifest_descs s1)) < 2 ^ 32).
  { unfold scan_manifest in Hscan.
    apply scan_descriptors_length in Hscan.
    2:{ unfold size_t, wrap. apply Z.mod_pos_bound. lia. }
    rewrite Hempty in Hscan. simpl in Hscan.
    unfold envelope_ok in Henv.
    apply andb_prop in Henv as [[H1 H2]%andb_prop _].
    apply negb_true_iff, Z.leb_gt in H1. apply Z.eqb_eq in H2.
    pose proof (le16_range buf (manifest_size_off L)).
    unfold size_t, wrap in Hscan. rewrite Z.mod_small in Hscan by lia. lia. }
  simpl. unfold bind at 1, get_descs.
  pose proof (find_module_count L _ Hlen) as Hfound.
  destruct (find_module L (manifest_descs s1)) as [found module_desc].
  simpl in Hfound. subst found.
  destruct (Z.eqb_spec (module_count L (manifest_descs s1)) 1) as [|_]; [done|].
  simpl. unfold bind at 1. simpl. unfold bind at 1.
  match goal with |- context [release_manifest_descriptors ?st] =>
    destruct (release_manifest_descriptors_spec st) as (Hd & _ & Hl);
    destruct (release_manifest_descriptors st) as [[] s2] end.
  simpl in *. eexists. split; [reflexivity|]. done.
Qed.

(** Every call of the parser that starts with an empty index ends with
    an empty index. *)
Lemma parse_leaves_index_empty (L : wire_layout) (ok : nat -> bool)
    (buf : list byte) (size : Z) (s : kstate) :
  manifest_descs s = [] ->
  manifest_descs (gb_manifest_parse L ok buf size s).2 = [].
Proof.
  intros Hempty. destruct (envelope_ok L buf size) eqn:Henv.
  2:{ destruct (parse_envelope_rejected L ok buf size s Henv) as (m & ->).
      done. }
  rewrite parse_after_envelope by done. unfold bind at 1.
  destruct (scan_descriptors_total L ok buf
              (Z.to_nat (size_t (size - sizeof_manifest_header L)))
              (sizeof_manifest_header L)
              (size_t (size - sizeof_manifest_header L)) s)
    as (b & s1 & Hscan).
  { unfold size_t, wrap. apply Z.mod_pos_bound. lia. }
  { lia. }
  unfold scan_manifest. rewrite Hscan.
  assert (Hrel : forall st, manifest_descs (release_manifest_descriptors st).2 = []).
  { intros st. apply release_manifest_descriptors_spec. }
  destruct b; simpl.
  - unfold bind at 1, get_descs.
    destruct (find_module L (manifest_descs s1)) as [found module_desc].
    destruct (negb (found =? 1)).
    + unfold bind, ret, pr.
      match goal with |- context [release_manifest_descriptors ?st] =>
        specialize (Hrel st); destruct (release_manifest_descriptors st) end.
      done.
    + unfold bind at 1.
      match goal with |- context [let '(_, _) := ?m s1 in _] =>
        destruct (m s1) as [gmod s2] end.
      unfold bind at 1, get_descs.
      destruct (manifest_descs s2) as [|e rest] eqn:Hrest.
      * unfold bind, ret. done.
      * unfold bind, ret, pr.
        match goal with |- context [release_manifest_descriptors ?st] =>
          specialize (Hrel st); destruct (release_manifest_descriptors st) end.
        done.
  - unfold bind, ret. specialize (Hrel s1).
    destruct (release_manifest_descriptors s1). done.
Qed.

(** C3: when the descriptors of a manifest were all identified and
    the index holds no module descriptor, or more than one, the
    parser reports the count, empties the index and returns the null
    pointer, whatever else the index holds; and whenever the parser
    returns a module record, all descriptors were identified and
    exactly one of them is a module descriptor. *)
Theorem module_count_enforced (L : wire_layout) (ok : nat -> bool)
    (buf : list byte) (size : Z) (s : kstate) :
  0 <= sizeof_manifest_header L ->
  manifest_descs s = [] ->
  (forall s1,
     envelope_ok L buf size = true ->
     scan_manifest L ok buf size s = (Some true, s1) ->
     module_count L (manifest_descs s1) <> 1 ->
     exists s',
       gb_manifest_parse L ok buf size s = (Some None, s') /\
       klog s' = klog s1 ++
         [manifest_must_have_1_module (module_count L (manifest_descs s1))] /\
       manifest_descs s' = []) /\
  (forall gmod s',
     gb_manifest_parse L ok buf size s = (Some (Some gmod), s') ->
     exists s1,
       envelope_ok L buf size = true /\
       scan_manifest L ok buf size s = (Some true, s1) /\
       module_count L (manifest_descs s1) = 1).
Proof.
  intros Hh Hempty. split.
  - intros s1. by apply module_count_checked.
  - intros gmod s' Hparse.
    destruct (envelope_ok L buf size) eqn:Henv.
    2:{ destruct (parse_envelope_rejected L ok buf size s Henv) as (m & Hm).
        congruence. }
    destruct (scan_manifest L ok buf size s) as [[[]|] s1] eqn:Hscan.
    + exists s1. split; [done|]. split; [done|].
      destruct (decide (module_count L (manifest_descs s1) = 1)) as [|Hne];
        [done|].
      destruct (module_count_checked L ok buf size s s1 Hh Hempty Henv Hscan Hne)
        as (s2 & Hp & _). congruence.
    + rewrite parse_after_envelope in Hparse by done.
      unfold bind at 1 in Hparse. rewrite Hscan in Hparse. simpl in Hparse.
      unfold bind, ret in Hparse.
      destruct (release_manifest_descriptors s1). congruence.
    + rewrite parse_after_envelope in Hparse by done.
      unfold bind at 1 in Hparse. rewrite Hscan in Hparse. simpl in Hparse.
      unfold ret in Hparse. congruence.
Qed.

Lemma module_count_enforced_witness :
  0 <= sizeof_manifest_header spec_wire /\
  manifest_descs boot = [] /\
  envelope_ok spec_wire two_modules 44 = true /\
  module_count spec_wire
    (manifest_descs (scan_manifest spec_wire served two_modules 44 boot).2) <> 1 /\
  exists s',
    gb_manifest_parse spec_wire served two_modules 44 boot = (Some None, s') /\
    klog s' = [manifest_must_have_1_module 2].
Proof.
  assert (H1 : 0 <= sizeof_manifest_header spec_wire) by (vm_compute; discriminate).
  assert (H2 : manifest_descs boot = []) by reflexivity.
  assert (H3 : envelope_ok spec_wire two_modules 44 = true) by reflexivity.
  assert (H4 : scan_manifest spec_wire served two_modules 44 boot
               = (Some true,
                  (scan_manifest spec_wire served two_modules 44 boot).2))
    by reflexivity.
  assert (H5 : module_count spec_wire
            (manifest_descs (scan_manifest spec_wire served two_modules 44 boot).2)
            <> 1) by (vm_compute; discriminate).
  split; [exact H1|]. split; [exact H2|]. split; [exact H3|]. split; [exact H5|].
  destruct (proj1 (module_count_enforced spec_wire served two_modules 44 boot
                     H1 H2) _ H3 H4 H5) as (s' & Hp & Hl & _).
  exists s'. split; [exact Hp|exact Hl].
Defined.

(** *** The string table and the module assembler *)

Section Strings.
Variable L : wire_layout.
Variable ok : nat -> bool.
Variable buf : list byte.

Lemma kmalloc_cases s p s' :
  kmalloc ok s = (p, s') ->
  manifest_descs s' = manifest_descs s /\ klog s' = klog s /\
  nalloc s' = S (nalloc s) /\
  ((p = Some (nalloc s) /\ allocated s' = nalloc s :: allocated s) \/
   (p = None /\ allocated s' = allocated s)).
Proof.
  unfold kmalloc. destruct (ok (nalloc s)); intros; simplify_eq; simpl; eauto 10.
Qed.

(** The four ways out of [gb_string_get]. *)
Lemma gb_string_get_cases string_id s p s' :
  gb_string_get L ok buf string_id s = (p, s') ->
  (string_id = 0 /\ p = NULL /\ s' = s) \/
  (string_id <> 0 /\
   find (is_string L buf string_id) (manifest_descs s) = None /\
   p = ERR_PTR (- ENOENT) /\ s' = s) \/
  (string_id <> 0 /\ p = ERR_PTR (- ENOMEM) /\
   manifest_descs s' = manifest_descs s /\ allocated s' = allocated s /\
   klog s' = klog s) \/
  (string_id <> 0 /\ exists d str,
     find (is_string L buf string_id) (manifest_descs s) = Some d /\
     p = PTR (nalloc s) str /\
     manifest_descs s' =
       filter (fun e => md_links e ≠ md_links d) (manifest_descs s) /\
     allocated s' =
       filter (fun b => b ≠ md_links d) (nalloc s :: allocated s) /\
     klog s' = klog s).
Proof.
  unfold gb_string_get. destruct (Z.eqb_spec string_id 0) as [->|Hne].
  { run. intros; simplify_eq. by left. }
  unfold bind at 1, get_descs.
  destruct (find _ (manifest_descs s)) as [d|] eqn:Hfind.
  2:{ run. intros; simplify_eq. right. by left. }
  unfold bind at 1.
  destruct (kmalloc ok s) as [q s1] eqn:Hk.
  apply kmalloc_cases in Hk as (Hd & Hl & Hn & [[-> Ha]|[-> Ha]]).
  - unfold release_manifest_descriptor. run. intros; simplify_eq.
    right. right. right. split; [done|]. eexists _, _.
    split; [done|]. split; [done|]. simpl. rewrite Hd, Ha, Hl. done.
  - run. intros; simplify_eq. right. right. left. done.
Qed.

(** Whatever [gb_string_get] leaves allocated was allocated before
    or is the string it returns; a failed call allocates nothing. *)
Lemma gb_string_get_allocated string_id s p s' :
  gb_string_get L ok buf string_id s = (p, s') ->
  klog s' = klog s /\
  (forall x, x ∈ allocated s' -> x ∈ allocated s \/ address p = Some x) /\
  (IS_ERR p = true -> forall x, x ∈ allocated s' -> x ∈ allocated s).
Proof.
  intros H. apply gb_string_get_cases in H
    as [(_ & -> & ->)|[(_ & _ & -> & ->)|[(_ & -> & _ & -> & ->)
        |(_ & d & str & _ & -> & _ & -> & ->)]]]; simpl;
    (split; [done|]); (split; [|try done]); try (intros; by left).
  intros x [_ Hx]%list_elem_of_filter.
  apply elem_of_cons in Hx as [->|Hx]; [by right|by left].
Qed.
End Strings.

(** C6 as stated fails: with two string descriptors of id 1 in the
    index, resolving id 1 succeeds twice. *)
Lemma string_resolved_twice :
  (gb_string_get spec_wire served two_strings 1
     (indexed served two_strings 20)).1
  = PTR 2 ["a"%byte; x00] /\
  (gb_string_get spec_wire served two_strings 1
     (gb_string_get spec_wire served two_strings 1
        (indexed served two_strings 20)).2).1
  = PTR 3 ["b"%byte; x00].
Proof. split; vm_compute; reflexivity. Qed.

(** C6, amended: a successful [gb_string_get] for a nonzero id
    removes the string descriptor it matched, the first of that id,
    from the index; when no other string descriptor of the index
    has this id, resolving the id again returns [-ENOENT] and
    changes nothing. *)
Theorem string_consumed (L : wire_layout) (ok : nat -> bool) (buf : list byte)
    (string_id : Z) (s s1 : kstate) (a : nat) (str : list byte) :
  string_id <> 0 ->
  gb_string_get L ok buf string_id s = (PTR a str, s1) ->
  exists d,
    find (is_string L buf string_id) (manifest_descs s) = Some d /\
    manifest_descs s1 =
      filter (fun e => md_links e ≠ md_links d) (manifest_descs s) /\
    (d ∉ manifest_descs s1) /\
    ((forall e, e ∈ manifest_descs s -> is_string L buf string_id e = true ->
        md_links e = md_links d) ->
     forall ok', gb_string_get L ok' buf string_id s1
                 = (ERR_PTR (- ENOENT), s1)).
Proof.
  intros Hne H. apply gb_string_get_cases in H
    as [(? & _)|[(_ & _ & ? & _)|[(_ & ? & _)|(_ & d & str' & Hf & _ & Hd & _)]]];
    try done.
  exists d. split; [done|]. split; [done|]. split.
  { rewrite Hd. intros [Hl _]%list_elem_of_filter. done. }
  intros Honly ok'. unfold gb_string_get.
  destruct (Z.eqb_spec string_id 0) as [|_]; [done|].
  unfold bind, get_descs.
  destruct (find _ (manifest_descs s1)) as [e|] eqn:He; [|done].
  exfalso. apply find_some in He as [Hin His].
  apply list_elem_of_In in Hin. rewrite Hd in Hin.
  apply list_elem_of_filter in Hin as [Hl Hin]. apply Hl. by apply Honly.
Qed.

Lemma string_consumed_witness :
  1 <> 0 /\
  gb_string_get spec_wire served vendor_present 1
    (indexed served vendor_present 32)
  = (PTR 2 ["a"%byte; x00],
     (gb_string_get spec_wire served vendor_present 1
        (indexed served vendor_present 32)).2) /\
  exists d,
    find (is_string spec_wire vendor_present 1)
      (manifest_descs (indexed served vendor_present 32)) = Some d.
Proof.
  assert (H1 : 1 <> 0) by lia.
  assert (H2 : gb_string_get spec_wire served vendor_present 1
                 (indexed served vendor_present 32)
               = (PTR 2 ["a"%byte; x00],
                  (gb_string_get spec_wire served vendor_present 1
                     (indexed served vendor_present 32)).2))
    by (vm_compute; reflexivity).
  split; [exact H1|]. split; [exact H2|].
  destruct (string_consumed spec_wire served vendor_present 1 _ _ _ _ H1 H2)
    as (d & Hd & _).
  exists d. exact Hd.
Defined.

(** C7 as stated fails: [gb_manifest_parse_module] returns the null
    pointer both when the vendor string is missing ([-ENOENT]) and
    when its copy cannot be allocated ([-ENOMEM]), so the error of
    the string resolution cannot be told from its result. *)
Lemma string_error_not_passed_on : ~ string_error_passed_on spec_wire.
Proof.
  intros [errno_of H].
  pose proof (H served vendor_missing first_desc
                (indexed served vendor_missing 24) 1%nat _ (- ENOENT) _
                eq_refl eq_refl) as Ha.
  pose proof (H (refuse 3) vendor_present first_desc
                (indexed (refuse 3) vendor_present 32) 2%nat _ (- ENOMEM) _
                eq_refl eq_refl) as Hb.
  vm_compute in Ha, Hb. congruence.
Qed.

(** C7, amended: a call of [gb_manifest_parse_module] that returns
    the null pointer leaves nothing allocated that was not allocated
    before and logs nothing; when the vendor string, or after it the
    product string, cannot be resolved, the call returns the null
    pointer, with the module record and the vendor string already
    copied freed, whichever error the resolution gave; a record that
    is returned has both strings resolved and its fields read from
    the descriptor. *)
Theorem parse_module_all_or_nothing (L : wire_layout) (ok : nat -> bool)
    (buf : list byte) (d : manifest_desc) (s s' : kstate)
    (r : option gb_module) :
  gb_manifest_parse_module L ok buf d s = (r, s') ->
  (r = None -> (allocated s' ⊆ allocated s) /\ klog s' = klog s) /\
  (forall g s1 pv s2,
     kmalloc ok s = (Some g, s1) ->
     gb_string_get L ok buf (vendor_stringid L buf (md_data d)) s1 = (pv, s2) ->
     (IS_ERR pv = true -> r = None /\ g ∉ allocated s') /\
     (IS_ERR pv = false -> forall pp s3,
        gb_string_get L ok buf (product_stringid L buf (md_data d)) s2
        = (pp, s3) ->
        IS_ERR pp = true ->
        r = None /\ (g ∉ allocated s') /\
        forall a, address pv = Some a -> a ∉ allocated s')) /\
  (forall gmod, r = Some gmod ->
     IS_ERR (vendor_string gmod) = false /\
     IS_ERR (product_string gmod) = false /\
     vendor gmod = le_at buf (md_data d + module_vendor_off L) 2 /\
     product gmod = le_at buf (md_data d + module_product_off L) 2 /\
     version gmod = le_at buf (md_data d + module_version_off L) 2 /\
     serial_number gmod = le_at buf (md_data d + module_serial_number_off L) 8).
Proof.
  unfold gb_manifest_parse_module, vendor_stringid, product_stringid.
  unfold bind at 1.
  destruct (kmalloc ok s) as [q s1] eqn:Hk.
  pose proof (kmalloc_cases ok s q s1 Hk) as (_ & Hl1 & _ & Hq).
  destruct Hq as [[-> Ha1]|[-> Ha1]].
  2:{ unfold ret. intros [= <- <-]. rewrite Ha1, Hl1.
      split; [done|]. split; [|done]. intros g s1' pv s2 [=]. }
  unfold bind at 1.
  destruct (gb_string_get L ok buf _ s1) as [pv s2] eqn:Hv.
  pose proof (gb_string_get_allocated L ok buf _ _ _ _ Hv) as (Hl2 & Ha2 & He2).
  destruct (IS_ERR pv) eqn:Ev.
  { unfold bind, kfree, ret. intros [= <- <-]. simpl. split; [|split; [|done]].
    - intros _. split; [|congruence].
      intros x [Hx Hin]%list_elem_of_filter. apply (He2 eq_refl) in Hin.
      rewrite Ha1 in Hin. apply elem_of_cons in Hin as [|]; done.
    - intros g s1' pv' s2' [= <- <-] Hv'. rewrite Hv in Hv'.
      injection Hv' as <- <-. split; [|by rewrite Ev].
      intros _. split; [done|]. intros [Hx _]%list_elem_of_filter. done. }
  unfold bind at 1.
  destruct (gb_string_get L ok buf _ s2) as [pp s3] eqn:Hp.
  pose proof (gb_string_get_allocated L ok buf _ _ _ _ Hp) as (Hl3 & Ha3 & He3).
  destruct (IS_ERR pp) eqn:Ep.
  { unfold bind, ret, kfree.
    destruct (address pv) as [av|] eqn:Eaddr; intros [= <- <-]; simpl.
    - split; [|split; [|done]].
      + intros _. split; [|congruence].
        intros x [Hg [Hav Hin]%list_elem_of_filter]%list_elem_of_filter.
        apply (He3 eq_refl) in Hin. apply Ha2 in Hin as [Hin|Hin].
        * rewrite Ha1 in Hin. apply elem_of_cons in Hin as [|]; done.
        * congruence.
      + intros g s1' pv' s2' [= <- <-] Hv'. rewrite Hv in Hv'.
        injection Hv' as <- <-. split; [by rewrite Ev|].
        intros _ pp' s3' _ _. split; [done|]. split.
        * intros [Hg _]%list_elem_of_filter. done.
        * intros a Ha. rewrite Eaddr in Ha. injection Ha as <-.
          intros [_ [Hav _]%list_elem_of_filter]%list_elem_of_filter. done.
    - split; [|split; [|done]].
      + intros _. split; [|congruence].
        intros x [Hg Hin]%list_elem_of_filter.
        apply (He3 eq_refl) in Hin. apply Ha2 in Hin as [Hin|Hin].
        * rewrite Ha1 in Hin. apply elem_of_cons in Hin as [|]; done.
        * congruence.
      + intros g s1' pv' s2' [= <- <-] Hv'. rewrite Hv in Hv'.
        injection Hv' as <- <-. split; [by rewrite Ev|].
        intros _ pp' s3' _ _. split; [done|]. split.
        * intros [Hg _]%list_elem_of_filter. done.
        * intros a Ha. rewrite Eaddr in Ha. done. }
  unfold release_manifest_descriptor, bind, ret, Manifest.list_del, kfree.
  intros [= <- <-]. split; [done|]. split; [|by intros gmod [= <-]].
  intros g s1' pv' s2' [= <- <-] Hv'. rewrite Hv in Hv'.
  injection Hv' as <- <-. split; [by rewrite Ev|].
  intros _ pp' s3' Hp'. rewrite Hp in Hp'. injection Hp' as <- <-.
  by rewrite Ep.
Qed.

Lemma parse_module_all_or_nothing_witness :
  gb_manifest_parse_module spec_wire served vendor_missing first_desc
    (indexed served vendor_missing 24)
  = (None,
     (gb_manifest_parse_module spec_wire served vendor_missing first_desc
        (indexed served vendor_missing 24)).2) /\
  allocated
    (gb_manifest_parse_module spec_wire served vendor_missing first_desc
       (indexed served vendor_missing 24)).2
  ⊆ allocated (indexed served vendor_missing 24).
Proof.
  assert (H : gb_manifest_parse_module spec_wire served vendor_missing first_desc
                (indexed served vendor_missing 24)
              = (None,
                 (gb_manifest_parse_module spec_wire served vendor_missing
                    first_desc (indexed served vendor_missing 24)).2))
    by (vm_compute; reflexivity).
  split; [exact H|].
  exact (proj1 (proj1 (parse_module_all_or_nothing _ _ _ _ _ _ _ H) eq_refl)).
Defined.

End ManifestFacts.

Module ManifestMore.
Import Kernel Manifest ManifestFacts.
Local Open Scope kernel_scope.

Section Scanning.
Variable L : wire_layout.
Variable ok : nat -> bool.
Variable buf : list byte.

Lemma check_type_accepted desc desc_size s b s' :
  check_type L buf desc desc_size s = (b, s') ->
  b = accepted L buf desc desc_size.
Proof.
  unfold check_type, accepted. run. intros H.
  repeat case_match; simplify_eq; done.
Qed.

(** [identify_descriptor], with what it does to the allocator. *)
Lemma identify_descriptor_full desc size s r s' :
  identify_descriptor L ok buf desc size s = (r, s') ->
  (r < 0 /\ manifest_descs s' = manifest_descs s /\
   allocated s' = allocated s /\
   (nalloc s <= nalloc s' <= S (nalloc s))%nat) \/
  (exists d,
     md_links d = nalloc s /\ md_data d = desc /\ md_size d = r /\
     entry_of L buf d /\ 0 <= r <= size /\
     sizeof_descriptor_header L <= size /\
     manifest_descs s' = manifest_descs s ++ [d] /\
     allocated s' = nalloc s :: allocated s /\ nalloc s' = S (nalloc s)).
Proof.
  unfold identify_descriptor. intros H.
  pose proof (le16_range buf (desc + header_size_off L)) as Hr.
  destruct (Z.ltb_spec size (sizeof_descriptor_header L)).
  { run. simplify_eq. left. unfold EINVAL. simpl. split; [done|].
    split; [done|]. split; [done|]. lia. }
  destruct (le_at buf (desc + header_size_off L) 2 >? size) eqn:Hbig.
  { run. simplify_eq. left. unfold EINVAL. simpl. split; [done|].
    split; [done|]. split; [done|]. lia. }
  unfold bind at 1 in H.
  destruct (check_type L buf desc _ s) as [b s1] eqn:Hct.
  pose proof (check_type_accepted _ _ _ _ _ Hct) as Hacc.
  apply check_type_frame in Hct as (Hd & Ha & Hn).
  destruct b; run.
  - destruct (ok (nalloc s1)) eqn:Hok; simplify_eq; simpl.
    + right.
      exists {| md_links := nalloc s;
                md_size := le_at buf (desc + header_size_off L) 2;
                md_data := desc;
                md_type := read buf desc (header_type_f L) |}.
      unfold entry_of. simpl. rewrite ?Hd, ?Ha, ?Hn.
      rewrite Z.gtb_ltb in Hbig. apply Z.ltb_ge in Hbig.
      repeat split; try done; lia.
    + left. unfold ENOMEM. rewrite ?Hd, ?Ha, ?Hn.
      split; [done|]. split; [done|]. split; [done|]. lia.
  - simplify_eq. left. unfold EINVAL. rewrite ?Hd, ?Ha, ?Hn.
    split; [done|]. split; [done|]. split; [done|]. lia.
Qed.

(** What the descriptor loop leaves behind, however it ends: it
    appends entries to the index, one node each, the nodes being the
    blocks it allocated; and when it runs to the end of the buffer
    the entries lie end to end over the bytes it was given. *)
Lemma scan_descriptors_index fuel desc size s r s' :
  0 <= size < 2 ^ 64 ->
  scan_descriptors L ok buf fuel desc size s = (r, s') ->
  exists added,
    manifest_descs s' = manifest_descs s ++ added /\
    allocated s' = rev (map md_links added) ++ allocated s /\
    (nalloc s <= nalloc s')%nat /\
    Forall (fun d => (nalloc s <= md_links d < nalloc s')%nat) added /\
    NoDup (map md_links added) /\
    Forall (fun d => entry_of L buf d /\ desc <= md_data d /\
                     md_data d + md_size d <= desc + size /\
                     md_data d + sizeof_descriptor_header L <= desc + size)
           added /\
    (r = Some true -> tiles added desc (desc + size)).
Proof.
  revert desc size s. induction fuel as [|fuel IH]; intros desc size s Hs.
  - simpl. destruct (Z.eqb_spec size 0) as [->|Hne]; run; intros; simplify_eq.
    + exists []. simpl. rewrite app_nil_r. repeat split; try done; try constructor.
      lia.
    + exists []. simpl. rewrite app_nil_r. repeat split; try done; constructor.
  - cbn [scan_descriptors]. destruct (Z.eqb_spec size 0) as [->|Hne].
    { run. intros; simplify_eq. exists []. simpl. rewrite app_nil_r.
      repeat split; try done; try constructor. lia. }
    unfold bind at 1.
    destruct (identify_descriptor L ok buf desc size s) as [n s1] eqn:Eid.
    apply identify_descriptor_full in Eid.
    destruct (Z.leb_spec n 0) as [Hn|Hn].
    + assert (Hlog : forall st, exists st',
                ((if n =? 0 then pr zero_sized_manifest_descriptor else ret tt) ;;
                 ret (Some false)) st = (Some false, st') /\
                manifest_descs st' = manifest_descs st /\
                allocated st' = allocated st /\ nalloc st' = nalloc st).
      { intros st. destruct (n =? 0); run; eauto. }
      destruct (Hlog s1) as (s2 & -> & Hd2 & Ha2 & Hn2). intros [= <- <-].
      rewrite Hd2, Ha2, Hn2.
      destruct Eid as [(_ & Hd & Ha & Hnn)|(d & Hl & Hdata & Hsz & Hent & Hr & Hh
                                            & Hd & Ha & Hnn)].
      * exists []. simpl. rewrite app_nil_r.
        repeat split; try done; try constructor. lia.
      * exists [d]. simpl. rewrite Hd, Ha, Hl, Hnn.
        split; [done|]. split; [done|]. split; [lia|].
        split; [constructor; [lia|constructor]|].
        split; [apply NoDup_singleton|].
        split; [|done]. constructor; [|constructor].
        split; [done|]. rewrite Hdata, Hsz. lia.
    + destruct Eid as [(? & _)|(d & Hl & Hdata & Hsz & Hent & Hr & Hh
                                 & Hd & Ha & Hnn)]; [lia|].
      assert (Hwrap : size_t (size - n) = size - n).
      { unfold size_t, wrap. rewrite Z.mod_small; lia. }
      rewrite Hwrap. intros Hscan.
      apply IH in Hscan; [|lia].
      destruct Hscan as (added & Hd' & Ha' & Hn' & Hrange & Hnd & Hall & Htiles).
      clear IH. exists (d :: added). rewrite Hd', Hd, Ha', Ha.
      rewrite Hnn in Hn', Hrange.
      split; [by rewrite <- app_assoc|].
      split; [simpl; rewrite Hl; by rewrite <- !app_assoc|].
      split; [lia|]. split.
      { constructor; [lia|]. eapply list.Forall_impl; [exact Hrange|].
        simpl. intros; lia. }
      split.
      { simpl. apply list.NoDup_cons. split; [|done].
        intros (e & He & Hin)%list_elem_of_fmap.
        rewrite list.Forall_forall in Hrange. specialize (Hrange e Hin). lia. }
      split.
      { constructor.
        - split; [done|]. rewrite Hdata, Hsz. lia.
        - eapply list.Forall_impl; [exact Hall|]. simpl.
          intros e (? & ? & ? & ?). split; [done|]. lia. }
      intros Hr'. simpl. split; [done|]. split; [lia|].
      rewrite Hsz. replace (desc + size) with (desc + n + (size - n)) by lia.
      by apply Htiles.
Qed.

(** *** What stays allocated *)

Lemma elem_of_owned (s : kstate) (x : nat) :
  x ∈ owned s <-> (x ∉ map md_links (manifest_descs s)) /\ x ∈ allocated s.
Proof. unfold owned. by rewrite list_elem_of_filter. Qed.

Lemma owned_kfree p s x :
  x ∈ owned (kfree p s).2 -> x ∈ owned s /\ p <> Some x.
Proof.
  rewrite !elem_of_owned. unfold kfree. destruct p as [a|]; simpl.
  - intros [Hn [Hne Hin]%list_elem_of_filter]. split; [done|congruence].
  - done.
Qed.

Lemma owned_release e s x :
  x ∈ owned (release_manifest_descriptor e s).2 -> x ∈ owned s.
Proof.
  rewrite !elem_of_owned. unfold release_manifest_descriptor. run.
  intros [Hn [Hne Hin]%list_elem_of_filter]. split; [|done].
  intros (e' & -> & He')%list_elem_of_fmap. apply Hn.
  apply list_elem_of_fmap. exists e'. split; [done|].
  apply list_elem_of_filter. done.
Qed.

Lemma owned_kmalloc s p s' x :
  kmalloc ok s = (p, s') -> x ∈ owned s' -> x ∈ owned s \/ p = Some x.
Proof.
  rewrite !elem_of_owned. unfold kmalloc.
  destruct (ok (nalloc s)); intros [= <- <-]; simpl.
  - intros [Hn [->|Hin]%elem_of_cons]; [by right|by left].
  - by left.
Qed.

Lemma owned_string_get string_id s p s' x :
  gb_string_get L ok buf string_id s = (p, s') ->
  x ∈ owned s' -> x ∈ owned s \/ address p = Some x.
Proof.
  unfold gb_string_get. destruct (string_id =? 0).
  { run. intros [= <- <-]. by left. }
  unfold bind at 1, get_descs.
  destruct (find _ (manifest_descs s)) as [d|].
  2:{ run. intros [= <- <-]. by left. }
  unfold bind at 1. destruct (kmalloc ok s) as [[a|] s1] eqn:Hk.
  - unfold bind, ret.
    destruct (release_manifest_descriptor d s1) as [[] s2] eqn:Hrel.
    intros [= <- <-] Hx. simpl.
    assert (x ∈ owned s1) as Hx1.
    { apply (owned_release d s1). by rewrite Hrel. }
    destruct (owned_kmalloc _ _ _ _ Hk Hx1) as [|[= ->]]; [by left|by right].
  - unfold ret. intros [= <- <-] Hx.
    destruct (owned_kmalloc _ _ _ _ Hk Hx) as [|[=]]. by left.
Qed.

Lemma owned_parse_module d s r s' x :
  gb_manifest_parse_module L ok buf d s = (r, s') ->
  x ∈ owned s' ->
  x ∈ owned s \/
  exists gmod, r = Some gmod /\
    (x = gmod_addr gmod \/ address (vendor_string gmod) = Some x \/
     address (product_string gmod) = Some x).
Proof.
  unfold gb_manifest_parse_module. unfold bind at 1.
  destruct (kmalloc ok s) as [[g|] s1] eqn:Hk.
  2:{ unfold ret. intros [= <- <-] Hx.
      destruct (owned_kmalloc _ _ _ _ Hk Hx) as [|[=]]. by left. }
  unfold bind at 1.
  destruct (gb_string_get L ok buf _ s1) as [pv s2] eqn:Hv.
  destruct (IS_ERR pv) eqn:Ev.
  { unfold bind, ret. destruct (kfree (Some g) s2) as [[] s3] eqn:Hf.
    intros [= <- <-] Hx. left.
    assert (x ∈ owned s2 /\ Some g <> Some x) as [Hx2 Hg].
    { apply owned_kfree. by rewrite Hf. }
    destruct (owned_string_get _ _ _ _ _ Hv Hx2) as [Hx1|Ha].
    - destruct (owned_kmalloc _ _ _ _ Hk Hx1) as [|]; [done|congruence].
    - destruct pv; simpl in *; congruence. }
  unfold bind at 1.
  destruct (gb_string_get L ok buf _ s2) as [pp s3] eqn:Hp.
  destruct (IS_ERR pp) eqn:Ep.
  { unfold bind, ret. destruct (kfree (address pv) s3) as [[] s4] eqn:Hf1.
    destruct (kfree (Some g) s4) as [[] s5] eqn:Hf2.
    intros [= <- <-] Hx. left.
    assert (x ∈ owned s4 /\ Some g <> Some x) as [Hx4 Hg].
    { apply owned_kfree. by rewrite Hf2. }
    assert (x ∈ owned s3 /\ address pv <> Some x) as [Hx3 Hpv].
    { apply owned_kfree. by rewrite Hf1. }
    destruct (owned_string_get _ _ _ _ _ Hp Hx3) as [Hx2|Ha].
    2:{ destruct pp; simpl in *; congruence. }
    destruct (owned_string_get _ _ _ _ _ Hv Hx2) as [Hx1|Ha]; [|done].
    destruct (owned_kmalloc _ _ _ _ Hk Hx1) as [|]; [done|congruence]. }
  unfold bind, ret. destruct (release_manifest_descriptor d s3) as [[] s4] eqn:Hr.
  intros [= <- <-] Hx.
  assert (x ∈ owned s3) as Hx3.
  { apply (owned_release d s3). by rewrite Hr. }
  destruct (owned_string_get _ _ _ _ _ Hp Hx3) as [Hx2|Ha].
  2:{ right. eexists. split; [done|]. simpl. by right; right. }
  destruct (owned_string_get _ _ _ _ _ Hv Hx2) as [Hx1|Ha].
  2:{ right. eexists. split; [done|]. simpl. by right; left. }
  destruct (owned_kmalloc _ _ _ _ Hk Hx1) as [|[= ->]]; [by left|].
  right. eexists. split; [done|]. simpl. by left.
Qed.

Lemma owned_release_each l s x :
  x ∈ owned (release_each l s).2 -> x ∈ owned s.
Proof.
  revert s. induction l as [|d l IH]; intros s; [done|].
  cbn [release_each]. unfold bind at 1.
  destruct (release_manifest_descriptor d s) as [[] s1] eqn:Hr.
  intros Hx%IH. apply (owned_release d s). by rewrite Hr.
Qed.

(** After [release_manifest_descriptors] the index is empty, so all
    that is allocated is held besides it. *)
Lemma allocated_release_all s x :
  x ∈ allocated (release_manifest_descriptors s).2 -> x ∈ owned s.
Proof.
  intros Hx. apply (owned_release_each (manifest_descs s) s).
  pose proof (release_manifest_descriptors_spec s) as (He & _ & _).
  unfold release_manifest_descriptors, bind, get_descs in *.
  apply elem_of_owned. rewrite He. split; [|done]. simpl. apply not_elem_of_nil.
Qed.

Lemma elem_of_rev_iff (l : list nat) (x : nat) : x ∈ rev l <-> x ∈ l.
Proof. rewrite !list_elem_of_In. symmetry. apply in_rev. Qed.

Lemma owned_scan fuel desc size s r s' x :
  0 <= size < 2 ^ 64 ->
  scan_descriptors L ok buf fuel desc size s = (r, s') ->
  x ∈ owned s' -> x ∈ owned s.
Proof.
  intros Hs Hscan. apply scan_descriptors_index in Hscan; [|done].
  destruct Hscan as (added & Hd & Ha & _). rewrite !elem_of_owned, Hd, Ha.
  rewrite map_app, !elem_of_app, elem_of_rev_iff. intros [Hn [Hin|Hin]].
  - exfalso. apply Hn. by right.
  - split; [|done]. intros Hl. apply Hn. by left.
Qed.
End Scanning.

Section Strings.
Variable L : wire_layout.
Variable ok : nat -> bool.
Variable buf : list byte.

(** A successful [gb_string_get] in full. *)
Lemma gb_string_get_ptr string_id s a str s' :
  gb_string_get L ok buf string_id s = (PTR a str, s') ->
  exists d,
    find (is_string L buf string_id) (manifest_descs s) = Some d /\
    a = nalloc s /\ nalloc s' = S (nalloc s) /\
    manifest_descs s' =
      filter (fun e => md_links e ≠ md_links d) (manifest_descs s) /\
    allocated s' = filter (fun b => b ≠ md_links d) (nalloc s :: allocated s) /\
    klog s' = klog s /\
    str = bytes_at buf (md_data d + string_string_off L)
            (read buf (md_data d) (string_length_f L)) ++ [x00].
Proof.
  unfold gb_string_get. destruct (string_id =? 0); [by run|].
  unfold bind at 1, get_descs.
  destruct (find _ (manifest_descs s)) as [d|]; [|by run].
  unfold bind at 1, kmalloc.
  destruct (ok (nalloc s)); [|by run].
  unfold release_manifest_descriptor. run. intros [= <- <- <-].
  exists d. simpl. done.
Qed.

(** A call of [gb_string_get] that returns no string. *)
Lemma gb_string_get_none string_id s p s' :
  gb_string_get L ok buf string_id s = (p, s') -> address p = None ->
  manifest_descs s' = manifest_descs s /\ allocated s' = allocated s /\
  (nalloc s <= nalloc s')%nat /\ klog s' = klog s.
Proof.
  unfold gb_string_get. destruct (string_id =? 0).
  { run. intros [= <- <-] _. done. }
  unfold bind at 1, get_descs.
  destruct (find _ (manifest_descs s)) as [d|].
  2:{ run. intros [= <- <-] _. done. }
  unfold bind at 1, kmalloc.
  destruct (ok (nalloc s)).
  - unfold release_manifest_descriptor. run. intros [= <- <-]. done.
  - run. intros [= <- <-] _. simpl. repeat split; try done. lia.
Qed.

(** One call of [gb_string_get] seen from a block [x] that is in use
    and is no node of the index: it stays in use; the nodes of the
    index stay below the next address. *)
Lemma gb_string_get_keeps string_id s p s' :
  gb_string_get L ok buf string_id s = (p, s') ->
  (forall e, e ∈ manifest_descs s -> (md_links e < nalloc s)%nat) ->
  (nalloc s <= nalloc s')%nat /\
  manifest_descs s' ⊆ manifest_descs s /\
  (forall x, x ∈ allocated s -> (forall e, e ∈ manifest_descs s -> md_links e <> x) ->
     x ∈ allocated s') /\
  (forall a, address p = Some a ->
     a = nalloc s /\ a ∈ allocated s' /\ (a < nalloc s')%nat).
Proof.
  intros H Hbelow. destruct p as [|err|a str].
  - apply gb_string_get_none in H as (-> & -> & ? & _); [|done].
    repeat split; try done.
  - apply gb_string_get_none in H as (-> & -> & ? & _); [|done].
    repeat split; try done.
  - apply gb_string_get_ptr in H as (d & Hf & -> & Hn & Hd & Ha & _ & _).
    apply find_some in Hf as [Hin _]. apply list_elem_of_In in Hin.
    rewrite Hn, Hd, Ha. split; [lia|]. split; [apply list_subseteq_filter|].
    split.
    + intros x Hx Hnode. apply list_elem_of_filter. split; [|by right].
      intros ->. by apply (Hnode d).
    + intros a [= <-]. split; [done|]. split; [|lia].
      apply list_elem_of_filter. split; [|by left].
      specialize (Hbelow d Hin). lia.
Qed.

(** A successful [gb_manifest_parse_module]: where the record and its
    strings are, and that they are still allocated. *)
Lemma parse_module_success d s gmod s' :
  gb_manifest_parse_module L ok buf d s = (Some gmod, s') ->
  (forall e, e ∈ manifest_descs s -> (md_links e < nalloc s)%nat) ->
  (md_links d < nalloc s)%nat ->
  gmod_addr gmod = nalloc s /\
  gmod_addr gmod ∈ allocated s' /\
  (forall a, address (vendor_string gmod) = Some a ->
     a ∈ allocated s' /\ (nalloc s < a)%nat) /\
  (forall a, address (product_string gmod) = Some a ->
     a ∈ allocated s' /\ (nalloc s < a)%nat /\
     address (vendor_string gmod) <> Some a) /\
  manifest_descs s' ⊆ manifest_descs s.
Proof.
  unfold gb_manifest_parse_module. unfold bind at 1, kmalloc.
  destruct (ok (nalloc s)); [|by run].
  set (s1 := {| manifest_descs := manifest_descs s;
                allocated := nalloc s :: allocated s;
                nalloc := S (nalloc s); klog := klog s |}).
  unfold bind at 1.
  destruct (gb_string_get L ok buf _ s1) as [pv s2] eqn:Hv.
  destruct (IS_ERR pv) eqn:Ev; [by run|].
  unfold bind at 1.
  destruct (gb_string_get L ok buf _ s2) as [pp s3] eqn:Hp.
  destruct (IS_ERR pp) eqn:Ep.
  { unfold bind, ret, kfree. destruct (address pv); intros [=]. }
  intros H Hbelow Hd.
  assert (Hb1 : forall e, e ∈ manifest_descs s1 -> (md_links e < nalloc s1)%nat).
  { simpl. intros e He. specialize (Hbelow e He). lia. }
  destruct (gb_string_get_keeps _ _ _ _ Hv Hb1) as (Hn2 & Hsub2 & Hkeep2 & Hpv).
  assert (Hb2 : forall e, e ∈ manifest_descs s2 -> (md_links e < nalloc s2)%nat).
  { intros e He. specialize (Hb1 e (Hsub2 e He)). lia. }
  destruct (gb_string_get_keeps _ _ _ _ Hp Hb2) as (Hn3 & Hsub3 & Hkeep3 & Hpp).
  simpl in Hn2.
  assert (Hnodes2 : forall x, (nalloc s <= x)%nat ->
            forall e, e ∈ manifest_descs s2 -> md_links e <> x).
  { intros x Hx e He. specialize (Hbelow e (Hsub2 e He)). lia. }
  assert (Hnodes3 : forall x, (nalloc s <= x)%nat ->
            forall e, e ∈ manifest_descs s3 -> md_links e <> x).
  { intros x Hx e He. apply (Hnodes2 x Hx e). by apply Hsub3. }
  assert (Hg2 : nalloc s ∈ allocated s2).
  { apply Hkeep2; [by left|]. intros e He. specialize (Hbelow e He). lia. }
  assert (Hg3 : nalloc s ∈ allocated s3).
  { apply Hkeep3; [done|]. by apply Hnodes2. }
  revert H. unfold release_manifest_descriptor. run. intros [= <- <-]. simpl.
  assert (Hfin : forall x, x ∈ allocated s3 -> (nalloc s <= x)%nat ->
            x ∈ filter (fun b => b ≠ md_links d) (allocated s3)).
  { intros x Hx Hge. apply list_elem_of_filter. split; [lia|done]. }
  split; [done|]. split; [by apply Hfin|]. split; [|split].
  - intros a Ha. destruct (Hpv a Ha) as (-> & Hin & Hlt). simpl in *.
    split; [|lia]. apply Hfin; [|lia]. apply Hkeep3; [done|].
    apply Hnodes2. lia.
  - intros a Ha. destruct (Hpp a Ha) as (-> & Hin & Hlt).
    split; [apply Hfin; [done|lia]|]. split; [lia|].
    intros Hv'. destruct (Hpv _ Hv') as (_ & _ & ?). lia.
  - etrans; [apply list_subseteq_filter|]. etrans; [exact Hsub3|]. exact Hsub2.
Qed.

(** Releasing entries frees their nodes and nothing else. *)
Lemma release_each_keeps l s x :
  x ∈ allocated s -> x ∉ map md_links l ->
  x ∈ allocated (release_each l s).2.
Proof.
  revert s. induction l as [|d l IH]; intros s Hx Hn; [done|].
  cbn [release_each]. unfold bind at 1, release_manifest_descriptor. run.
  apply IH.
  - simpl. apply list_elem_of_filter. split; [|done].
    intros ->. apply Hn. by left.
  - intros Hin. apply Hn. by right.
Qed.
End Strings.

Lemma owned_empty_index (s : kstate) (x : nat) :
  manifest_descs s = [] -> (x ∈ owned s <-> x ∈ allocated s).
Proof.
  intros He. rewrite elem_of_owned, He. simpl. split; [by intros [_ ?]|].
  intros ?. split; [apply not_elem_of_nil|done].
Qed.

(** X1: the static index is empty between parses: a call of
    [gb_manifest_parse] that finds it empty leaves it empty, whether it
    returns a module record or the null pointer. *)
Theorem index_empty_between_parses (L : wire_layout) (ok : nat -> bool)
    (buf : list byte) (size : Z) (s : kstate) :
  manifest_descs s = [] ->
  manifest_descs (gb_manifest_parse L ok buf size s).2 = [].
Proof. apply parse_leaves_index_empty. Qed.

Lemma index_empty_between_parses_witness :
  manifest_descs boot = [] /\
  manifest_descs (gb_manifest_parse spec_wire served three_kinds 43 boot).2 = [].
Proof.
  assert (H : manifest_descs boot = []) by reflexivity.
  split; [exact H|].
  exact (index_empty_between_parses spec_wire served three_kinds 43 boot H).
Defined.

(** X2: [gb_manifest_parse] frees what it allocates: of the blocks
    allocated when it returns, each was allocated before the call or is
    the module record it returns or one of the record's two strings.
    A parse that returns the null pointer leaves no block behind. *)
Theorem parse_frees_what_it_allocates (L : wire_layout) (ok : nat -> bool)
    (buf : list byte) (size : Z) (s s' : kstate) (r : option (option gb_module)) :
  manifest_descs s = [] ->
  gb_manifest_parse L ok buf size s = (r, s') ->
  (forall x, x ∈ allocated s' ->
     x ∈ allocated s \/
     exists gmod, r = Some (Some gmod) /\
       (x = gmod_addr gmod \/ address (vendor_string gmod) = Some x \/
        address (product_string gmod) = Some x)) /\
  (r = Some None -> allocated s' ⊆ allocated s).
Proof.
  intros He Hparse.
  assert (Hmain : forall x, x ∈ allocated s' ->
     x ∈ allocated s \/
     exists gmod, r = Some (Some gmod) /\
       (x = gmod_addr gmod \/ address (vendor_string gmod) = Some x \/
        address (product_string gmod) = Some x)).
  2:{ split; [exact Hmain|]. intros -> x Hx.
      destruct (Hmain x Hx) as [|(g & [=] & _)]. done. }
  revert Hparse. destruct (envelope_ok L buf size) eqn:Henv.
  2:{ destruct (parse_envelope_rejected L ok buf size s Henv) as (m & ->).
      intros [= <- <-] x Hx. by left. }
  rewrite parse_after_envelope by done. unfold bind at 1.
  destruct (scan_descriptors_total L ok buf
              (Z.to_nat (size_t (size - sizeof_manifest_header L)))
              (sizeof_manifest_header L)
              (size_t (size - sizeof_manifest_header L)) s)
    as (b & s1 & Hscan).
  { unfold size_t, wrap. apply Z.mod_pos_bound. lia. }
  { lia. }
  unfold scan_manifest. rewrite Hscan.
  assert (Hs1 : forall x, x ∈ owned s1 -> x ∈ allocated s).
  { intros x Hx. apply (owned_empty_index s x He).
    eapply owned_scan; [|exact Hscan|exact Hx].
    unfold size_t, wrap. apply Z.mod_pos_bound. lia. }
  destruct b; simpl.
  - unfold bind at 1, get_descs.
    destruct (find_module L (manifest_descs s1)) as [found module_desc].
    destruct (negb (found =? 1)).
    + unfold bind at 1, pr. unfold bind at 1.
      match goal with |- context [release_manifest_descriptors ?st] =>
        pose proof (allocated_release_all st) as Hrel;
        destruct (release_manifest_descriptors st) as [[] s2] end.
      unfold ret. intros [= <- <-] x Hx. left. apply Hs1.
      apply Hrel in Hx. apply elem_of_owned in Hx. by apply elem_of_owned.
    + unfold bind at 1.
      assert (Hmod : forall gmod s2,
                match module_desc with
                | Some d => gb_manifest_parse_module L ok buf d
                | None => ret None
                end s1 = (gmod, s2) ->
                forall x, x ∈ owned s2 ->
                  x ∈ owned s1 \/
                  exists g, gmod = Some g /\
                    (x = gmod_addr g \/ address (vendor_string g) = Some x \/
                     address (product_string g) = Some x)).
      { intros gmod s2. destruct module_desc as [d|].
        - intros H x Hx. by apply (owned_parse_module L ok buf d s1 gmod s2).
        - unfold ret. intros [= <- <-] x Hx. by left. }
      destruct (match module_desc with
                | Some d => gb_manifest_parse_module L ok buf d
                | None => ret None
                end s1) as [gmod s2] eqn:Hpm.
      specialize (Hmod gmod s2 eq_refl).
      unfold bind at 1, get_descs.
      destruct (manifest_descs s2) as [|e rest] eqn:Hrest.
      * unfold bind, ret. intros [= <- <-] x Hx.
        apply (owned_empty_index s2 x Hrest) in Hx.
        destruct (Hmod x Hx) as [|(g & -> & Hg)]; [left; by apply Hs1|].
        right. by exists g.
      * unfold bind at 1. unfold bind at 1, pr.
        match goal with |- context [release_manifest_descriptors ?st] =>
          pose proof (allocated_release_all st) as Hrel;
          destruct (release_manifest_descriptors st) as [[] s3] end.
        unfold ret. intros [= <- <-] x Hx.
        apply Hrel in Hx. apply elem_of_owned in Hx. simpl in Hx.
        assert (x ∈ owned s2) as Hx2 by by apply elem_of_owned.
        destruct (Hmod x Hx2) as [|(g & -> & Hg)]; [left; by apply Hs1|].
        right. by exists g.
  - unfold bind at 1.
    pose proof (allocated_release_all s1) as Hrel.
    destruct (release_manifest_descriptors s1) as [[] s2].
    unfold ret. intros [= <- <-] x Hx. left. by apply Hs1, Hrel.
Qed.

Lemma parse_frees_what_it_allocates_witness :
  manifest_descs boot = [] /\
  gb_manifest_parse spec_wire (refuse 2) three_kinds 43 boot
  = (Some None, (gb_manifest_parse spec_wire (refuse 2) three_kinds 43 boot).2) /\
  allocated (gb_manifest_parse spec_wire (refuse 2) three_kinds 43 boot).2
  ⊆ allocated boot.
Proof.
  assert (H1 : manifest_descs boot = []) by reflexivity.
  assert (H2 : gb_manifest_parse spec_wire (refuse 2) three_kinds 43 boot
               = (Some None,
                  (gb_manifest_parse spec_wire (refuse 2) three_kinds 43 boot).2))
    by (vm_compute; reflexivity).
  split; [exact H1|]. split; [exact H2|].
  exact (proj2 (parse_frees_what_it_allocates _ _ _ _ _ _ _ H1 H2) eq_refl).
Defined.

Lemma find_module_in (L : wire_layout) (l : list manifest_desc)
    (acc : Z * option manifest_desc) (d : manifest_desc) :
  (fold_left (count_module L) l acc).2 = Some d -> acc.2 = Some d \/ d ∈ l.
Proof.
  revert acc. induction l as [|e l IH]; intros acc; [by left|].
  cbn [fold_left]. intros H. apply IH in H as [H|H]; [|right; by right].
  unfold count_module in H. destruct acc as [found module_desc].
  destruct (md_type e =? GREYBUS_TYPE_MODULE L); [|by left].
  simpl in H. destruct (found =? 0); [|by left].
  injection H as ->. right. by left.
Qed.

(** X3: a module record returned by [gb_manifest_parse] is allocated
    when the parser returns, at an address handed out during the call,
    and so are its vendor and product strings, in blocks of their own
    behind the record: releasing the index does not take them away. *)
Theorem parsed_module_is_live (L : wire_layout) (ok : nat -> bool)
    (buf : list byte) (size : Z) (s s' : kstate) (gmod : gb_module) :
  manifest_descs s = [] ->
  gb_manifest_parse L ok buf size s = (Some (Some gmod), s') ->
  gmod_addr gmod ∈ allocated s' /\ (nalloc s <= gmod_addr gmod)%nat /\
  (forall a, address (vendor_string gmod) = Some a ->
     a ∈ allocated s' /\ (gmod_addr gmod < a)%nat) /\
  (forall a, address (product_string gmod) = Some a ->
     a ∈ allocated s' /\ (gmod_addr gmod < a)%nat /\
     address (vendor_string gmod) <> Some a).
Proof.
  intros He. destruct (envelope_ok L buf size) eqn:Henv.
  2:{ destruct (parse_envelope_rejected L ok buf size s Henv) as (m & ->).
      intros [=]. }
  rewrite parse_after_envelope by done. unfold bind at 1, scan_manifest.
  destruct (scan_descriptors L ok buf _ _ _ s) as [[[]|] s1] eqn:Hscan.
  2:{ simpl. unfold bind, ret. destruct (release_manifest_descriptors s1).
      intros [=]. }
  2:{ simpl. unfold ret. intros [=]. }
  apply scan_descriptors_index in Hscan.
  2:{ unfold size_t, wrap. apply Z.mod_pos_bound. lia. }
  destruct Hscan as (added & Hd & _ & Hn1 & Hrange & _).
  rewrite He in Hd. simpl in Hd.
  assert (Hbelow : forall e, e ∈ manifest_descs s1 ->
                     (md_links e < nalloc s1)%nat).
  { rewrite Hd. intros e Hin. rewrite list.Forall_forall in Hrange.
    specialize (Hrange e Hin). lia. }
  simpl. unfold bind at 1, get_descs.
  destruct (find_module L (manifest_descs s1)) as [found module_desc] eqn:Hfm.
  destruct (negb (found =? 1)).
  { unfold bind, ret, pr.
    match goal with |- context [release_manifest_descriptors ?st] =>
      destruct (release_manifest_descriptors st) end. intros [=]. }
  destruct module_desc as [d|].
  2:{ unfold bind, ret, get_descs. destruct (manifest_descs s1);
        [intros [=]|].
      unfold pr.
      match goal with |- context [release_manifest_descriptors ?st] =>
        destruct (release_manifest_descriptors st) end. intros [=]. }
  assert (Hin : d ∈ manifest_descs s1).
  { destruct (find_module_in L (manifest_descs s1) (0, None) d) as [|]; try done.
    unfold find_module in Hfm. by rewrite Hfm. }
  unfold bind at 1.
  destruct (gb_manifest_parse_module L ok buf d s1) as [r s2] eqn:Hpm.
  assert (Hres : forall st,
            r = Some gmod ->
            (forall x, x ∈ allocated s2 -> (nalloc s1 <= x)%nat -> x ∈ allocated st) ->
            gmod_addr gmod ∈ allocated st /\ (nalloc s <= gmod_addr gmod)%nat /\
            (forall a, address (vendor_string gmod) = Some a ->
               a ∈ allocated st /\ (gmod_addr gmod < a)%nat) /\
            (forall a, address (product_string gmod) = Some a ->
               a ∈ allocated st /\ (gmod_addr gmod < a)%nat /\
               address (vendor_string gmod) <> Some a)).
  { intros st Hr Hkeep. subst r.
    destruct (parse_module_success L ok buf d s1 gmod s2 Hpm Hbelow (Hbelow d Hin))
      as (Hg & Hgin & Hv & Hp & _).
    rewrite Hg. split; [apply Hkeep; [by rewrite <- Hg|lia]|]. split; [lia|].
    split.
    - intros a Ha. destruct (Hv a Ha). split; [apply Hkeep; [done|lia]|done].
    - intros a Ha. destruct (Hp a Ha) as (? & ? & ?).
      split; [apply Hkeep; [done|lia]|done]. }
  assert (Hsub : r = Some gmod -> manifest_descs s2 ⊆ manifest_descs s1).
  { intros ->.
    by destruct (parse_module_success L ok buf d s1 gmod s2 Hpm Hbelow
                   (Hbelow d Hin)) as (_ & _ & _ & _ & ?). }
  unfold bind at 1, get_descs.
  destruct (manifest_descs s2) as [|e rest] eqn:Hrest.
  - unfold bind, ret. intros [= Hr <-]. apply Hres; done.
  - unfold bind at 1. unfold bind at 1, pr.
    unfold release_manifest_descriptors, bind, get_descs. simpl.
    rewrite Hrest.
    match goal with |- context [release_each ?l ?st] =>
      pose proof (fun x => release_each_keeps l st x) as Hk;
      destruct (release_each l st) as [[] s3] end.
    unfold ret. intros [= Hr <-]. cbn [allocated fst snd] in Hk.
    apply Hres; [done|].
    intros x Hx Hge. apply Hk; [done|].
    intros (e' & -> & He')%list_elem_of_fmap.
    assert (e' ∈ manifest_descs s1) as He1 by by apply (Hsub Hr).
    specialize (Hbelow e' He1). lia.
Qed.

Lemma parsed_module_is_live_witness :
  manifest_descs boot = [] /\
  (gb_manifest_parse spec_wire served vendor_present 32 boot).1
  = Some (Some {| gmod_addr := 2; vendor := 1; product := 2; version := 3;
                  serial_number := 0;
                  vendor_string := PTR 3 ["a"%byte; x00];
                  product_string := NULL |}) /\
  2%nat ∈ allocated (gb_manifest_parse spec_wire served vendor_present 32 boot).2.
Proof.
  assert (H1 : manifest_descs boot = []) by reflexivity.
  assert (H2 : gb_manifest_parse spec_wire served vendor_present 32 boot
               = (Some (Some {| gmod_addr := 2; vendor := 1; product := 2;
                                version := 3; serial_number := 0;
                                vendor_string := PTR 3 ["a"%byte; x00];
                                product_string := NULL |}),
                  (gb_manifest_parse spec_wire served vendor_present 32 boot).2))
    by (vm_compute; reflexivity).
  split; [exact H1|]. split; [exact (f_equal fst H2)|].
  exact (proj1 (parsed_module_is_live _ _ _ _ _ _ _ H1 H2)).
Defined.

(** The bound on the bytes the loop is given, for an accepted
    envelope. *)
Lemma scanned_size (L : wire_layout) (buf : list byte) (size : Z) :
  0 <= sizeof_manifest_header L -> envelope_ok L buf size = true ->
  size_t (size - sizeof_manifest_header L) = size - sizeof_manifest_header L /\
  0 < size - sizeof_manifest_header L < 65536.
Proof.
  intros Hh Henv. unfold envelope_ok in Henv.
  apply andb_prop in Henv as [[H1 H2]%andb_prop _].
  apply negb_true_iff, Z.leb_gt in H1. apply Z.eqb_eq in H2.
  pose proof (le16_range buf (manifest_size_off L)).
  unfold size_t, wrap. rewrite Z.mod_small; lia.
Qed.

(** X4: when the descriptor loop of [gb_manifest_parse] runs to the end
    of the buffer, the entries of the index lie end to end from the end
    of the manifest header to the end of the manifest, in the order of
    the buffer, each at least one byte long, each with its declared
    size and with a list node of its own. *)
Theorem scanned_index_tiles (L : wire_layout) (ok : nat -> bool)
    (buf : list byte) (size : Z) (s s1 : kstate) :
  0 <= sizeof_manifest_header L ->
  manifest_descs s = [] ->
  envelope_ok L buf size = true ->
  scan_manifest L ok buf size s = (Some true, s1) ->
  tiles (manifest_descs s1) (sizeof_manifest_header L) size /\
  NoDup (map md_links (manifest_descs s1)) /\
  Forall (fun d => md_size d = le_at buf (md_data d + header_size_off L) 2)
         (manifest_descs s1).
Proof.
  intros Hh He Henv Hscan.
  destruct (scanned_size L buf size Hh Henv) as (Hw & Hr).
  unfold scan_manifest in Hscan. rewrite Hw in Hscan.
  apply scan_descriptors_index in Hscan; [|lia].
  destruct Hscan as (added & Hd & _ & _ & _ & Hnd & Hall & Htiles).
  rewrite He in Hd. simpl in Hd. rewrite Hd. split.
  - replace size with (sizeof_manifest_header L + (size - sizeof_manifest_header L))
      at 1 by lia.
    by apply Htiles.
  - split; [done|]. eapply list.Forall_impl; [exact Hall|].
    by intros d ((? & _) & _).
Qed.

Lemma scanned_index_tiles_witness :
  0 <= sizeof_manifest_header spec_wire /\
  manifest_descs boot = [] /\
  envelope_ok spec_wire three_kinds 43 = true /\
  scan_manifest spec_wire served three_kinds 43 boot
  = (Some true, indexed served three_kinds 43) /\
  tiles (manifest_descs (indexed served three_kinds 43)) 4 43.
Proof.
  assert (H1 : 0 <= sizeof_manifest_header spec_wire) by (vm_compute; discriminate).
  assert (H2 : manifest_descs boot = []) by reflexivity.
  assert (H3 : envelope_ok spec_wire three_kinds 43 = true) by reflexivity.
  assert (H4 : scan_manifest spec_wire served three_kinds 43 boot
               = (Some true, indexed served three_kinds 43)) by reflexivity.
  split; [exact H1|]. split; [exact H2|]. split; [exact H3|]. split; [exact H4|].
  exact (proj1 (scanned_index_tiles _ _ _ _ _ _ H1 H2 H3 H4)).
Defined.

Lemma codes_pairwise (L : wire_layout) :
  codes_distinct L ->
  GREYBUS_TYPE_MODULE L <> GREYBUS_TYPE_DEVICE L /\
  GREYBUS_TYPE_MODULE L <> GREYBUS_TYPE_CLASS L /\
  GREYBUS_TYPE_MODULE L <> GREYBUS_TYPE_STRING L /\
  GREYBUS_TYPE_MODULE L <> GREYBUS_TYPE_CPORT L /\
  GREYBUS_TYPE_DEVICE L <> GREYBUS_TYPE_STRING L /\
  GREYBUS_TYPE_DEVICE L <> GREYBUS_TYPE_CPORT L /\
  GREYBUS_TYPE_CLASS L <> GREYBUS_TYPE_STRING L /\
  GREYBUS_TYPE_CLASS L <> GREYBUS_TYPE_CPORT L /\
  GREYBUS_TYPE_STRING L <> GREYBUS_TYPE_CPORT L.
Proof.
  unfold codes_distinct. intros H.
  apply list.NoDup_cons in H as [H1 H]. apply list.NoDup_cons in H as [H2 H].
  apply list.NoDup_cons in H as [H3 H]. apply list.NoDup_cons in H as [H4 _].
  repeat rewrite not_elem_of_cons in H1. repeat rewrite not_elem_of_cons in H2.
  repeat rewrite not_elem_of_cons in H3. repeat rewrite not_elem_of_cons in H4.
  destruct H1 as (? & ? & ? & ? & _), H2 as (? & ? & ? & _),
           H3 as (? & ? & _), H4 as (? & _).
  repeat split; assumption.
Qed.

(** What the type switch lets through. *)
Lemma accepted_checked (L : wire_layout) (buf : list byte) (desc n : Z) :
  codes_distinct L -> accepted L buf desc n = true ->
  let type := read buf desc (header_type_f L) in
  type ∈ [GREYBUS_TYPE_MODULE L; GREYBUS_TYPE_DEVICE L; GREYBUS_TYPE_CLASS L;
           GREYBUS_TYPE_STRING L; GREYBUS_TYPE_CPORT L] /\
  (type = GREYBUS_TYPE_MODULE L -> sizeof_descriptor_module L <= n) /\
  (type = GREYBUS_TYPE_CPORT L -> sizeof_descriptor_cport L <= n) /\
  (type = GREYBUS_TYPE_STRING L ->
   size_t (size_t (sizeof_descriptor_header L + sizeof_descriptor_string L)
           + read buf desc (string_length_f L)) <= n).
Proof.
  intros Hc%codes_pairwise. unfold accepted. simpl.
  destruct Hc as (? & ? & ? & ? & ? & ? & ? & ? & ?).
  destruct (Z.eqb_spec (read buf desc (header_type_f L)) (GREYBUS_TYPE_MODULE L))
    as [E|E].
  { intros Hn%negb_true_iff%Z.ltb_ge. rewrite E.
    split; [by left|]. repeat split; intros; congruence || done. }
  destruct (Z.eqb_spec (read buf desc (header_type_f L)) (GREYBUS_TYPE_DEVICE L))
    as [E1|E1].
  { intros _. rewrite E1. split; [right; by left|].
    repeat split; intros; congruence. }
  destruct (Z.eqb_spec (read buf desc (header_type_f L)) (GREYBUS_TYPE_CLASS L))
    as [E2|E2].
  { intros _. rewrite E2. split; [right; right; by left|].
    repeat split; intros; congruence. }
  destruct (Z.eqb_spec (read buf desc (header_type_f L)) (GREYBUS_TYPE_STRING L))
    as [E3|E3].
  { intros Hn%negb_true_iff%Z.ltb_ge.
    split; [rewrite E3; right; right; right; by left|].
    split; [intros; congruence|]. split; [intros; congruence|]. done. }
  destruct (Z.eqb_spec (read buf desc (header_type_f L)) (GREYBUS_TYPE_CPORT L))
    as [E4|E4]; [|done].
  intros Hn%negb_true_iff%Z.ltb_ge.
  split; [rewrite E4; right; right; right; right; by left|].
  split; [intros; congruence|]. split; [done|]. intros; congruence.
Qed.

(** X5: whatever the descriptor loop puts into the index has passed the
    checks of [identify_descriptor]: its type is one of the five known
    ones, a module or CPort descriptor is at least as long as its
    structure, a string descriptor at least as long as header, prefix
    and string together, and the descriptor with its header lies inside
    the manifest, behind the manifest header.  This holds also when the
    loop gives up on a later descriptor. *)
Theorem indexed_descriptors_checked (L : wire_layout) (ok : nat -> bool)
    (buf : list byte) (size : Z) (s s1 : kstate) (r : option bool)
    (d : manifest_desc) :
  codes_distinct L ->
  0 <= sizeof_manifest_header L ->
  manifest_descs s = [] ->
  envelope_ok L buf size = true ->
  scan_manifest L ok buf size s = (r, s1) ->
  d ∈ manifest_descs s1 ->
  md_type d ∈ [GREYBUS_TYPE_MODULE L; GREYBUS_TYPE_DEVICE L;
               GREYBUS_TYPE_CLASS L; GREYBUS_TYPE_STRING L;
               GREYBUS_TYPE_CPORT L] /\
  (md_type d = GREYBUS_TYPE_MODULE L -> sizeof_descriptor_module L <= md_size d) /\
  (md_type d = GREYBUS_TYPE_CPORT L -> sizeof_descriptor_cport L <= md_size d) /\
  (md_type d = GREYBUS_TYPE_STRING L ->
   size_t (size_t (sizeof_descriptor_header L + sizeof_descriptor_string L)
           + read buf (md_data d) (string_length_f L)) <= md_size d) /\
  sizeof_manifest_header L <= md_data d /\
  md_data d + md_size d <= size /\
  md_data d + sizeof_descriptor_header L <= size.
Proof.
  intros Hc Hh He Henv Hscan Hin.
  destruct (scanned_size L buf size Hh Henv) as (Hw & Hr).
  unfold scan_manifest in Hscan. rewrite Hw in Hscan.
  apply scan_descriptors_index in Hscan; [|lia].
  destruct Hscan as (added & Hd & _ & _ & _ & _ & Hall & _).
  rewrite He in Hd. simpl in Hd. rewrite Hd in Hin.
  rewrite list.Forall_forall in Hall.
  destruct (Hall d Hin) as ((Hsz & Hty & Hacc) & H1 & H2 & H3).
  destruct (accepted_checked L buf _ _ Hc Hacc) as (Hk & Hm & Hcp & Hst).
  simpl in *. rewrite Hty.
  split; [done|]. split; [done|]. split; [done|]. split; [done|]. lia.
Qed.

Lemma spec_wire_codes_distinct : codes_distinct spec_wire.
Proof.
  unfold codes_distinct. simpl.
  repeat (apply list.NoDup_cons; split;
          [rewrite ?not_elem_of_cons; repeat split;
           try apply not_elem_of_nil; discriminate|]).
  apply NoDup_nil_2.
Qed.

Lemma indexed_descriptors_checked_witness :
  codes_distinct spec_wire /\
  0 <= sizeof_manifest_header spec_wire /\
  manifest_descs boot = [] /\
  envelope_ok spec_wire three_kinds 43 = true /\
  {| md_links := 2; md_size := 11; md_data := 32; md_type := 2 |}
    ∈ manifest_descs (indexed served three_kinds 43) /\
  32 + 11 <= 43.
Proof.
  pose proof spec_wire_codes_distinct as H1.
  assert (H2 : 0 <= sizeof_manifest_header spec_wire) by (vm_compute; discriminate).
  assert (H3 : manifest_descs boot = []) by reflexivity.
  assert (H4 : envelope_ok spec_wire three_kinds 43 = true) by reflexivity.
  assert (H5 : scan_manifest spec_wire served three_kinds 43 boot
               = (Some true, indexed served three_kinds 43)) by reflexivity.
  assert (H6 : {| md_links := 2; md_size := 11; md_data := 32; md_type := 2 |}
                 ∈ manifest_descs (indexed served three_kinds 43)).
  { vm_compute. right. right. left. }
  split; [exact H1|]. split; [exact H2|]. split; [exact H3|]. split; [exact H4|].
  split; [exact H6|].
  exact (proj1 (proj2 (proj2 (proj2 (proj2 (proj2
           (indexed_descriptors_checked _ _ _ _ _ _ _ _ H1 H2 H3 H4 H5 H6))))))).
Defined.

(** The entry [find] returns is the first of the list that passes
    the test. *)
Lemma find_first {A : Type} (f : A -> bool) (l : list A) (d : A) :
  find f l = Some d ->
  exists i : nat, l !! i = Some d /\ f d = true /\
    forall (j : nat) (e : A), (j < i)%nat -> l !! j = Some e -> f e = false.
Proof.
  induction l as [|x l IH]; [discriminate|]. cbn [find].
  destruct (f x) eqn:Hx.
  - intros [= <-]. exists 0%nat. split; [done|]. split; [done|].
    intros j e Hj. lia.
  - intros (i & Hi & Hd & Hlow)%IH. exists (S i). split; [done|].
    split; [done|]. intros [|j] e Hj; cbn [lookup list_lookup].
    + by intros [= <-].
    + apply Hlow. lia.
Qed.

(** X6: the string [gb_string_get] returns is made of the [length]
    bytes of the first string descriptor of the index with the id
    asked for (the entry the search stops at: no entry before it is
    a string descriptor with that id) and of one NUL byte after them.
    When the index is as [identify_descriptor] fills it and the
    string of a descriptor starts no later than where header and
    string prefix end, the [length] string bytes end inside that
    descriptor; when the string does not start before the descriptor
    either, each byte of the result before the NUL is the byte of the
    buffer at a position inside that descriptor. *)
Theorem returned_string_of_first_descriptor (L : wire_layout)
    (ok : nat -> bool) (buf : list byte) (string_id : Z) (s s' : kstate)
    (a : nat) (str : list byte) :
  codes_distinct L ->
  0 <= sizeof_descriptor_header L + sizeof_descriptor_string L ->
  sizeof_descriptor_header L + sizeof_descriptor_string L
    + 256 ^ Z.of_nat (string_length_f L).2 <= 2 ^ 64 ->
  string_string_off L
    <= sizeof_descriptor_header L + sizeof_descriptor_string L ->
  Forall (entry_of L buf) (manifest_descs s) ->
  gb_string_get L ok buf string_id s = (PTR a str, s') ->
  exists (d : manifest_desc) (i : nat),
    find (is_string L buf string_id) (manifest_descs s) = Some d /\
    manifest_descs s !! i = Some d /\
    (forall (j : nat) (e : manifest_desc), (j < i)%nat ->
       manifest_descs s !! j = Some e ->
       is_string L buf string_id e = false) /\
    d ∈ manifest_descs s /\ md_type d = GREYBUS_TYPE_STRING L /\
    read buf (md_data d) (string_id_f L) = string_id /\
    str = bytes_at buf (md_data d + string_string_off L)
            (read buf (md_data d) (string_length_f L)) ++ [x00] /\
    length str = S (Z.to_nat (read buf (md_data d) (string_length_f L))) /\
    list.last str = Some x00 /\
    string_string_off L + read buf (md_data d) (string_length_f L)
      <= md_size d /\
    (0 <= string_string_off L ->
     forall k : nat,
       (k < Z.to_nat (read buf (md_data d) (string_length_f L)))%nat ->
       exists p : Z,
         md_data d <= p < md_data d + md_size d /\
         str !! k = Some (nth (Z.to_nat p) buf x00)).
Proof.
  intros Hc H0 Hmax Hoff Hidx Hget.
  apply gb_string_get_ptr in Hget as (d & Hf & _ & _ & _ & _ & _ & ->).
  destruct (find_first _ _ _ Hf) as (i & Hi & _ & Hlow).
  pose proof Hf as Hf'.
  apply find_some in Hf' as [Hin His]. apply list_elem_of_In in Hin.
  unfold is_string in His.
  apply andb_prop in His as [Hty%Z.eqb_eq Hid%Z.eqb_eq].
  rewrite list.Forall_forall in Hidx.
  destruct (Hidx d Hin) as (_ & Hrd & Hacc).
  destruct (accepted_checked L buf _ _ Hc Hacc) as (_ & _ & _ & Hstr).
  simpl in Hstr. rewrite <- Hrd in Hstr. specialize (Hstr Hty).
  pose proof (le_at_range buf (md_data d + (string_length_f L).1)
                (string_length_f L).2) as Hlen.
  fold (read buf (md_data d) (string_length_f L)) in Hlen.
  unfold size_t, wrap in Hstr.
  rewrite (Z.mod_small (sizeof_descriptor_header L + sizeof_descriptor_string L))
    in Hstr by lia.
  rewrite Z.mod_small in Hstr by lia.
  exists d, i. split; [done|]. split; [done|]. split; [done|].
  split; [done|]. split; [done|]. split; [done|]. split; [done|].
  assert (Hbytes : length (bytes_at buf (md_data d + string_string_off L)
                             (read buf (md_data d) (string_length_f L)))
                   = Z.to_nat (read buf (md_data d) (string_length_f L))).
  { unfold bytes_at. by rewrite length_map, length_seqZ. }
  split; [|split; [apply last_snoc|split; [lia|]]].
  - rewrite length_app, Hbytes. simpl. lia.
  - intros Hs k Hk.
    exists (md_data d + string_string_off L + Z.of_nat k). split; [lia|].
    rewrite lookup_app_l by (rewrite Hbytes; lia).
    unfold bytes_at. change (map ?f ?l) with (f <$> l).
    rewrite list_lookup_fmap, lookup_seqZ_lt by lia. done.
Qed.

Lemma returned_string_of_first_descriptor_witness :
  Forall (entry_of spec_wire three_kinds)
         (manifest_descs (indexed served three_kinds 43)) /\
  gb_string_get spec_wire served three_kinds 9 (indexed served three_kinds 43)
  = (PTR 3 ["a"%byte; "b"%byte; "c"%byte; "d"%byte; x00],
     (gb_string_get spec_wire served three_kinds 9
        (indexed served three_kinds 43)).2) /\
  exists d,
    find (is_string spec_wire three_kinds 9)
         (manifest_descs (indexed served three_kinds 43)) = Some d /\
    read three_kinds (md_data d) (string_id_f spec_wire) = 9 /\
    string_string_off spec_wire
      + read three_kinds (md_data d) (string_length_f spec_wire) <= md_size d.
Proof.
  assert (H1 : 0 <= sizeof_descriptor_header spec_wire
                    + sizeof_descriptor_string spec_wire)
    by (vm_compute; discriminate).
  assert (H2 : sizeof_descriptor_header spec_wire
                 + sizeof_descriptor_string spec_wire
                 + 256 ^ Z.of_nat (string_length_f spec_wire).2 <= 2 ^ 64)
    by (vm_compute; discriminate).
  assert (H3 : string_string_off spec_wire
                 <= sizeof_descriptor_header spec_wire
                    + sizeof_descriptor_string spec_wire)
    by (vm_compute; discriminate).
  assert (H4 : Forall (entry_of spec_wire three_kinds)
                 (manifest_descs (indexed served three_kinds 43))).
  { let l := eval vm_compute in (manifest_descs (indexed served three_kinds 43)) in
    change (manifest_descs (indexed served three_kinds 43)) with l.
    repeat (constructor; [repeat split; vm_compute; reflexivity|]).
    constructor. }
  assert (H5 : gb_string_get spec_wire served three_kinds 9
                 (indexed served three_kinds 43)
               = (PTR 3 ["a"%byte; "b"%byte; "c"%byte; "d"%byte; x00],
                  (gb_string_get spec_wire served three_kinds 9
                     (indexed served three_kinds 43)).2))
    by (vm_compute; reflexivity).
  split; [exact H4|]. split; [exact H5|].
  destruct (returned_string_of_first_descriptor _ _ _ _ _ _ _ _
              spec_wire_codes_distinct H1 H2 H3 H4 H5)
    as (d & i & Hf & _ & _ & _ & _ & Hid & _ & _ & _ & Hfit & _).
  exists d. split; [exact Hf|]. split; [exact Hid|exact Hfit].
Defined.

(** X7: when the descriptor loop has indexed the whole manifest and
    exactly one entry of the index is a module descriptor,
    [gb_manifest_parse] returns what [gb_manifest_parse_module] makes
    of that entry, a module record or the null pointer.  Entries that
    are left in the index afterwards do not change the result: they
    are released, with one message about excess descriptors. *)
Theorem single_module_parsed (L : wire_layout) (ok : nat -> bool)
    (buf : list byte) (size : Z) (s s1 : kstate) :
  0 <= sizeof_manifest_header L ->
  manifest_descs s = [] ->
  envelope_ok L buf size = true ->
  scan_manifest L ok buf size s = (Some true, s1) ->
  module_count L (manifest_descs s1) = 1 ->
  exists d,
    d ∈ manifest_descs s1 /\ md_type d = GREYBUS_TYPE_MODULE L /\
    let '(gmod, s2) := gb_manifest_parse_module L ok buf d s1 in
    exists s',
      gb_manifest_parse L ok buf size s = (Some gmod, s') /\
      manifest_descs s' = [] /\
      klog s' = klog s2 ++ match manifest_descs s2 with
                           | [] => []
                           | _ :: _ => [excess_descriptors]
                           end.
Proof.
  intros Hh Hempty Henv Hscan Hcount.
  rewrite parse_after_envelope by done. unfold bind at 1. rewrite Hscan.
  assert (Hlen : Z.of_nat (length (manifest_descs s1)) < 2 ^ 32).
  { destruct (scanned_size L buf size Hh Henv) as (Hw & Hr).
    unfold scan_manifest in Hscan. rewrite Hw in Hscan.
    apply scan_descriptors_length in Hscan; [|lia].
    rewrite Hempty in Hscan. simpl in Hscan. lia. }
  simpl. unfold bind at 1, get_descs.
  pose proof (find_module_count L _ Hlen) as Hfound.
  pose proof (find_module_selects L _ Hlen) as Hsel.
  destruct (find_module L (manifest_descs s1)) as [found module_desc].
  simpl in Hfound, Hsel. subst found. rewrite Hcount in *.
  destruct (Hsel eq_refl) as (d & -> & Hin & Hty).
  exists d. split; [done|]. split; [done|].
  simpl. unfold bind at 1.
  destruct (gb_manifest_parse_module L ok buf d s1) as [gmod s2].
  unfold bind at 1, get_descs.
  destruct (manifest_descs s2) as [|e rest] eqn:Hrest.
  - unfold bind, ret. eexists. split; [reflexivity|].
    split; [done|]. by rewrite app_nil_r.
  - unfold bind, ret, pr.
    match goal with |- context [release_manifest_descriptors ?st] =>
      destruct (release_manifest_descriptors_spec st) as (Hd & _ & Hl);
      destruct (release_manifest_descriptors st) as [[] s3] end.
    simpl in *. eexists. split; [reflexivity|]. done.
Qed.

Lemma single_module_parsed_witness :
  envelope_ok spec_wire three_kinds 43 = true /\
  module_count spec_wire (manifest_descs (indexed served three_kinds 43)) = 1 /\
  exists d,
    d ∈ manifest_descs (indexed served three_kinds 43) /\
    let '(gmod, s2) := gb_manifest_parse_module spec_wire served three_kinds d
                         (indexed served three_kinds 43) in
    exists s',
      gb_manifest_parse spec_wire served three_kinds 43 boot = (Some gmod, s').
Proof.
  assert (H1 : 0 <= sizeof_manifest_header spec_wire) by (vm_compute; discriminate).
  assert (H2 : manifest_descs boot = []) by reflexivity.
  assert (H3 : envelope_ok spec_wire three_kinds 43 = true) by reflexivity.
  assert (H4 : scan_manifest spec_wire served three_kinds 43 boot
               = (Some true, indexed served three_kinds 43)) by reflexivity.
  assert (H5 : module_count spec_wire
                 (manifest_descs (indexed served three_kinds 43)) = 1)
    by reflexivity.
  split; [exact H3|]. split; [exact H5|].
  destruct (single_module_parsed _ _ _ _ _ _ H1 H2 H3 H4 H5)
    as (d & Hin & _ & Hd).
  exists d. split; [exact Hin|].
  destruct (gb_manifest_parse_module spec_wire served three_kinds d
              (indexed served three_kinds 43)) as [gmod s2].
  destruct Hd as (s' & Hp & _ & _).
  exists s'. exact Hp.
Defined.

(** X8: a module descriptor that names the same string id, not zero,
    for its vendor and for its product string is rejected when the
    index holds at most one string descriptor of that id: the vendor
    string takes the descriptor out of the index, so the product
    string is not found and [gb_manifest_parse_module] returns the
    null pointer. *)
Theorem shared_string_id_rejected (L : wire_layout) (ok : nat -> bool)
    (buf : list byte) (d : manifest_desc) (s : kstate) :
  vendor_stringid L buf (md_data d) <> 0 ->
  product_stringid L buf (md_data d) = vendor_stringid L buf (md_data d) ->
  (forall e1 e2, e1 ∈ manifest_descs s -> e2 ∈ manifest_descs s ->
     is_string L buf (vendor_stringid L buf (md_data d)) e1 = true ->
     is_string L buf (vendor_stringid L buf (md_data d)) e2 = true ->
     e1 = e2) ->
  (gb_manifest_parse_module L ok buf d s).1 = None.
Proof.
  unfold vendor_stringid, product_stringid. intros Hne Hsame Hone.
  unfold gb_manifest_parse_module. unfold bind at 1.
  destruct (kmalloc ok s) as [[g|] s1] eqn:Hk; [|done].
  apply kmalloc_cases in Hk as (Hd1 & _ & _ & _).
  unfold bind at 1.
  destruct (gb_string_get L ok buf _ s1) as [pv s2] eqn:Hv.
  destruct pv as [|err|a str].
  - apply gb_string_get_cases in Hv
      as [(? & _)|[(_ & _ & ? & _)|[(_ & ? & _)|(_ & ? & ? & _ & ? & _)]]];
      done.
  - simpl. unfold bind, ret. by destruct (kfree (Some g) s2).
  - apply gb_string_get_ptr in Hv as (d0 & Hf & _ & _ & Hd2 & _).
    apply find_some in Hf as [Hin0 His0]. apply list_elem_of_In in Hin0.
    rewrite Hd1 in Hin0, Hd2.
    cbn [IS_ERR]. unfold bind at 1. rewrite Hsame.
    destruct (gb_string_get L ok buf _ s2) as [pp s3] eqn:Hp.
    destruct pp as [|err|a' str'].
    + apply gb_string_get_cases in Hp
        as [(? & _)|[(_ & _ & ? & _)|[(_ & ? & _)|(_ & ? & ? & _ & ? & _)]]];
        done.
    + simpl. unfold bind, ret, kfree. done.
    + exfalso.
      apply gb_string_get_ptr in Hp as (d1 & Hf1 & _).
      apply find_some in Hf1 as [Hin1 His1]. apply list_elem_of_In in Hin1.
      rewrite Hd2 in Hin1. apply list_elem_of_filter in Hin1 as [Hl Hin1].
      apply Hl. by rewrite (Hone d1 d0 Hin1 Hin0 His1 His0).
Qed.

Lemma shared_string_id_rejected_witness :
  vendor_stringid spec_wire shared_string (md_data first_desc) = 1 /\
  product_stringid spec_wire shared_string (md_data first_desc) = 1 /\
  (gb_string_get spec_wire served shared_string 1
     (indexed served shared_string 32)).1 = PTR 2 ["a"%byte; x00] /\
  (gb_manifest_parse_module spec_wire served shared_string first_desc
     (indexed served shared_string 32)).1 = None.
Proof.
  split; [reflexivity|]. split; [reflexivity|]. split; [reflexivity|].
  apply shared_string_id_rejected.
  - vm_compute. discriminate.
  - reflexivity.
  - intros e1 e2 H1 H2 S1 S2. revert H1 H2.
    let l := eval vm_compute in (manifest_descs (indexed served shared_string 32)) in
    change (manifest_descs (indexed served shared_string 32)) with l.
    rewrite !elem_of_cons, !elem_of_nil.
    intros [->|[->|[]]] [->|[->|[]]]; try reflexivity;
      vm_compute in S1, S2; discriminate.
Defined.

End ManifestMore.

Module ConnectionMore.
Import Kernel Connection ConnectionFacts.

(** *** The lists of the interfaces *)

Lemma list_del_add_tail (a : nat) (l : list nat) :
  a ∉ l -> Connection.list_del a (Connection.list_add_tail a l) = l.
Proof.
  unfold Connection.list_del, Connection.list_add_tail. intros Ha.
  rewrite list.filter_app. rewrite filter_cons_False by (intros H; by apply H).
  rewrite filter_nil, app_nil_r.
  induction l as [|b l IH]; [done|].
  apply not_elem_of_cons in Ha as [Hne Ha].
  rewrite filter_cons_True by done. by rewrite IH.
Qed.

Lemma default_alter (f : list nat -> list nat) (i j : nat)
    (m : gmap nat (list nat)) :
  f [] = [] ->
  default [] (alter f j m !! i)
  = if decide (i = j) then f (default [] (m !! i)) else default [] (m !! i).
Proof.
  intros Hf. destruct (decide (i = j)) as [->|Hne].
  - rewrite lookup_alter_eq. by destruct (m !! j).
  - by rewrite lookup_alter_ne.
Qed.

Section InterfaceInvariant.
Variable MAX : Z.
Variable BAD : Z.
Variable ok : nat -> bool.

Lemma ifinv_init : interface_inv init.
Proof.
  split; unfold connections_of; simpl.
  - intros i. rewrite lookup_empty. constructor.
  - intros i a. rewrite !lookup_empty. simpl. split.
    + by intros ?%elem_of_nil.
    + by intros (c & ? & _).
  - intros a [? H]. by rewrite lookup_empty in H.
Qed.

Lemma ifinv_create itf cport_id protocol_ w :
  interface_inv w ->
  interface_inv (gb_connection_create MAX ok itf cport_id protocol_ w).2.
Proof.
  intros [Hnd Hlist Hfresh]. unfold gb_connection_create.
  assert (Hsame : forall ida,
            interface_inv {| cport_id_map := ida;
                             hd_connections := hd_connections w;
                             if_connections := if_connections w;
                             objs := objs w; nalloc := S (nalloc w) |}).
  { intros ida. split; unfold connections_of; simpl; [done|done|].
    intros a Ha%Hfresh. lia. }
  destruct (ok (nalloc w)); [|apply Hsame].
  destruct (hd_connection_hd_cport_id_alloc MAX zeroed (cport_id_map w))
    as [[[] c0] ida']; [|apply Hsame].
  assert (Hnew : objs w !! nalloc w = None).
  { destruct (objs w !! nalloc w) eqn:E; [|done].
    assert (nalloc w < nalloc w)%nat by (apply Hfresh; eauto). lia. }
  assert (Hnot : forall i, nalloc w ∉ connections_of w i).
  { intros i (c & Hc & _)%Hlist. congruence. }
  unfold connections_of in *.
  split; unfold connections_of; cbn [snd if_connections objs Connection.nalloc].
  - intros i. destruct (decide (i = itf)) as [->|Hne].
    + rewrite lookup_insert_eq. simpl. unfold Connection.list_add_tail.
      apply list.NoDup_app. split; [apply Hnd|].
      split; [|apply NoDup_singleton].
      intros a Ha ->%list_elem_of_singleton. by apply (Hnot itf).
    + rewrite lookup_insert_ne by done. apply Hnd.
  - intros i a. destruct (decide (i = itf)) as [->|Hne].
    + rewrite lookup_insert_eq. simpl. unfold Connection.list_add_tail.
      rewrite elem_of_app, list_elem_of_singleton, Hlist.
      destruct (decide (a = nalloc w)) as [->|Ha].
      * rewrite lookup_insert_eq. split; [|by right].
        intros _. eexists. split; [reflexivity|done].
      * rewrite lookup_insert_ne by done. split; [|by left].
        by intros [?|?].
    + rewrite lookup_insert_ne by done. rewrite Hlist.
      destruct (decide (a = nalloc w)) as [->|Ha].
      * rewrite lookup_insert_eq, Hnew. split.
        -- by intros (c & ? & _).
        -- intros (c & [= <-] & Hc). simpl in Hc. congruence.
      * by rewrite lookup_insert_ne.
  - intros a. destruct (decide (a = nalloc w)) as [->|Ha]; [lia|].
    rewrite lookup_insert_ne by done. intros H%Hfresh. lia.
Qed.

Lemma ifinv_destroy connection w :
  interface_inv w -> interface_inv (gb_connection_destroy BAD connection w).
Proof.
  intros Hinv. destruct connection as [conn|]; [|done]. simpl.
  destruct (objs w !! conn) as [c|] eqn:Hc; [|done].
  destruct Hinv as [Hnd Hlist Hfresh].
  unfold connections_of in *.
  split; unfold connections_of; cbn [if_connections objs Connection.nalloc].
  - intros i. rewrite default_alter by done.
    destruct (decide (i = interface c)); [|apply Hnd].
    unfold Connection.list_del. apply list.NoDup_filter, Hnd.
  - intros i a. rewrite default_alter by done.
    destruct (decide (i = interface c)) as [->|Hne].
    + unfold Connection.list_del. rewrite list_elem_of_filter, Hlist. split.
      * intros [Ha (c0 & Hc0 & Hi)]. exists c0. split; [|done].
        apply lookup_delete_Some. done.
      * intros (c0 & [Ha Hc0]%lookup_delete_Some & Hi).
        split; [congruence|eauto].
    + rewrite Hlist. split.
      * intros (c0 & Hc0 & Hi). exists c0. split; [|done].
        apply lookup_delete_Some. split; [|done]. intros <-. congruence.
      * intros (c0 & [Ha Hc0]%lookup_delete_Some & Hi). eauto.
  - intros a [x [_ Hx]%lookup_delete_Some]. apply Hfresh. eauto.
Qed.

Lemma ifinv_op_id conn w :
  interface_inv w -> interface_inv (gb_connection_op_id_at conn w).2.
Proof.
  intros Hinv. unfold gb_connection_op_id_at.
  destruct (objs w !! conn) as [c|] eqn:Hc; [|done]. simpl.
  destruct Hinv as [Hnd Hlist Hfresh]. unfold connections_of in *.
  split; unfold connections_of; cbn [if_connections objs Connection.nalloc].
  - done.
  - intros i a. rewrite Hlist. destruct (decide (a = conn)) as [->|Hne].
    + rewrite lookup_insert_eq, Hc. split.
      * intros (c0 & [= <-] & Hi). eexists. split; [reflexivity|done].
      * intros (c0 & [= <-] & Hi). eexists. split; [reflexivity|done].
    + by rewrite lookup_insert_ne.
  - intros a. destruct (decide (a = conn)) as [->|Hne].
    + intros _. apply Hfresh. eauto.
    + rewrite lookup_insert_ne by done. apply Hfresh.
Qed.

Lemma ifinv_reachable w : reachable MAX BAD ok w -> interface_inv w.
Proof.
  unfold reachable. intros H.
  apply (rtc_ind_r (R := step MAX BAD ok) interface_inv init ifinv_init);
    [|exact H].
  intros x y _ Hstep IH. destruct Hstep as [itf cp pr w0|conn w0 _|w0|conn w0].
  - by apply ifinv_create.
  - by apply ifinv_destroy.
  - by apply ifinv_destroy.
  - by apply ifinv_op_id.
Qed.
End InterfaceInvariant.

Lemma two_connections_reachable : reachable 8 255 served two_connections.
Proof.
  eapply rtc_l; [apply (step_create 8 255 served 0%nat 3 0)|].
  apply rtc_once. apply (step_create 8 255 served 1%nat 5 0).
Qed.

(** X9: in every state reached by creating and destroying connections,
    the list of an interface holds exactly the live connections made
    for that interface, each of them once; so every live connection is
    on the list of its own interface and on no other. *)
Theorem interface_lists_agree (MAX BAD : Z) (ok : nat -> bool) (w : world) :
  reachable MAX BAD ok w ->
  (forall i, NoDup (connections_of w i)) /\
  (forall i a, a ∈ connections_of w i <->
     exists c, objs w !! a = Some c /\ interface c = i) /\
  (forall a c i, objs w !! a = Some c ->
     a ∈ connections_of w i <-> i = interface c).
Proof.
  intros [Hnd Hlist _]%ifinv_reachable. split; [done|]. split; [done|].
  intros a c i Hc. rewrite Hlist. split.
  - intros (c0 & Hc0 & Hi). congruence.
  - intros ->. eauto.
Qed.

Lemma interface_lists_agree_witness :
  reachable 8 255 served two_connections /\
  forall i a, a ∈ connections_of two_connections i <->
    exists c, objs two_connections !! a = Some c /\ interface c = i.
Proof.
  split; [exact two_connections_reachable|].
  exact (proj1 (proj2 (interface_lists_agree 8 255 served _
                         two_connections_reachable))).
Defined.

(** *** Create and destroy *)

Lemma clearbit_setbit (ida id : Z) :
  0 <= id -> Z.testbit ida id = false -> Z.clearbit (Z.setbit ida id) id = ida.
Proof.
  intros Hid Hfree. apply Z.bits_inj'. intros n Hn.
  rewrite Z.clearbit_eqb, Z.setbit_eqb by done.
  destruct (Z.eqb_spec id n) as [->|Hne]; simpl.
  - by rewrite Hfree.
  - by rewrite andb_true_r.
Qed.

(** X10: destroying a connection right after it was created gives
    back the registry as it was before: the same id map, the same list
    of the host, the same connection objects and the same list for
    every interface. *)
Theorem create_destroy_round_trip (MAX BAD : Z) (ok : nat -> bool)
    (HMAX : MAX <= 65536) (w w' : world) (itf : nat) (cport_id protocol_ : Z)
    (conn : nat) :
  reachable MAX BAD ok w ->
  gb_connection_create MAX ok itf cport_id protocol_ w = (Some conn, w') ->
  let w'' := gb_connection_destroy BAD (Some conn) w' in
  cport_id_map w'' = cport_id_map w /\
  hd_connections w'' = hd_connections w /\
  objs w'' = objs w /\
  (forall i, connections_of w'' i = connections_of w i).
Proof.
  intros Hr. pose proof (inv_reachable MAX BAD ok HMAX w Hr) as Hreg.
  pose proof (ifinv_reachable MAX BAD ok w Hr) as [_ Hlist Hfresh].
  destruct Hreg as [_ Hhd _ _ _ _].
  unfold gb_connection_create.
  assert (Hnew : objs w !! nalloc w = None).
  { destruct (objs w !! nalloc w) eqn:E; [|done].
    assert (nalloc w < nalloc w)%nat by (apply Hfresh; eauto). lia. }
  destruct (ok (nalloc w)); [|done].
  destruct (alloc_cases MAX zeroed (cport_id_map w) HMAX)
    as [(id & Hlf & ->)|(Hex & ->)]; [|done].
  intros [= <- <-]. destruct Hlf as (Hid & Hfree & _).
  cbn [gb_connection_destroy objs]. rewrite lookup_insert_eq.
  cbn [hd_connection_hd_cport_id_free hd_cport_id set_hd_cport_id zeroed
       cport_id_map hd_connections if_connections objs interface].
  unfold ida_simple_remove. split; [|split; [|split]].
  - apply clearbit_setbit; [lia|done].
  - apply list_del_add_tail. intros [c Hc]%Hhd. congruence.
  - by apply delete_insert_id.
  - intros i. unfold connections_of. cbn [if_connections].
    rewrite default_alter by done.
    destruct (decide (i = itf)) as [->|Hne].
    + rewrite lookup_insert_eq. simpl. apply list_del_add_tail.
      intros (c & Hc & _)%Hlist. congruence.
    + by rewrite lookup_insert_ne.
Qed.

Lemma create_destroy_round_trip_witness :
  8 <= 65536 /\ reachable 8 255 served one_connection.2 /\
  objs (gb_connection_destroy 255 (Some 1%nat) two_connections)
  = objs one_connection.2.
Proof.
  assert (Hr : reachable 8 255 served one_connection.2).
  { apply rtc_once. apply (step_create 8 255 served 0%nat 3 0). }
  assert (Hc : gb_connection_create 8 served 1 5 0 one_connection.2
               = (Some 1%nat, two_connections)) by reflexivity.
  split; [lia|]. split; [exact Hr|].
  exact (proj1 (proj2 (proj2
    (create_destroy_round_trip 8 255 served ltac:(lia) _ _ _ _ _ _ Hr Hc)))).
Defined.

(** *** How many connections a host can have *)

Section Capacity.
Variable MAX : Z.
Variable w : world.
Hypothesis Hinv : registry_inv MAX w.

Lemma id_at_live a :
  a ∈ hd_connections w ->
  exists c, objs w !! a = Some c /\ id_at w a = hd_cport_id c.
Proof.
  intros [c Hc]%(inv_listed _ _ Hinv). exists c. split; [done|].
  unfold id_at. by rewrite Hc.
Qed.

Lemma ids_nodup : NoDup (id_at w <$> hd_connections w).
Proof.
  apply NoDup_fmap_2_strong; [|apply (inv_nodup _ _ Hinv)].
  intros a b (ca & Ha & Hia)%id_at_live (cb & Hb & Hib)%id_at_live E.
  apply (inv_unique _ _ Hinv a b ca cb Ha Hb). congruence.
Qed.

Lemma ids_below a :
  a ∈ id_at w <$> hd_connections w -> a ∈ seqZ 0 MAX.
Proof.
  intros (x & -> & (c & Hc & ->)%id_at_live)%list_elem_of_fmap.
  apply elem_of_seqZ. destruct (inv_held _ _ Hinv x c Hc) as [? _]. lia.
Qed.

Lemma live_count_le : 0 <= MAX -> Z.of_nat (length (hd_connections w)) <= MAX.
Proof.
  intros HM.
  pose proof (submseteq_length _ _ (NoDup_submseteq _ _ ids_nodup ids_below))
    as Hle.
  rewrite length_fmap, length_seqZ in Hle. lia.
Qed.

Lemma exhausted_iff_full :
  0 <= MAX ->
  exhausted MAX (cport_id_map w) <->
  Z.of_nat (length (hd_connections w)) = MAX.
Proof.
  intros HM. pose proof (live_count_le HM) as Hle. split.
  - intros Hex.
    assert (Hsub : seqZ 0 MAX ⊆+ id_at w <$> hd_connections w).
    { apply NoDup_submseteq; [apply NoDup_seqZ|].
      intros j Hj%elem_of_seqZ.
      destruct (inv_used _ _ Hinv j) as (a & c & Hc & Hid); [apply Hex; lia|].
      apply list_elem_of_fmap. exists a. split.
      - unfold id_at. by rewrite Hc.
      - apply (inv_listed _ _ Hinv). eauto. }
    apply submseteq_length in Hsub.
    rewrite length_fmap, length_seqZ in Hsub. lia.
  - intros Hfull j Hj.
    assert (Hperm : (id_at w <$> hd_connections w) ≡ₚ seqZ 0 MAX).
    { apply submseteq_length_Permutation.
      - apply (NoDup_submseteq _ _ ids_nodup ids_below).
      - rewrite length_fmap, length_seqZ. lia. }
    assert (Hin : j ∈ id_at w <$> hd_connections w).
    { rewrite Hperm. apply elem_of_seqZ. lia. }
    apply list_elem_of_fmap in Hin as (a & -> & (c & Hc & ->)%id_at_live).
    by destruct (inv_held _ _ Hinv a c Hc) as [_ ?].
Qed.
End Capacity.

(** X11: a host never has more than [HOST_DEV_CPORT_ID_MAX] live
    connections, and [gb_connection_create] returns the null pointer
    exactly when the allocation of the connection fails or that many
    connections are alive.  A call that returns the null pointer
    leaves the id map, the lists and the connection objects as they
    were. *)
Theorem create_fails_iff_no_room (MAX BAD : Z) (ok : nat -> bool)
    (HMAX : 0 <= MAX <= 65536) (w : world) (itf : nat)
    (cport_id protocol_ : Z) :
  reachable MAX BAD ok w ->
  let r := gb_connection_create MAX ok itf cport_id protocol_ w in
  Z.of_nat (length (hd_connections w)) <= MAX /\
  (r.1 = None <->
   ok (nalloc w) = false \/ Z.of_nat (length (hd_connections w)) = MAX) /\
  (r.1 = None ->
   cport_id_map r.2 = cport_id_map w /\ hd_connections r.2 = hd_connections w /\
   if_connections r.2 = if_connections w /\ objs r.2 = objs w).
Proof.
  intros Hr. assert (HM : MAX <= 65536) by lia.
  pose proof (inv_reachable MAX BAD ok HM w Hr) as Hinv.
  pose proof (exhausted_iff_full MAX w Hinv ltac:(lia)) as Hfull.
  simpl. split; [apply (live_count_le MAX w Hinv); lia|].
  unfold gb_connection_create.
  destruct (ok (nalloc w)).
  2:{ split; [|done]. split; [by left|done]. }
  destruct (alloc_cases MAX zeroed (cport_id_map w) HM)
    as [(id & Hlf & ->)|(Hex & ->)]; cbn [fst snd].
  - split; [|done]. split; [done|]. intros [?|Hlen]; [done|].
    apply Hfull in Hlen. destruct Hlf as (Hid & Hfree & _).
    rewrite Hlen in Hfree by done. done.
  - split; [|done]. split; [|done]. intros _. right. by apply Hfull.
Qed.

Lemma full_host_reachable : reachable 1 255 served full_host.
Proof. apply rtc_once. apply (step_create 1 255 served 0%nat 3 0). Qed.

Lemma create_fails_iff_no_room_witness :
  0 <= 1 <= 65536 /\ reachable 1 255 served full_host /\
  Z.of_nat (length (hd_connections full_host)) = 1 /\
  (gb_connection_create 1 served 1 5 0 full_host).1 = None.
Proof.
  assert (Hlen : Z.of_nat (length (hd_connections full_host)) = 1)
    by reflexivity.
  split; [lia|]. split; [exact full_host_reachable|]. split; [exact Hlen|].
  apply (proj1 (proj2 (create_fails_iff_no_room 1 255 served ltac:(lia)
                         full_host 1 5 0 full_host_reachable))).
  right. exact Hlen.
Defined.

(** *** Operation ids after the counter has overflowed *)

(** X12: the counter of a connection is an [int]; when the increment
    takes it to a negative value, the remainder of the division by
    [U16_MAX] is negative or zero and [gb_connection_op_id] returns its
    16-bit truncation: 0, or 65536 less the remainder of the magnitude,
    a value from 2 to 65535.  So a negative counter never gives the id
    1 and can give 65535, which a counter that is not negative never
    does; the call at [INT_MAX] returns 32768. *)
Theorem op_id_negative_counter (c : gb_connection) :
  atomic_inc_return (op_cycle c) < 0 ->
  let v := atomic_inc_return (op_cycle c) in
  let id := (gb_connection_op_id c).1 in
  id = (65536 - (- v) mod 65535) mod 65536 /\
  id <> 1 /\ 0 <= id <= 65535 /\
  (id = 65535 <-> (- v) mod 65535 = 1) /\
  (op_cycle c = 2 ^ 31 - 1 -> v = - 2 ^ 31 /\ id = 32768).
Proof.
  unfold gb_connection_op_id, atomic_inc_return. cbn [fst]. intros Hneg.
  unfold u16, wrap, c_rem, int, U16_MAX in *.
  change (2 ^ 31) with 2147483648 in *. change (2 ^ 32) with 4294967296 in *.
  change (2 ^ 16) with 65536.
  repeat split; Z.to_euclidean_division_equations; lia.
Qed.

Lemma op_id_negative_counter_witness :
  atomic_inc_return (op_cycle at_int_max) < 0 /\
  (gb_connection_op_id at_int_max).1 = 32768.
Proof.
  assert (H : atomic_inc_return (op_cycle at_int_max) < 0) by reflexivity.
  split; [exact H|].
  exact (proj2 (proj2 (proj2 (proj2 (proj2 (op_id_negative_counter at_int_max H))))
                  eq_refl)).
Defined.

End ConnectionMore.

Module Es1Facts.
Import Kernel Es1.

(** *** The pool of urbs for outgoing transfers *)

Lemma filter_ne_id (a : nat) (l : list nat) :
  a ∉ l -> filter (fun b => b ≠ a) l = l.
Proof.
  induction l as [|b l IH]; [done|].
  intros [Hne Ha]%not_elem_of_cons.
  rewrite filter_cons_True by done. by rewrite IH.
Qed.

Lemma check_urb_status_frame (u : urb) (s : state) :
  let s' := (check_urb_status u s).2 in
  cport_out_urb s' = cport_out_urb s /\
  cport_out_urb_busy s' = cport_out_urb_busy s /\
  urbs s' = urbs s /\ nurb s' = nurb s /\ heap s' = heap s /\
  nblock s' = nblock s /\ faulted s' = faulted s.
Proof. unfold check_urb_status. repeat case_match; done. Qed.

Lemma pool_lookup (s : state) (i : nat) :
  pool_ok s -> cport_out_urb s !! i = Some <$> pool_of s !! i.
Proof. intros [Hf _ _ _ _ _]. rewrite Hf at 1. apply list_lookup_fmap. Qed.

Lemma pool_arrays (s : state) :
  pool_ok s ->
  take NUM_CPORT_OUT_URB (cport_out_urb s) = cport_out_urb s /\
  take NUM_CPORT_OUT_URB (cport_out_urb_busy s) = cport_out_urb_busy s.
Proof.
  intros [Hf Hs Hb _ _ _]. split; apply take_ge; [|lia].
  rewrite Hf, length_fmap. lia.
Qed.

Section Pool.
Variable usb_alloc_ok : nat -> bool.

(** The two ways through [next_free_urb]. *)
Lemma next_free_urb_cases (s : state) :
  pool_ok s ->
  (exists i u,
     cport_out_urb_busy s !! i = Some false /\
     (forall j, (j < i)%nat -> cport_out_urb_busy s !! j = Some true) /\
     pool_of s !! i = Some u /\
     next_free_urb usb_alloc_ok s
     = (Some u, with_busy (<[i := true]> (cport_out_urb_busy s)) s)) \/
  ((forall b, b ∈ cport_out_urb_busy s -> b = true) /\
   next_free_urb usb_alloc_ok s
   = usb_alloc_urb usb_alloc_ok (emit (printk no_free_urbs) s)).
Proof.
  intros Hok. destruct (pool_arrays s Hok) as [_ Htake].
  unfold next_free_urb. rewrite Htake.
  destruct (list_find _ (cport_out_urb_busy s)) as [[i b]|] eqn:Hfind.
  - left. apply list_find_Some in Hfind as (Hi & -> & Hlow).
    assert (Hlt : (i < length (pool_of s))%nat).
    { apply lookup_lt_Some in Hi.
      rewrite (pool_size _ Hok). by rewrite (pool_flags _ Hok) in Hi. }
    destruct (lookup_lt_is_Some_2 _ _ Hlt) as [u Hu].
    exists i, u. split; [done|]. split.
    + intros j Hj.
      destruct (lookup_lt_is_Some_2 (cport_out_urb_busy s) j) as [y Hy].
      { apply lookup_lt_Some in Hi. lia. }
      specialize (Hlow j y Hy Hj). destruct y; [done|]. by exfalso.
    + split; [done|]. rewrite (pool_lookup s i Hok), Hu. done.
  - right. apply list_find_None in Hfind.
    rewrite list.Forall_forall in Hfind. split; [|done].
    intros b Hb. specialize (Hfind b Hb). by destruct b.
Qed.

(** The two ways through [cport_out_callback]. *)
Lemma cport_out_callback_cases (u : urb) (g : gbuf) (s : state) :
  pool_ok s ->
  let st := check_urb_status u s in
  let g' := set_hcd_data None (set_status st.1 g) in
  (exists i, pool_of s !! i = Some (urb_addr u) /\
     cport_out_callback u g s
     = (g', with_busy (<[i := false]> (cport_out_urb_busy s)) st.2)) \/
  ((urb_addr u ∉ pool_of s) /\
   cport_out_callback u g s = (g', usb_free_urb (Some (urb_addr u)) st.2)).
Proof.
  intros Hok. destruct (pool_arrays s Hok) as [Htake _].
  pose proof (check_urb_status_frame u s) as (Hp & Hb & _).
  unfold cport_out_callback. simpl in *.
  destruct (check_urb_status u s) as [status_ s1]. simpl in *.
  rewrite Hp, Htake, Hb.
  destruct (list_find _ (cport_out_urb s)) as [[i p]|] eqn:Hfind.
  - left. apply list_find_Some in Hfind as (Hi & -> & _).
    exists i. split; [|done].
    rewrite (pool_lookup s i Hok) in Hi.
    destruct (pool_of s !! i); simpl in Hi; congruence.
  - right. split; [|done]. apply list_find_None in Hfind.
    rewrite list.Forall_forall in Hfind. intros Hin.
    apply (Hfind (Some (urb_addr u))); [|done].
    rewrite (pool_full _ Hok). by apply list_elem_of_fmap_2.
Qed.
End Pool.

Lemma probed_ok : pool_ok probed.
Proof.
  split; try reflexivity.
  - change (NoDup (seq 0 8)). apply NoDup_seq.
  - intros u Hu. exact Hu.
  - intros u Hu. change (u ∈ seq 0 8) in Hu. apply elem_of_seq in Hu.
    change (nurb probed) with 8%nat. lia.
Qed.

(** X13: [next_free_urb] on a pool of eight urbs takes the urb of the
    lowest slot that is not busy and marks that slot, and no other,
    busy, without a message and without an allocation; only when all
    eight slots are busy does it write its message and allocate an urb,
    which is then none of the pool, and it returns the null pointer
    only when that allocation fails. *)
Theorem next_free_urb_lowest_free (usb_alloc_ok : nat -> bool) (s : state) :
  pool_ok s ->
  (forall i, cport_out_urb_busy s !! i = Some false ->
     (forall j, (j < i)%nat -> cport_out_urb_busy s !! j = Some true) ->
     exists u, pool_of s !! i = Some u /\
       next_free_urb usb_alloc_ok s
       = (Some u, with_busy (<[i := true]> (cport_out_urb_busy s)) s)) /\
  ((forall b, b ∈ cport_out_urb_busy s -> b = true) ->
     next_free_urb usb_alloc_ok s
     = usb_alloc_urb usb_alloc_ok (emit (printk no_free_urbs) s) /\
     forall u, (next_free_urb usb_alloc_ok s).1 = Some u -> u ∉ pool_of s) /\
  ((next_free_urb usb_alloc_ok s).1 = None ->
     (forall b, b ∈ cport_out_urb_busy s -> b = true) /\
     usb_alloc_ok (nurb s) = false).
Proof.
  intros Hok.
  destruct (next_free_urb_cases usb_alloc_ok s Hok)
    as [(i & u & Hi & Hlow & Hu & Heq)|(Hall & Heq)].
  - split; [|split].
    + intros k Hk Hklow.
      assert (k = i) as ->.
      { destruct (Nat.lt_trichotomy k i) as [H|[H|H]]; [|done|].
        - rewrite (Hlow k H) in Hk. done.
        - rewrite (Hklow i H) in Hi. done. }
      exists u. done.
    + intros Hall. exfalso.
      assert (false = true); [|done].
      apply Hall. by eapply list_elem_of_lookup_2.
    + rewrite Heq. done.
  - split; [|split].
    + intros i Hi _. exfalso.
      assert (false = true); [|done].
      apply Hall. by eapply list_elem_of_lookup_2.
    + intros _. split; [done|]. rewrite Heq. unfold usb_alloc_urb. simpl.
      destruct (usb_alloc_ok (nurb s)); [|done].
      intros u [= <-] Hin.
      assert (nurb s < nurb s)%nat; [|lia].
      apply (pool_fresh _ Hok), (pool_alloc _ Hok), Hin.
    + rewrite Heq. unfold usb_alloc_urb. simpl.
      destruct (usb_alloc_ok (nurb s)); done.
Qed.

Lemma next_free_urb_lowest_free_witness :
  pool_ok probed /\
  next_free_urb served probed
  = (Some 0%nat, with_busy (<[0%nat := true]> (cport_out_urb_busy probed)) probed).
Proof.
  split; [exact probed_ok|].
  destruct (proj1 (next_free_urb_lowest_free served probed probed_ok) 0%nat
              eq_refl ltac:(intros j Hj; lia)) as (u & Hu & Heq).
  injection Hu as <-. exact Heq.
Defined.

(** X14: an urb taken with [next_free_urb] and given back in
    [cport_out_callback] leaves the pool as it was: the same slots are
    busy and the same urbs are allocated, whether the urb came from the
    pool or was allocated because the pool was used up; the gbuf no
    longer points to the urb. *)
Theorem urb_returns_to_pool (usb_alloc_ok : nat -> bool) (s s1 : state)
    (a : nat) (u : urb) (g : gbuf) :
  pool_ok s ->
  next_free_urb usb_alloc_ok s = (Some a, s1) ->
  urb_addr u = a ->
  let r := cport_out_callback u g s1 in
  cport_out_urb_busy r.2 = cport_out_urb_busy s /\
  cport_out_urb r.2 = cport_out_urb s /\
  urbs r.2 = urbs s /\ heap r.2 = heap s /\ faulted r.2 = faulted s /\
  hcd_data r.1 = None.
Proof.
  intros Hok Hnext Ha.
  destruct (next_free_urb_cases usb_alloc_ok s Hok)
    as [(i & x & Hi & _ & Hx & Heq)|(Hall & Heq)]; rewrite Heq in Hnext.
  - injection Hnext as -> <-.
    assert (Hok1 : pool_ok (with_busy (<[i := true]> (cport_out_urb_busy s)) s)).
    { destruct Hok. split; try done. simpl. by rewrite length_insert. }
    pose proof (check_urb_status_frame u
      (with_busy (<[i := true]> (cport_out_urb_busy s)) s))
      as (Hp & Hb & Hu & _ & Hh & _ & Hf).
    destruct (cport_out_callback_cases u g _ Hok1)
      as [(k & Hk & ->)|(Hnot & _)].
    + simpl in Hk. unfold pool_of in Hk. simpl in Hk. fold (pool_of s) in Hk.
      assert (k = i) as ->.
      { rewrite Ha in Hk.
        apply (NoDup_lookup _ _ _ _ (pool_nodup _ Hok) Hk Hx). }
      cbv zeta.
      cbn [fst snd with_busy cport_out_urb cport_out_urb_busy urbs heap faulted
           hcd_data set_hcd_data] in *.
      rewrite Hp, Hu, Hh, Hf.
      rewrite list_insert_insert_eq, list_insert_id by done. done.
    + exfalso. apply Hnot. rewrite Ha. apply list_elem_of_lookup_2 with i.
      exact Hx.
  - unfold usb_alloc_urb in Hnext. cbn [nurb emit urbs] in Hnext.
    destruct (usb_alloc_ok (nurb s)); [|done].
    injection Hnext as <- <-.
    set (s1 := with_urbs _ _ _).
    assert (Hok1 : pool_ok s1).
    { destruct Hok. split; try done; simpl.
      - intros x Hx. right. by apply pool_alloc0.
      - intros x [->|Hx]%elem_of_cons; [lia|].
        specialize (pool_fresh0 x Hx). lia. }
    pose proof (check_urb_status_frame u s1) as (Hp & Hb & Hu & _ & Hh & _ & Hf).
    destruct (cport_out_callback_cases u g _ Hok1)
      as [(k & Hk & _)|(_ & ->)].
    + exfalso. rewrite Ha in Hk.
      assert (nurb s < nurb s)%nat; [|lia].
      apply (pool_fresh _ Hok), (pool_alloc _ Hok).
      by apply list_elem_of_lookup_2 with k.
    + cbv zeta. subst s1.
      cbn [fst snd with_urbs emit usb_free_urb cport_out_urb cport_out_urb_busy
           urbs heap faulted hcd_data set_hcd_data] in *.
      rewrite Hb, Hp, Hu, Hh, Hf, Ha.
      rewrite filter_cons_False by (intros H; by apply H).
      split; [done|]. split; [done|]. split; [|done].
      apply filter_ne_id. intros Hx.
      pose proof (pool_fresh _ Hok _ Hx). lia.
Qed.

Lemma urb_returns_to_pool_witness :
  pool_ok probed /\
  (next_free_urb served probed).1 = Some 0%nat /\
  cport_out_urb_busy
    (cport_out_callback
       {| urb_addr := 0; urb_status := 0; actual_length := 5; urb_buffer := [] |}
       (gbuf_for 3 true) (next_free_urb served probed).2).2
  = cport_out_urb_busy probed.
Proof.
  assert (H : next_free_urb served probed
              = (Some 0%nat, (next_free_urb served probed).2)) by reflexivity.
  split; [exact probed_ok|]. split; [reflexivity|].
  exact (proj1 (urb_returns_to_pool served probed _ 0%nat
                  {| urb_addr := 0; urb_status := 0; actual_length := 5;
                     urb_buffer := [] |}
                  (gbuf_for 3 true) probed_ok H eq_refl)).
Defined.

(** *** Urbs in flight *)

Lemma check_urb_status_state (u : urb) (s : state) :
  (check_urb_status u s).2 = s \/
  exists c, (check_urb_status u s).2 = emit c s.
Proof. unfold check_urb_status. repeat case_match; simpl; eauto. Qed.

Lemma pool_ok_emit (c : call) (s : state) : pool_ok s -> pool_ok (emit c s).
Proof. intros []. by split. Qed.

Lemma pool_ok_with_busy (v : list bool) (s : state) :
  length v = NUM_CPORT_OUT_URB -> pool_ok s -> pool_ok (with_busy v s).
Proof. intros Hv []. by split. Qed.

Section InFlight.
Variable usb_alloc_ok : nat -> bool.
Variable s0 : state.
Hypothesis Hok0 : pool_ok s0.

Lemma flight_init :
  (forall b, b ∈ cport_out_urb_busy s0 -> b = false) -> flight_inv s0 (s0, []).
Proof.
  intros Hidle. split; simpl; try done.
  - constructor.
  - intros i u _. split; [|by intros ?%elem_of_nil].
    intros Hb. assert (true = false); [|done].
    apply Hidle. by eapply list_elem_of_lookup_2.
  - intros u. split; [by left|]. by intros [?|?%elem_of_nil].
  - by intros u ?%elem_of_nil.
Qed.

(** Taking the urb of slot [i] of the pool. *)
Lemma flight_take_pool (s : state) (fl : list nat) (i u : nat) :
  flight_inv s0 (s, fl) ->
  cport_out_urb_busy s !! i = Some false -> pool_of s !! i = Some u ->
  flight_inv s0 (with_busy (<[i := true]> (cport_out_urb_busy s)) s, u :: fl).
Proof.
  intros [Hok Hpool Hnd Hbusy Hurbs Hdyn Hn] Hi Hu. simpl in *.
  split; simpl; try done.
  - apply pool_ok_with_busy; [|done]. rewrite length_insert.
    apply (pool_flags _ Hok).
  - apply list.NoDup_cons. split; [|done].
    intros Hin%(Hbusy i u Hu). congruence.
  - intros k x Hx. change (pool_of (with_busy _ s)) with (pool_of s) in Hx.
    rewrite elem_of_cons. destruct (decide (k = i)) as [->|Hne].
    + rewrite list_lookup_insert_eq by (by eapply lookup_lt_Some).
      split; [|done]. intros _. left. congruence.
    + rewrite list_lookup_insert_ne by done. rewrite (Hbusy k x Hx).
      split; [by right|]. intros [->|?]; [|done]. exfalso. apply Hne.
      apply (NoDup_lookup _ _ _ _ (pool_nodup _ Hok) Hx Hu).
  - intros x. rewrite Hurbs, elem_of_cons. split; [tauto|].
    intros [?|[->|?]]; [tauto| |tauto].
    apply Hurbs, (pool_alloc _ Hok). by apply list_elem_of_lookup_2 with i.
  - intros x [->|Hx]%elem_of_cons; [|by apply Hdyn].
    left. change (pool_of (with_busy _ s)) with (pool_of s).
    by apply list_elem_of_lookup_2 with i.
Qed.

(** An allocation of an urb, served or not. *)
Lemma flight_alloc (s : state) (fl : list nat) (c : call) :
  flight_inv s0 (s, fl) ->
  flight_inv s0 (with_urbs (nurb s :: urbs s) (S (nurb s)) (emit c s),
                 nurb s :: fl) /\
  flight_inv s0 (with_urbs (urbs s) (S (nurb s)) (emit c s), fl).
Proof.
  intros [Hok Hpool Hnd Hbusy Hurbs Hdyn Hn]. simpl in *.
  assert (Hnew : nurb s ∉ urbs s).
  { intros Hin. pose proof (pool_fresh _ Hok _ Hin). lia. }
  split; split; simpl; try done.
  - destruct Hok. split; try done; simpl.
    + intros x Hx. right. by apply pool_alloc0.
    + intros x [->|Hx]%elem_of_cons; [lia|].
      specialize (pool_fresh0 x Hx). lia.
  - apply list.NoDup_cons. split; [|done].
    intros Hin. apply Hnew, Hurbs. by right.
  - intros k x Hx.
    change (pool_of (with_urbs _ _ (emit c s))) with (pool_of s) in Hx.
    rewrite (Hbusy k x Hx), elem_of_cons. split; [by right|].
    intros [->|?]; [|done]. exfalso. apply Hnew, (pool_alloc _ Hok).
    by apply list_elem_of_lookup_2 with k.
  - intros x. rewrite !elem_of_cons, Hurbs. tauto.
  - intros x [->|Hx]%elem_of_cons; [by right|by apply Hdyn].
  - lia.
  - destruct Hok. split; try done; simpl.
    intros x Hx. specialize (pool_fresh0 x Hx). lia.
  - lia.
Qed.

(** Giving back an urb that is in flight. *)
Lemma flight_give (s : state) (fl : list nat) (u : urb) (g : gbuf) :
  flight_inv s0 (s, fl) -> urb_addr u ∈ fl ->
  flight_inv s0 ((cport_out_callback u g s).2,
                 filter (fun a => a ≠ urb_addr u) fl).
Proof.
  intros Hinv Hin.
  assert (Hst : flight_inv s0 ((check_urb_status u s).2, fl)).
  { destruct (check_urb_status_state u s) as [->|(c & ->)]; [done|].
    destruct Hinv as [Hok Hpool Hnd Hbusy Hurbs Hdyn Hn].
    split; simpl in *; try done. by apply pool_ok_emit. }
  assert (Hpo : pool_of (check_urb_status u s).2 = pool_of s).
  { unfold pool_of. by destruct (check_urb_status_frame u s) as (-> & _). }
  assert (Hbs : cport_out_urb_busy (check_urb_status u s).2
                = cport_out_urb_busy s).
  { by destruct (check_urb_status_frame u s) as (_ & -> & _). }
  destruct (cport_out_callback_cases u g s (fi_ok _ _ Hinv))
    as [(i & Hi & ->)|(Hnot & ->)]; cbn [snd];
    rewrite <- ?Hbs; rewrite <- Hpo in *;
    destruct Hst as [Hok Hpool Hnd Hbusy Hurbs Hdyn Hn];
    set (st := (check_urb_status u s).2) in *; simpl in *.
  - split; simpl; try done.
    + apply pool_ok_with_busy; [|done]. rewrite length_insert.
      apply (pool_flags _ Hok).
    + by apply list.NoDup_filter.
    + intros k x Hx. change (pool_of (with_busy _ st)) with (pool_of st) in Hx.
      rewrite list_elem_of_filter. destruct (decide (k = i)) as [->|Hne].
      * rewrite list_lookup_insert_eq.
        2:{ rewrite (pool_flags _ Hok), <- (pool_size _ Hok).
            by eapply lookup_lt_Some. }
        split; [done|]. intros [Hx' _]. congruence.
      * rewrite list_lookup_insert_ne by done. rewrite (Hbusy k x Hx).
        split; [|tauto]. intros Hfl. split; [|done]. intros ->.
        apply Hne. apply (NoDup_lookup _ _ _ _ (pool_nodup _ Hok) Hx Hi).
    + intros x. rewrite Hurbs, list_elem_of_filter. split; [|tauto].
      intros [?|Hx]; [by left|].
      destruct (decide (x = urb_addr u)) as [->|Hne]; [|tauto].
      left. apply (pool_alloc _ Hok0).
      unfold pool_of in *. rewrite <- Hpool.
      by apply list_elem_of_lookup_2 with i.
    + intros x [_ Hx]%list_elem_of_filter. by apply Hdyn.
  - assert (Hge : (nurb s0 <= urb_addr u)%nat).
    { destruct (Hdyn _ Hin) as [?|?]; [done|done]. }
    split; simpl; try done.
    + destruct Hok. split; try done; simpl.
      * intros x Hx. apply list_elem_of_filter. split; [|by apply pool_alloc0].
        intros ->. done.
      * intros x [_ Hx]%list_elem_of_filter. by apply pool_fresh0.
    + by apply list.NoDup_filter.
    + intros k x Hx.
      change (pool_of (with_urbs _ _ st)) with (pool_of st) in Hx.
      rewrite (Hbusy k x Hx), list_elem_of_filter. split; [|tauto].
      intros Hfl. split; [|done]. intros ->. apply Hnot.
      by apply list_elem_of_lookup_2 with k.
    + intros x. rewrite !list_elem_of_filter, Hurbs. split; [tauto|].
      intros [Hx|?]; [|tauto]. split; [|by left].
      intros ->. pose proof (pool_fresh _ Hok0 _ Hx). lia.
    + intros x [_ Hx]%list_elem_of_filter. by apply Hdyn.
Qed.

Lemma flight_step (p p' : state * list nat) :
  pool_step usb_alloc_ok p p' -> flight_inv s0 p -> flight_inv s0 p'.
Proof.
  intros [s fl u s' Hnext|s fl s' Hnext|s fl u g Hin] Hinv.
  - destruct (next_free_urb_cases usb_alloc_ok s (fi_ok _ _ Hinv))
      as [(i & x & Hi & _ & Hx & Heq)|(_ & Heq)]; rewrite Heq in Hnext.
    + injection Hnext as <- <-. by apply flight_take_pool.
    + unfold usb_alloc_urb in Hnext. cbn [nurb emit urbs] in Hnext.
      destruct (usb_alloc_ok (nurb s)); [|done].
      injection Hnext as <- <-. by apply flight_alloc.
  - destruct (next_free_urb_cases usb_alloc_ok s (fi_ok _ _ Hinv))
      as [(i & x & Hi & _ & Hx & Heq)|(_ & Heq)]; rewrite Heq in Hnext; [done|].
    unfold usb_alloc_urb in Hnext. cbn [nurb emit urbs] in Hnext.
    destruct (usb_alloc_ok (nurb s)); [done|].
    injection Hnext as <-. by apply flight_alloc.
  - by apply flight_give.
Qed.

Lemma flight_reachable (p : state * list nat) :
  (forall b, b ∈ cport_out_urb_busy s0 -> b = false) ->
  rtc (pool_step usb_alloc_ok) (s0, []) p -> flight_inv s0 p.
Proof.
  intros Hidle H.
  apply (rtc_ind_r (R := pool_step usb_alloc_ok) (flight_inv s0) (s0, [])
           (flight_init Hidle)); [|exact H].
  intros x y _ Hstep IH. by apply (flight_step x).
Qed.
End InFlight.

(** X15: however the calls of [next_free_urb] and the completions in
    [cport_out_callback] follow each other, starting from a pool that
    is not in use: no urb is in flight twice, every urb in flight is
    allocated, a slot of the pool is busy exactly while its urb is in
    flight, and the allocated urbs are those of the start and those
    in flight; so with nothing in flight no slot is busy and no urb
    allocated on the way is left. *)
Theorem urb_in_flight_once (usb_alloc_ok : nat -> bool) (s0 s : state)
    (fl : list nat) :
  pool_ok s0 ->
  (forall b, b ∈ cport_out_urb_busy s0 -> b = false) ->
  rtc (pool_step usb_alloc_ok) (s0, []) (s, fl) ->
  NoDup fl /\
  (forall u, u ∈ fl -> u ∈ urbs s) /\
  (forall i u, pool_of s !! i = Some u ->
     (cport_out_urb_busy s !! i = Some true <-> u ∈ fl)) /\
  (forall u, u ∈ urbs s <-> u ∈ urbs s0 \/ u ∈ fl) /\
  pool_of s = pool_of s0.
Proof.
  intros Hok0 Hidle Hr.
  destruct (flight_reachable usb_alloc_ok s0 Hok0 _ Hidle Hr)
    as [Hok Hpool Hnd Hbusy Hurbs Hdyn Hn]. simpl in *.
  split; [done|]. split; [|split; [done|split; [done|]]].
  - intros u Hu. apply Hurbs. by right.
  - unfold pool_of. by rewrite Hpool.
Qed.

Lemma urb_in_flight_once_witness :
  pool_ok probed /\
  rtc (pool_step served) (probed, [])
      ((next_free_urb served probed).2, [0%nat]) /\
  NoDup [0%nat].
Proof.
  assert (Hidle : forall b, b ∈ cport_out_urb_busy probed -> b = false).
  { intros b Hb. change (b ∈ replicate 8 false) in Hb.
    by apply elem_of_replicate in Hb as [-> _]. }
  assert (Hr : rtc (pool_step served) (probed, [])
                 ((next_free_urb served probed).2, [0%nat])).
  { apply rtc_once. by apply Es1.pool_take. }
  split; [exact probed_ok|]. split; [exact Hr|].
  exact (proj1 (urb_in_flight_once served probed _ _ probed_ok Hidle Hr)).
Defined.

(** *** Buffers of gbufs *)

Lemma byte_of_u8 (v : Z) : Manifest.byte_of (u8 v) = Manifest.byte_of v.
Proof.
  unfold Manifest.byte_of, u8, wrap. change (2 ^ 8) with 256.
  by rewrite Z.mod_mod.
Qed.

Lemma u32_small (v : Z) : 0 <= v < 2 ^ 32 -> u32 v = v.
Proof. intros H. unfold u32, wrap. by rewrite Z.mod_small. Qed.

Lemma store_first (b n : nat) (v : Z) (s : state) :
  heap s !! b = Some (x00 :: replicate n x00) ->
  store {| block := b; offset := 0 |} v s
  = with_heap (<[b := Manifest.byte_of v :: replicate n x00]> (heap s))
              (nblock s) s.
Proof.
  intros H. unfold store. cbn [block offset]. rewrite H.
  cbn [length]. rewrite Nat2Z.inj_succ.
  replace (0 <? Z.succ (Z.of_nat (length (replicate n x00)))) with true
    by (symmetry; apply Z.ltb_lt; lia).
  reflexivity.
Qed.

Lemma kfree_block (b : nat) (l : list byte) (s : state) :
  heap s !! b = Some l ->
  kfree (Some {| block := b; offset := 0 |}) s
  = with_heap (delete b (heap s)) (nblock s) s.
Proof. intros H. unfold kfree. cbn [block offset]. by rewrite H. Qed.

(** X16: [alloc_gbuf_data] for a size below 2^32 - 1 ends in one of
    three ways.  It returns 0: the block is [size] zero bytes, for an
    outbound gbuf behind one byte that holds the remote cport id, the
    gbuf points to the first of the [size] bytes, and [free_gbuf_data]
    gives back exactly this block.  It returns -ENOMEM when the
    allocation fails, or -EINVAL when the remote cport id is above 255,
    and then the gbuf and the heap are as before: the block allocated
    before the check of the id is freed.  A size above
    [ES1_GBUF_MSG_SIZE] changes none of this.  For an outbound gbuf of
    size 2^32 - 1 the sum with the reserved byte wraps to zero and the
    cport id is written outside the block. *)
Theorem alloc_gbuf_data_cases (ES1_GBUF_MSG_SIZE : Z) (kzalloc_ok : nat -> bool)
    (g : gbuf) (s : state) :
  faulted s = false ->
  (forall b, is_Some (heap s !! b) -> (b < nblock s)%nat) ->
  let id := Connection.interface_cport_id (connection g) in
  (forall size, 0 <= size < 2 ^ 32 - 1 ->
     let '(r, g', s') :=
       alloc_gbuf_data ES1_GBUF_MSG_SIZE kzalloc_ok g size s in
     (r = 0 /\ kzalloc_ok (nblock s) = true /\ id <= 255 /\
      transfer_buffer g' =
        Some {| block := nblock s; offset := if outbound g then 1 else 0 |} /\
      transfer_buffer_length g' = size /\
      heap s' =
        <[nblock s := (if outbound g then [Manifest.byte_of id] else [])
                      ++ replicate (Z.to_nat size) x00]> (heap s) /\
      faulted s' = false /\
      heap (free_gbuf_data g' s') = heap s /\
      faulted (free_gbuf_data g' s') = false) \/
     (r = - ENOMEM /\ kzalloc_ok (nblock s) = false /\ g' = g /\
      heap s' = heap s /\ faulted s' = false) \/
     (r = - EINVAL /\ 255 < id /\ g' = g /\
      heap s' = heap s /\ faulted s' = false)) /\
  (outbound g = true -> kzalloc_ok (nblock s) = true -> id <= 255 ->
   faulted (alloc_gbuf_data ES1_GBUF_MSG_SIZE kzalloc_ok g (2 ^ 32 - 1) s).2
   = true).
Proof.
  intros Hf Hfresh id.
  assert (Hnew : heap s !! nblock s = None).
  { destruct (heap s !! nblock s) eqn:E; [|done].
    assert (nblock s < nblock s)%nat by (apply Hfresh; eauto). lia. }
  split.
  - intros size Hsize. unfold alloc_gbuf_data, kzalloc.
    set (s1 := if size >? ES1_GBUF_MSG_SIZE then _ else s).
    assert (H1 : heap s1 = heap s /\ nblock s1 = nblock s /\
                 faulted s1 = faulted s).
    { subst s1. by destruct (size >? ES1_GBUF_MSG_SIZE). }
    destruct H1 as (Hh1 & Hn1 & Hf1). rewrite Hn1.
    clearbody s1.
    destruct (kzalloc_ok (nblock s)) eqn:Hok.
    2:{ right. left. simpl. rewrite Hh1, Hf1. done. }
    fold id. change (u16 U8_MAX) with 255.
    destruct (id >? 255) eqn:Hid.
    { right. right. unfold kfree. cbn [heap emit with_heap block offset].
      rewrite lookup_insert_eq. cbn [Z.eqb heap with_heap faulted emit].
      rewrite Hh1, Hf1, delete_insert_id by done.
      split; [done|]. split; [lia|done]. }
    destruct (outbound g) eqn:Hout; cbv beta iota zeta; left.
    + rewrite u32_small by lia.
      replace (Z.to_nat (1 + size)) with (S (Z.to_nat size)) by lia.
      cbn [replicate].
      rewrite (store_first _ (Z.to_nat size))
        by (cbn [heap with_heap]; apply lookup_insert_eq).
      unfold free_gbuf_data.
      cbn [set_buffer transfer_buffer transfer_buffer_length outbound].
      rewrite Hout. unfold ptr_add. cbn [block offset].
      change (0 + 1 + -1) with 0. change (0 + 1) with 1.
      rewrite (kfree_block _ (Manifest.byte_of (u8 id)
                              :: replicate (Z.to_nat size) x00))
        by (cbn [heap with_heap]; apply lookup_insert_eq).
      cbn [heap with_heap faulted nblock].
      rewrite insert_insert_eq, Hh1, Hf1, delete_insert_id by done.
      rewrite byte_of_u8.
      split; [done|]. split; [done|]. split; [lia|].
      split; [done|]. split; [done|]. split; [done|]. split; [done|]. done.
    + rewrite u32_small by lia. rewrite Z.add_0_l. unfold free_gbuf_data.
      cbn [set_buffer transfer_buffer transfer_buffer_length outbound].
      rewrite Hout.
      rewrite (kfree_block _ (replicate (Z.to_nat size) x00))
        by (cbn [heap with_heap]; apply lookup_insert_eq).
      cbn [heap with_heap faulted nblock].
      rewrite Hh1, Hf1, delete_insert_id by done.
      split; [done|]. split; [done|]. split; [lia|].
      split; [done|]. split; [done|]. split; [done|]. split; [done|]. done.
  - intros Hout Hok Hid. unfold alloc_gbuf_data, kzalloc.
    set (s1 := if _ >? ES1_GBUF_MSG_SIZE then _ else s).
    assert (H1 : nblock s1 = nblock s).
    { subst s1. by destruct (_ >? ES1_GBUF_MSG_SIZE). }
    rewrite H1, Hok, Hout. fold id. change (u16 U8_MAX) with 255.
    destruct (id >? 255) eqn:E; [lia|].
    unfold store. cbn [snd heap with_heap block offset].
    rewrite lookup_insert_eq. reflexivity.
Qed.

Lemma alloc_gbuf_data_cases_witness :
  faulted probed = false /\
  (alloc_gbuf_data 4096 served (gbuf_for 3 true) 4 probed).1.1 = 0 /\
  heap (alloc_gbuf_data 4096 served (gbuf_for 3 true) 4 probed).2
  = {[ 0%nat := [Manifest.byte_of 3; x00; x00; x00; x00] ]}.
Proof.
  assert (H1 : faulted probed = false) by reflexivity.
  assert (H2 : forall b, is_Some (heap probed !! b) -> (b < nblock probed)%nat).
  { intros b [x Hx]. simpl in Hx. by rewrite lookup_empty in Hx. }
  split; [exact H1|].
  pose proof (proj1 (alloc_gbuf_data_cases 4096 served (gbuf_for 3 true) probed
                       H1 H2) 4 ltac:(lia)) as H.
  destruct (alloc_gbuf_data 4096 served (gbuf_for 3 true) 4 probed)
    as [[r g'] s'] eqn:E.
  assert (Hr : r = 0) by (injection E as <- _ _; reflexivity).
  destruct H as [(_ & _ & _ & _ & _ & Hh & _)|[(Hr' & _)|(Hr' & _)]];
    [|rewrite Hr in Hr'; discriminate..].
  split; [exact Hr|]. exact Hh.
Defined.

(** What a successful [alloc_gbuf_data] for an outbound gbuf leaves. *)
Lemma alloc_gbuf_data_outbound (ES1_GBUF_MSG_SIZE : Z)
    (kzalloc_ok : nat -> bool) (g g1 : gbuf) (size : Z) (s s1 : state) :
  0 <= size < 2 ^ 32 - 1 -> outbound g = true ->
  alloc_gbuf_data ES1_GBUF_MSG_SIZE kzalloc_ok g size s = (0, g1, s1) ->
  g1 = set_buffer (Some {| block := nblock s; offset := 1 |}) size g /\
  heap s1 !! nblock s
  = Some (Manifest.byte_of (Connection.interface_cport_id (connection g))
          :: replicate (Z.to_nat size) x00) /\
  cport_out_urb s1 = cport_out_urb s /\
  cport_out_urb_busy s1 = cport_out_urb_busy s /\
  urbs s1 = urbs s /\ nurb s1 = nurb s.
Proof.
  intros Hsize Hout. unfold alloc_gbuf_data, kzalloc.
  set (s0 := if size >? ES1_GBUF_MSG_SIZE then _ else s).
  assert (H0 : nblock s0 = nblock s /\ cport_out_urb s0 = cport_out_urb s /\
               cport_out_urb_busy s0 = cport_out_urb_busy s /\
               urbs s0 = urbs s /\ nurb s0 = nurb s).
  { subst s0. by destruct (size >? ES1_GBUF_MSG_SIZE). }
  destruct H0 as (Hn & Hp & Hb & Hu & Hnu). clearbody s0. rewrite Hn.
  destruct (kzalloc_ok (nblock s)); [|intros [= H]; unfold ENOMEM in H; lia].
  destruct (_ >? u16 U8_MAX); [intros [= H]; unfold EINVAL in H; lia|].
  rewrite Hout, u32_small by lia.
  replace (Z.to_nat (1 + size)) with (S (Z.to_nat size)) by lia.
  cbn [replicate].
  rewrite (store_first _ (Z.to_nat size))
    by (cbn [heap with_heap]; apply lookup_insert_eq).
  intros [= <- <-]. cbn [heap with_heap cport_out_urb cport_out_urb_busy urbs nurb].
  rewrite insert_insert_eq, lookup_insert_eq, byte_of_u8. done.
Qed.

(** X17: the transfer that [submit_gbuf] hands to the USB core for an
    outbound gbuf prepared by [alloc_gbuf_data] starts at the first
    byte of the gbuf's block, which holds the remote cport id, and is
    [size] + 1 bytes long, the whole block.  With an urb from
    [next_free_urb], [submit_gbuf] returns what [usb_submit_urb]
    returns, -ENOMEM included, and leaves the urb taken whatever that
    is: the urb stays allocated and its slot in the pool busy, also
    when the submission failed.  Without an urb it returns -ENOMEM,
    submits nothing and leaves the gbuf as it is. *)
Theorem outbound_transfer_frames_cport_id (ES1_GBUF_MSG_SIZE : Z)
    (kzalloc_ok usb_alloc_ok : nat -> bool) (submit_result : Z)
    (g g1 : gbuf) (size : Z) (s s1 : state) :
  0 <= size < 2 ^ 32 - 1 -> outbound g = true -> pool_ok s ->
  alloc_gbuf_data ES1_GBUF_MSG_SIZE kzalloc_ok g size s = (0, g1, s1) ->
  let '(r, g2, s2) := submit_gbuf usb_alloc_ok submit_result g1 s1 in
  ((next_free_urb usb_alloc_ok s1).1 = None /\ r = - ENOMEM /\ g2 = g1 /\
   s2 = (next_free_urb usb_alloc_ok s1).2) \/
  (exists u,
     (next_free_urb usb_alloc_ok s1).1 = Some u /\ r = submit_result /\
     hcd_data g2 = Some u /\
     list.last (trace s2)
     = Some (usb_submit_urb u
               (Some (Some {| block := nblock s; offset := 0 |}, size + 1))) /\
     heap s2 !! nblock s
     = Some (Manifest.byte_of (Connection.interface_cport_id (connection g))
             :: replicate (Z.to_nat size) x00) /\
     u ∈ urbs s2 /\
     (forall i, pool_of s2 !! i = Some u ->
        cport_out_urb_busy s2 !! i = Some true)).
Proof.
  intros Hsize Hout Hok Halloc.
  apply alloc_gbuf_data_outbound in Halloc
    as (-> & Hheap & Hp & Hb & Hu & Hn); [|done..].
  assert (Hok1 : pool_ok s1).
  { destruct Hok. split; unfold pool_of in *; rewrite ?Hp, ?Hb, ?Hu, ?Hn; done. }
  unfold submit_gbuf.
  cbn [set_buffer transfer_buffer transfer_buffer_length fmap option_fmap
       option_map ptr_add block offset].
  change (1 + -1) with 0. rewrite u32_small by lia.
  destruct (next_free_urb_cases usb_alloc_ok s1 Hok1)
    as [(i & u & Hi & _ & Hx & ->)|(_ & ->)].
  - right. exists u. cbn [fst snd]. split; [done|]. split; [done|].
    split; [done|]. cbn [trace emit heap with_busy urbs cport_out_urb_busy].
    split; [apply last_snoc|]. split; [done|]. split.
    + apply (pool_alloc _ Hok1). by apply list_elem_of_lookup_2 with i.
    + intros k Hk. change (pool_of (emit _ (with_busy _ s1))) with (pool_of s1) in Hk.
      assert (k = i) as ->
        by apply (NoDup_lookup _ _ _ _ (pool_nodup _ Hok1) Hk Hx).
      apply list_lookup_insert_eq. by eapply lookup_lt_Some.
  - unfold usb_alloc_urb. cbn [nurb emit urbs].
    destruct (usb_alloc_ok (nurb s1)); [|by left].
    right. exists (nurb s1). cbn [fst snd]. split; [done|]. split; [done|].
    split; [done|].
    cbn [trace emit heap with_urbs urbs cport_out_urb_busy].
    split; [apply last_snoc|]. split; [done|]. split; [by left|].
    intros k Hk.
    change (pool_of (emit _ (with_urbs _ _ (emit _ s1)))) with (pool_of s1) in Hk.
    assert (nurb s1 < nurb s1)%nat; [|lia].
    apply (pool_fresh _ Hok1), (pool_alloc _ Hok1).
    by apply list_elem_of_lookup_2 with k.
Qed.

Lemma outbound_transfer_frames_cport_id_witness :
  pool_ok probed /\
  alloc_gbuf_data 4096 served (gbuf_for 3 true) 4 probed
  = (0, (alloc_gbuf_data 4096 served (gbuf_for 3 true) 4 probed).1.2,
     (alloc_gbuf_data 4096 served (gbuf_for 3 true) 4 probed).2) /\
  exists g2 s2,
    submit_gbuf served (- ENOMEM)
      (alloc_gbuf_data 4096 served (gbuf_for 3 true) 4 probed).1.2
      (alloc_gbuf_data 4096 served (gbuf_for 3 true) 4 probed).2
    = (- ENOMEM, g2, s2) /\
    (next_free_urb served
       (alloc_gbuf_data 4096 served (gbuf_for 3 true) 4 probed).2).1
    = Some 0%nat /\
    hcd_data g2 = Some 0%nat /\
    cport_out_urb_busy s2 !! 0%nat = Some true.
Proof.
  assert (Ha : alloc_gbuf_data 4096 served (gbuf_for 3 true) 4 probed
     = (0, (alloc_gbuf_data 4096 served (gbuf_for 3 true) 4 probed).1.2,
        (alloc_gbuf_data 4096 served (gbuf_for 3 true) 4 probed).2))
    by reflexivity.
  split; [exact probed_ok|]. split; [exact Ha|].
  pose proof (outbound_transfer_frames_cport_id 4096 served served (- ENOMEM)
                (gbuf_for 3 true) _ 4 probed _ ltac:(lia) eq_refl probed_ok Ha)
    as H.
  destruct (submit_gbuf served (- ENOMEM) _ _) as [[r g2] s2] eqn:E.
  exists g2, s2.
  destruct H as [(Hn & _)|(u & Hu & -> & Hg & _ & _ & _ & Hbusy)].
  - discriminate Hn.
  - assert (Hu0 : u = 0%nat) by (injection Hu as <-; reflexivity).
    subst u.
    split; [reflexivity|]. split; [exact Hu|]. split; [exact Hg|].
    apply Hbusy.
    assert (Hp : pool_of s2 = pool_of probed)
      by (injection E as _ <-; reflexivity).
    rewrite Hp. reflexivity.
Defined.

(** *** Incoming transfers *)

Lemma byte_at_byte_of (v : Z) (l : list byte) :
  0 <= v <= 255 -> Manifest.byte_at (Manifest.byte_of v :: l) 0 = v.
Proof.
  intros Hv. unfold Manifest.byte_at, Manifest.byte_of. simpl.
  rewrite Z.mod_small by lia.
  destruct (Byte.of_N (Z.to_N v)) as [b|] eqn:E.
  - apply Byte.to_of_N in E. simpl. rewrite E. lia.
  - apply Byte.of_N_None_iff in E. lia.
Qed.

Lemma bytes_at_middle (c : byte) (l rest : list byte) :
  Manifest.bytes_at (c :: l ++ rest) 1 (Z.of_nat (length l)) = l.
Proof.
  unfold Manifest.bytes_at. apply list_eq. intros i.
  rewrite list_lookup_fmap.
  destruct (decide (i < length l)%nat) as [Hi|Hi].
  - rewrite lookup_seqZ_lt by lia. simpl.
    replace (Z.to_nat (1 + Z.of_nat i)) with (S i) by lia. simpl.
    rewrite nth_lookup, lookup_app_l by done.
    destruct (lookup_lt_is_Some_2 l i Hi) as [x Hx]. by rewrite Hx.
  - rewrite lookup_seqZ_ge by lia. simpl.
    symmetry. apply lookup_ge_None_2. lia.
Qed.

(** X18: [cport_in_callback] takes the first byte of a transfer that
    completed with status 0 as the cport id and hands the following
    [actual_length] - 1 bytes to [greybus_cport_in], so a transfer that
    consists of a cport id and a payload, as the outbound path frames
    it, is split into these two again; then it submits the urb again.
    An empty transfer is answered with a message and the urb is
    submitted again.  On one of the six statuses of a device that is
    gone it only writes messages: nothing is handed on and the urb is
    not submitted again.  On any other status it writes a message and
    submits the urb again. *)
Theorem cport_in_callback_cases (submit_result : Z) (u : urb) (s : state) :
  let s' := cport_in_callback submit_result u s in
  let again :=
    usb_submit_urb (urb_addr u) None
    :: (if submit_result =? 0 then []
        else [printk (submit_error submit_result)]) in
  (urb_status u = 0 -> 0 < actual_length u < 2 ^ 32 ->
   trace s' = trace s ++
     greybus_cport_in (Manifest.byte_at (urb_buffer u) 0)
       (Manifest.bytes_at (urb_buffer u) 1 (actual_length u - 1)) :: again) /\
  (forall id payload rest,
     urb_status u = 0 -> 0 <= id <= 255 ->
     urb_buffer u = Manifest.byte_of id :: payload ++ rest ->
     actual_length u = 1 + Z.of_nat (length payload) ->
     actual_length u < 2 ^ 32 ->
     trace s' = trace s ++ greybus_cport_in id payload :: again) /\
  (urb_status u = 0 -> actual_length u = 0 ->
   trace s' = trace s ++ printk no_cport_id :: again) /\
  (urb_status u ∈ [- EOVERFLOW; - ECONNRESET; - ENOENT; - ESHUTDOWN;
                    - EILSEQ; - EPROTO] ->
   exists l, trace s' = trace s ++ l /\
             forall c, c ∈ l -> exists m, c = printk m) /\
  (urb_status u ∉ [0; - EOVERFLOW; - ECONNRESET; - ENOENT; - ESHUTDOWN;
                    - EILSEQ; - EPROTO] ->
   trace s' = trace s ++ printk (unknown_status (urb_status u)) :: again).
Proof.
  assert (Hdeliver : urb_status u = 0 -> 0 < actual_length u < 2 ^ 32 ->
    trace (cport_in_callback submit_result u s) = trace s ++
     greybus_cport_in (Manifest.byte_at (urb_buffer u) 0)
       (Manifest.bytes_at (urb_buffer u) 1 (actual_length u - 1))
     :: usb_submit_urb (urb_addr u) None
     :: (if submit_result =? 0 then []
         else [printk (submit_error submit_result)])).
  { intros Hst Hlen. unfold cport_in_callback, check_urb_status, resubmit.
    rewrite Hst. simpl. rewrite u32_small by lia.
    destruct (Z.eqb_spec (actual_length u) 0) as [E|_]; [lia|].
    destruct (submit_result =? 0); simpl; by rewrite <- ?app_assoc. }
  cbv zeta. split; [exact Hdeliver|]. split; [|split; [|split]].
  - intros id payload rest Hst Hid Hbuf Hlen Hmax.
    rewrite Hdeliver by (done || lia).
    rewrite Hbuf, byte_at_byte_of by done.
    replace (actual_length u - 1) with (Z.of_nat (length payload)) by lia.
    by rewrite bytes_at_middle.
  - intros Hst Hlen. unfold cport_in_callback, check_urb_status, resubmit.
    rewrite Hst, Hlen. simpl.
    destruct (submit_result =? 0); simpl; by rewrite <- ?app_assoc.
  - intros Hin. unfold cport_in_callback, check_urb_status.
    repeat (apply elem_of_cons in Hin as [->|Hin]);
      [..|by apply elem_of_nil in Hin]; simpl.
    + eexists. split; [by rewrite <- app_assoc|].
      intros c Hc. simpl in Hc.
      repeat (apply elem_of_cons in Hc as [->|Hc]); eauto.
      by apply elem_of_nil in Hc.
    + eexists. split; [reflexivity|]. intros c [->|Hc%elem_of_nil]%elem_of_cons;
        [eauto|done].
    + eexists. split; [reflexivity|]. intros c [->|Hc%elem_of_nil]%elem_of_cons;
        [eauto|done].
    + eexists. split; [reflexivity|]. intros c [->|Hc%elem_of_nil]%elem_of_cons;
        [eauto|done].
    + eexists. split; [reflexivity|]. intros c [->|Hc%elem_of_nil]%elem_of_cons;
        [eauto|done].
    + eexists. split; [reflexivity|]. intros c [->|Hc%elem_of_nil]%elem_of_cons;
        [eauto|done].
  - intros Hnot. repeat rewrite not_elem_of_cons in Hnot.
    destruct Hnot as (H0 & H1 & H2 & H3 & H4 & H5 & H6 & _).
    unfold cport_in_callback, check_urb_status, resubmit.
    destruct (Z.eqb_spec (urb_status u) 0); [done|].
    destruct (Z.eqb_spec (urb_status u) (- EOVERFLOW)); [done|].
    destruct (Z.eqb_spec (urb_status u) (- ECONNRESET)); [done|].
    destruct (Z.eqb_spec (urb_status u) (- ENOENT)); [done|].
    destruct (Z.eqb_spec (urb_status u) (- ESHUTDOWN)); [done|].
    destruct (Z.eqb_spec (urb_status u) (- EILSEQ)); [done|].
    destruct (Z.eqb_spec (urb_status u) (- EPROTO)); [done|].
    simpl. destruct (submit_result =? 0); simpl; by rewrite <- ?app_assoc.
Qed.

Lemma cport_in_callback_cases_witness :
  trace (cport_in_callback 0
           {| urb_addr := 9; urb_status := 0; actual_length := 3;
              urb_buffer := [Manifest.byte_of 7; "h"%byte; "i"%byte; x00] |}
           probed)
  = [greybus_cport_in 7 ["h"%byte; "i"%byte]; usb_submit_urb 9 None].
Proof.
  exact (proj1 (proj2 (cport_in_callback_cases 0
           {| urb_addr := 9; urb_status := 0; actual_length := 3;
              urb_buffer := [Manifest.byte_of 7; "h"%byte; "i"%byte; x00] |}
           probed)) 7 ["h"%byte; "i"%byte] [x00] eq_refl ltac:(lia) eq_refl
           eq_refl ltac:(simpl; lia)).
Defined.

End Es1Facts.

Module LowmemFacts.
Import Kernel Lowmem.

(** *** The thresholds *)

Section Thresholds.
Variable v : vm.
Variable gfp_cma : bool.
Variable st : lmk.

Lemma thresholds_first (i fuel k : nat) (minfree : Z) :
  (i <= k < i + fuel)%nat -> below v gfp_cma st k ->
  (forall j, (i <= j < k)%nat -> ~ below v gfp_cma st j) ->
  (thresholds v gfp_cma st i fuel minfree).1 = nth k (lowmem_adj st) 0.
Proof.
  revert i minfree. induction fuel as [|fuel IH]; intros i minfree Hk Hb Hlow;
    [lia|].
  cbn [thresholds].
  destruct (Z.ltb_spec (other_free v gfp_cma) (nth i (lowmem_minfree st) 0))
    as [H1|H1];
    destruct (Z.ltb_spec (other_file v) (nth i (lowmem_minfree st) 0))
      as [H2|H2]; cbn [andb].
  - destruct (decide (i = k)) as [->|Hne]; [done|].
    exfalso. apply (Hlow i); [lia|]. by split.
  - destruct (decide (i = k)) as [->|Hne]; [destruct Hb; lia|].
    apply IH; [lia|done|]. intros j Hj. apply Hlow. lia.
  - destruct (decide (i = k)) as [->|Hne]; [destruct Hb; lia|].
    apply IH; [lia|done|]. intros j Hj. apply Hlow. lia.
  - destruct (decide (i = k)) as [->|Hne]; [destruct Hb; lia|].
    apply IH; [lia|done|]. intros j Hj. apply Hlow. lia.
Qed.

Lemma thresholds_none (i fuel : nat) (minfree : Z) :
  (forall j, (i <= j < i + fuel)%nat -> ~ below v gfp_cma st j) ->
  (thresholds v gfp_cma st i fuel minfree).1 = OOM_SCORE_ADJ_MAX + 1.
Proof.
  revert i minfree. induction fuel as [|fuel IH]; intros i minfree Hlow;
    [reflexivity|].
  cbn [thresholds].
  destruct (Z.ltb_spec (other_free v gfp_cma) (nth i (lowmem_minfree st) 0))
    as [H1|H1];
    destruct (Z.ltb_spec (other_file v) (nth i (lowmem_minfree st) 0))
      as [H2|H2]; cbn [andb].
  - exfalso. apply (Hlow i); [lia|]. by split.
  - apply IH. intros j Hj. apply Hlow. lia.
  - apply IH. intros j Hj. apply Hlow. lia.
  - apply IH. intros j Hj. apply Hlow. lia.
Qed.
End Thresholds.

(** X19: the scan takes the [oom_score_adj] limit of the first
    threshold that both the free pages and the file pages are below,
    among the entries that both arrays have; when one of the two
    counters is at or above each of these thresholds, [lowmem_scan]
    returns [SHRINK_STOP] whatever the processes are, kills nothing
    and leaves its variables alone. *)
Theorem lowmem_scan_first_threshold (v : vm) (gfp_cma : bool) (st : lmk) :
  (forall k, Z.of_nat k < array_size st -> below v gfp_cma st k ->
     (forall j, (j < k)%nat -> ~ below v gfp_cma st j) ->
     min_score_adj v gfp_cma st = nth k (lowmem_adj st) 0) /\
  ((forall j, Z.of_nat j < array_size st -> ~ below v gfp_cma st j) ->
   forall cfg HZ jiffies procs,
     lowmem_scan cfg HZ v jiffies gfp_cma st procs = (SHRINK_STOP, None, st)).
Proof.
  split.
  - intros k Hk Hb Hlow. unfold min_score_adj.
    apply thresholds_first; [lia|done|]. intros j Hj. apply Hlow. lia.
  - intros Hnone cfg HZ jiffies procs. unfold lowmem_scan, min_score_adj.
    rewrite thresholds_none; [done|].
    intros j Hj. apply Hnone. lia.
Qed.

Lemma lowmem_scan_first_threshold_witness :
  min_score_adj tight true defaults = 6.
Proof.
  apply (proj1 (lowmem_scan_first_threshold tight true defaults) 2%nat).
  - reflexivity.
  - split; reflexivity.
  - intros j Hj [H1 H2].
    destruct j as [|[|j]]; [| |lia]; vm_compute in H1; discriminate.
Defined.

(** *** The choice of the task *)

Section Choice.
Variable cfg : config.
Variable v : vm.
Variable jiffies : Z.
Variable gfp_cma : bool.
Variable st : lmk.

Lemma tasksize_range (p : task) :
  - 2 ^ 31 <= tasksize_of cfg v p < 2 ^ 31.
Proof.
  assert (Hint : forall x, - 2 ^ 31 <= int x < 2 ^ 31).
  { intros x. unfold int. pose proof (Z.mod_pos_bound (x + 2 ^ 31) (2 ^ 32)).
    lia. }
  unfold tasksize_of. repeat case_match; apply Hint.
Qed.

Lemma examine_size (tsk : process) (p : task) (n : Z) :
  examine cfg v jiffies gfp_cma st tsk = candidate p n -> n = tasksize_of cfg v p /\ 0 < n < 2 ^ 31.
Proof.
  unfold examine. intros H. repeat case_match; simplify_eq.
  pose proof (tasksize_range p). split; [done|]. lia.
Qed.

(** The loop returns from inside exactly when it meets a dying task
    whose time has not run out. *)
Lemma scan_aborts (l : list process) (sel : option (task * Z)) :
  for_each_process cfg v jiffies gfp_cma st l sel = None <-> exists tsk, tsk ∈ l /\ examine cfg v jiffies gfp_cma st tsk = abort.
Proof.
  revert sel. induction l as [|tsk l IH]; intros sel.
  - simpl. split; [done|]. by intros (tsk & ?%elem_of_nil & _).
  - cbn [for_each_process].
    assert (Hrest : forall sel',
      examine cfg v jiffies gfp_cma st tsk <> abort ->
      (for_each_process cfg v jiffies gfp_cma st l sel' = None <->
       exists t, t ∈ tsk :: l /\ examine cfg v jiffies gfp_cma st t = abort)).
    { intros sel' Hne. rewrite IH. split.
      - intros (t & Ht & Ha). exists t. split; [by right|done].
      - intros (t & [->|Ht]%elem_of_cons & Ha); [done|eauto]. }
    destruct (examine cfg v jiffies gfp_cma st tsk) as [| |p n] eqn:E.
    + by apply Hrest.
    + split; [|done]. intros _. exists tsk. split; [by left|done].
    + destruct sel as [[s m]|]; repeat case_match; by apply Hrest.
Qed.

(** What the loop has selected when it runs to the end. *)
Lemma scan_selects (l : list process) (sel res : option (task * Z)) :
  for_each_process cfg v jiffies gfp_cma st l sel = Some res ->
  match res with
  | None => sel = None /\ forall tsk, tsk ∈ l -> examine cfg v jiffies gfp_cma st tsk = skip
  | Some (p, m) =>
      (sel = Some (p, m) \/ exists tsk, tsk ∈ l /\ examine cfg v jiffies gfp_cma st tsk = candidate p m) /\
      (forall tsk q n, tsk ∈ l -> examine cfg v jiffies gfp_cma st tsk = candidate q n ->
         no_worse q n p m) /\
      (forall q n, sel = Some (q, n) -> no_worse q n p m)
  end.
Proof.
  revert sel. induction l as [|tsk l IH]; intros sel.
  - simpl. intros [= <-]. destruct sel as [[p m]|].
    + split; [by left|]. split; [by intros ? ? ? ?%elem_of_nil|].
      intros q n [= -> ->]. right. split; [done|lia].
    + split; [done|]. by intros ? ?%elem_of_nil.
  - cbn [for_each_process]. destruct (examine cfg v jiffies gfp_cma st tsk) as [| |p0 n0] eqn:E; [|done|].
    + intros H%IH. destruct res as [[p m]|].
      * destruct H as (Hsel & Hall & Hold). split; [|split; [|done]].
        -- destruct Hsel as [?|(t & Ht & He)]; [by left|].
           right. exists t. split; [by right|done].
        -- intros t q n [->|Ht]%elem_of_cons He; [congruence|eauto].
      * destruct H as (-> & Hall). split; [done|].
        intros t [->|Ht]%elem_of_cons; [done|eauto].
    + assert (Hnew : for_each_process cfg v jiffies gfp_cma st l (Some (p0, n0)) = Some res ->
        (forall q n, sel = Some (q, n) -> no_worse q n p0 n0) ->
        match res with
        | None => sel = None /\ forall t, t ∈ tsk :: l -> examine cfg v jiffies gfp_cma st t = skip
        | Some (p, m) =>
            (sel = Some (p, m) \/
             exists t, t ∈ tsk :: l /\ examine cfg v jiffies gfp_cma st t = candidate p m) /\
            (forall t q n, t ∈ tsk :: l -> examine cfg v jiffies gfp_cma st t = candidate q n ->
               no_worse q n p m) /\
            (forall q n, sel = Some (q, n) -> no_worse q n p m)
        end).
      { intros H%IH Hbetter. destruct res as [[p m]|]; [|by destruct H].
        destruct H as (Hsel & Hall & Hold).
        assert (Hp0 : no_worse p0 n0 p m) by (by apply Hold).
        split; [|split].
        - right. destruct Hsel as [[= <- <-]|(t & Ht & He)].
          + exists tsk. split; [by left|done].
          + exists t. split; [by right|done].
        - intros t q n [->|Ht]%elem_of_cons He; [|eauto].
          rewrite E in He. by injection He as <- <-.
        - intros q n Hq. specialize (Hbetter q n Hq).
          unfold no_worse in *. lia. }
      assert (Hkeep : for_each_process cfg v jiffies gfp_cma st l sel = Some res ->
        (forall q n, sel = Some (q, n) -> no_worse p0 n0 q n) ->
        is_Some sel ->
        match res with
        | None => sel = None /\ forall t, t ∈ tsk :: l -> examine cfg v jiffies gfp_cma st t = skip
        | Some (p, m) =>
            (sel = Some (p, m) \/
             exists t, t ∈ tsk :: l /\ examine cfg v jiffies gfp_cma st t = candidate p m) /\
            (forall t q n, t ∈ tsk :: l -> examine cfg v jiffies gfp_cma st t = candidate q n ->
               no_worse q n p m) /\
            (forall q n, sel = Some (q, n) -> no_worse q n p m)
        end).
      { intros H%IH Hworse [[q0 m0] ->].
        destruct res as [[p m]|]; [|by destruct H].
        destruct H as (Hsel & Hall & Hold).
        specialize (Hworse q0 m0 eq_refl). specialize (Hold q0 m0 eq_refl).
        split; [|split; [|by intros q n [= -> ->]]].
        - destruct Hsel as [?|(t & Ht & He)]; [by left|].
          right. exists t. split; [by right|done].
        - intros t q n [->|Ht]%elem_of_cons He; [|eauto].
          rewrite E in He. injection He as <- <-.
          unfold no_worse in *. lia. }
      destruct sel as [[s m]|].
      * destruct (Z.ltb_spec (oom_score_adj p0) (oom_score_adj s)) as [Hlt|Hge].
        { intros H. apply Hkeep; [done| |eauto].
          intros q n [= <- <-]. by left. }
        destruct (Z.eqb_spec (oom_score_adj p0) (oom_score_adj s)) as [Heq|Hne];
          cbn [andb].
        -- destruct (Z.leb_spec n0 m) as [Hle|Hgt].
           ++ intros H. apply Hkeep; [done| |eauto].
              intros q n [= <- <-]. by right.
           ++ intros H. apply Hnew; [done|].
              intros q n [= <- <-]. right. split; [done|lia].
        -- intros H. apply Hnew; [done|].
           intros q n [= <- <-]. left. lia.
      * intros H. apply Hnew; [done|done].
Qed.
End Choice.

(** X20: the task [lowmem_scan] kills is one the loop over the
    processes did not pass over, and no other such task has a higher
    [oom_score_adj], or the same and a larger size; the value returned
    is its size in pages.  The count of kills goes up by one and the
    time to wait for the task to die is set one second ahead. *)
Theorem lowmem_scan_kills_worst (cfg : config) (HZ : Z) (v : vm) (jiffies : Z)
    (gfp_cma : bool) (st st' : lmk) (procs : list process) (r : Z) (p : task) :
  lowmem_scan cfg HZ v jiffies gfp_cma st procs = (r, Some p, st') ->
  r = tasksize_of cfg v p /\ 0 < r < 2 ^ 31 /\
  min_score_adj v gfp_cma st <= oom_score_adj p /\
  (exists tsk, tsk ∈ procs /\
     examine cfg v jiffies gfp_cma st tsk = candidate p r) /\
  (forall tsk q n, tsk ∈ procs ->
     examine cfg v jiffies gfp_cma st tsk = candidate q n ->
     no_worse q n p r) /\
  lowmem_lmkcount st' = u32 (lowmem_lmkcount st + 1) /\
  lowmem_deathpending_timeout st' = ulong (jiffies + HZ) /\
  lowmem_adj st' = lowmem_adj st /\ lowmem_minfree st' = lowmem_minfree st.
Proof.
  unfold lowmem_scan.
  destruct (min_score_adj v gfp_cma st =? OOM_SCORE_ADJ_MAX + 1); [done|].
  destruct (for_each_process cfg v jiffies gfp_cma st procs None)
    as [[[sel m]|]|] eqn:Hscan; [|done..].
  apply scan_selects in Hscan as ([[=]|(tsk & Hin & He)] & Hall & _).
  destruct (examine_size _ _ _ _ _ _ _ _ He) as (Hm & Hpos).
  assert (Hrem : ulong (0 + m) = m).
  { unfold ulong, wrap. rewrite Z.add_0_l, Z.mod_small; lia. }
  rewrite Hrem. destruct (Z.eqb_spec m 0) as [->|_]; [lia|].
  intros [= <- <- <-]. simpl.
  split; [done|]. split; [done|]. split.
  { revert He. unfold examine. intros He. repeat case_match; simplify_eq. lia. }
  split; [eauto|]. split; [done|]. done.
Qed.

Lemma lowmem_scan_kills_worst_witness :
  exists p st',
    lowmem_scan plain 250 tight 5000 true defaults three_tasks = (70, Some p, st') /\
    pid p = 12 /\ lowmem_lmkcount st' = 1.
Proof.
  destruct (lowmem_scan plain 250 tight 5000 true defaults three_tasks)
    as [[r [p|]] st'] eqn:E; [|vm_compute in E; discriminate].
  assert (Hr : r = 70) by (vm_compute in E; injection E as <- _ _; reflexivity).
  assert (Hp : pid p = 12) by (vm_compute in E; injection E as _ <- _; reflexivity).
  subst r. exists p, st'. split; [reflexivity|]. split; [exact Hp|].
  destruct (lowmem_scan_kills_worst _ _ _ _ _ _ _ _ _ _ E)
    as (_ & _ & _ & _ & _ & Hc & _).
  exact Hc.
Defined.

(** X21: [lowmem_scan] kills a task exactly when both counters are
    below a threshold, the loop over the processes meets no task that
    is already dying and whose time has not run out, and it does not
    pass over all of them; otherwise it returns [SHRINK_STOP] and
    leaves its variables alone, even when it had selected a task
    before it met the dying one. *)
Theorem lowmem_scan_kills_iff (cfg : config) (HZ : Z) (v : vm) (jiffies : Z)
    (gfp_cma : bool) (st : lmk) (procs : list process) :
  let r := lowmem_scan cfg HZ v jiffies gfp_cma st procs in
  (r.1.2 = None <->
   min_score_adj v gfp_cma st = OOM_SCORE_ADJ_MAX + 1 \/
   (exists tsk, tsk ∈ procs /\
      examine cfg v jiffies gfp_cma st tsk = abort) \/
   (forall tsk, tsk ∈ procs ->
      examine cfg v jiffies gfp_cma st tsk = skip)) /\
  (r.1.2 = None -> r = (SHRINK_STOP, None, st)).
Proof.
  cbv zeta. unfold lowmem_scan.
  destruct (Z.eqb_spec (min_score_adj v gfp_cma st) (OOM_SCORE_ADJ_MAX + 1))
    as [Hm|Hm]; [split; [split; [by left|done]|done]|].
  destruct (for_each_process cfg v jiffies gfp_cma st procs None)
    as [[[sel m]|]|] eqn:Hscan.
  - split; [|done]. split; [done|]. intros [?|[Habort|Hskip]]; [done| |].
    + apply (scan_aborts cfg v jiffies gfp_cma st procs None) in Habort.
      by rewrite Hscan in Habort.
    + apply scan_selects in Hscan as ([[=]|(tsk & Hin & He)] & _).
      rewrite (Hskip tsk Hin) in He. done.
  - split; [|done]. split; [|done]. intros _. right. right.
    by apply scan_selects in Hscan as (_ & ?).
  - split; [|done]. split; [|done]. intros _. right. left.
    by apply scan_aborts in Hscan.
Qed.

Lemma lowmem_scan_kills_iff_witness :
  (lowmem_scan plain 250 tight 5000 true defaults []).1.2 = None.
Proof.
  apply (proj1 (lowmem_scan_kills_iff plain 250 tight 5000 true defaults [])).
  right. right. intros tsk Hin. by apply elem_of_nil in Hin.
Defined.

(** *** The conversion of [oom_adj] values *)

Lemma convert_from_length (i fuel : nat) (adj : list Z) :
  length (convert_from i fuel adj) = length adj.
Proof.
  revert i adj. induction fuel as [|fuel IH]; intros i adj; [done|].
  cbn [convert_from]. by rewrite IH, length_insert.
Qed.

Lemma convert_from_nth (i fuel : nat) (adj : list Z) (k : nat) :
  (i + fuel <= length adj)%nat ->
  nth k (convert_from i fuel adj) 0
  = if decide (i <= k < i + fuel)%nat
    then lowmem_oom_adj_to_oom_score_adj (nth k adj 0) else nth k adj 0.
Proof.
  revert i adj. induction fuel as [|fuel IH]; intros i adj Hlen.
  - simpl. destruct (decide _); [lia|done].
  - cbn [convert_from]. rewrite IH by (rewrite length_insert; lia).
    rewrite !nth_lookup.
    destruct (decide (k = i)) as [->|Hne].
    + rewrite list_lookup_insert_eq by lia.
      destruct (decide (S i <= i < _)%nat); [lia|].
      destruct (decide (i <= i < _)%nat); [done|lia].
    + rewrite list_lookup_insert_ne by done.
      destruct (decide (S i <= k < S i + fuel)%nat);
        destruct (decide (i <= k < i + S fuel)%nat); done || lia.
Qed.

Lemma conversion_small (a : Z) :
  -17 <= a <= 15 ->
  lowmem_oom_adj_to_oom_score_adj a
  = if a =? 15 then 1000 else Z.quot (a * 1000) 17.
Proof.
  intros Ha. unfold lowmem_oom_adj_to_oom_score_adj, OOM_ADJUST_MAX,
    OOM_SCORE_ADJ_MAX, OOM_DISABLE, short, int.
  change (2 ^ 15) with 32768. change (2 ^ 16) with 65536.
  change (2 ^ 31) with 2147483648. change (2 ^ 32) with 4294967296.
  change (- -17) with 17.
  destruct (a =? 15); [reflexivity|].
  Z.to_euclidean_division_equations; lia.
Qed.

(** X22: [lowmem_autodetect_oom_adj_values] converts the entries of
    [lowmem_adj] that are in use, and only these, when the last of
    them is from 1 to 15, and changes nothing when it is above 15 or
    from -17 to 0; run a second time it changes nothing, so no value is
    converted twice.  For an [oom_adj] from -17 to 15 the converted
    value is [oom_adj] * 1000 / 17 rounded towards zero, with 1000 for
    15; it lies between -1000 and 1000 and grows with [oom_adj]. *)
Theorem autodetect_converts_once (st : lmk) :
  length (lowmem_adj st) = 6%nat ->
  let st1 := lowmem_autodetect_oom_adj_values st in
  let n := Z.min 6 (lowmem_adj_size st) in
  let last_ := nth (Z.to_nat (n - 1)) (lowmem_adj st) 0 in
  lowmem_autodetect_oom_adj_values st1 = st1 /\
  (0 < n -> 1 <= last_ <= 15 ->
   forall i, nth i (lowmem_adj st1) 0
             = if decide (Z.of_nat i < n)
               then lowmem_oom_adj_to_oom_score_adj (nth i (lowmem_adj st) 0)
               else nth i (lowmem_adj st) 0) /\
  (n <= 0 \/ 15 < last_ \/ -17 <= last_ <= 0 -> st1 = st) /\
  (forall a, -17 <= a <= 15 ->
     lowmem_oom_adj_to_oom_score_adj a
     = (if a =? 15 then 1000 else Z.quot (a * 1000) 17) /\
     -1000 <= lowmem_oom_adj_to_oom_score_adj a <= 1000) /\
  (forall a b, -17 <= a <= b -> b <= 15 ->
     lowmem_oom_adj_to_oom_score_adj a <= lowmem_oom_adj_to_oom_score_adj b).
Proof.
  intros Hlen. cbv zeta.
  assert (Hn : (if lowmem_adj_size st <? 6 then lowmem_adj_size st else 6)
               = Z.min 6 (lowmem_adj_size st)).
  { destruct (Z.ltb_spec (lowmem_adj_size st) 6); lia. }
  set (n := Z.min 6 (lowmem_adj_size st)) in *.
  set (last_ := nth (Z.to_nat (n - 1)) (lowmem_adj st) 0).
  assert (Hconv : forall a, -17 <= a <= 15 ->
     lowmem_oom_adj_to_oom_score_adj a
     = (if a =? 15 then 1000 else Z.quot (a * 1000) 17) /\
     -1000 <= lowmem_oom_adj_to_oom_score_adj a <= 1000).
  { intros a Ha. rewrite conversion_small by done. split; [done|].
    destruct (a =? 15); [lia|]. Z.to_euclidean_division_equations; lia. }
  split; [|split; [|split; [|split; [exact Hconv|]]]].
  - unfold lowmem_autodetect_oom_adj_values at 2. rewrite Hn. fold last_.
    destruct (n <=? 0) eqn:E0; [done|].
    destruct (last_ >? OOM_ADJUST_MAX) eqn:E1; [done|].
    destruct (lowmem_oom_adj_to_oom_score_adj last_ <=? OOM_ADJUST_MAX) eqn:E2;
      [done|].
    unfold lowmem_autodetect_oom_adj_values. cbn [lowmem_adj_size lowmem_adj].
    rewrite Hn, E0.
    rewrite convert_from_nth by lia.
    destruct (decide (0 <= Z.to_nat (n - 1) < 0 + Z.to_nat n)%nat); [|lia].
    fold last_.
    replace (lowmem_oom_adj_to_oom_score_adj last_ >? OOM_ADJUST_MAX) with true
      by (symmetry; apply Z.gtb_lt; apply Z.leb_gt in E2; lia).
    by rewrite E1, E2.
  - intros Hpos Hlast i. unfold lowmem_autodetect_oom_adj_values.
    rewrite Hn. fold last_.
    destruct (Z.leb_spec n 0); [lia|].
    unfold OOM_ADJUST_MAX. destruct (Z.gtb_spec last_ 15); [lia|].
    destruct (Hconv last_ ltac:(lia)) as (Heq & _).
    destruct (Z.leb_spec (lowmem_oom_adj_to_oom_score_adj last_) 15) as [Hle|_].
    { exfalso. rewrite Heq in Hle. destruct (Z.eqb_spec last_ 15); [lia|].
      revert Hle. Z.to_euclidean_division_equations. lia. }
    cbn [lowmem_adj]. rewrite convert_from_nth by lia.
    destruct (decide (0 <= i < 0 + Z.to_nat n)%nat);
      destruct (decide (Z.of_nat i < n)); done || lia.
  - intros Hcase. unfold lowmem_autodetect_oom_adj_values.
    rewrite Hn. fold last_.
    destruct (Z.leb_spec n 0); [done|].
    unfold OOM_ADJUST_MAX. destruct (Z.gtb_spec last_ 15); [done|].
    destruct Hcase as [?|[?|Hlast]]; [lia..|].
    destruct (Hconv last_ ltac:(lia)) as (Heq & _).
    destruct (Z.leb_spec (lowmem_oom_adj_to_oom_score_adj last_) 15) as [_|Hgt];
      [done|].
    exfalso. rewrite Heq in Hgt. destruct (Z.eqb_spec last_ 15); [lia|].
    revert Hgt. Z.to_euclidean_division_equations. lia.
  - intros a b Hab Hb.
    destruct (Hconv a ltac:(lia)) as (-> & _).
    destruct (Hconv b ltac:(lia)) as (-> & _).
    destruct (Z.eqb_spec a 15); destruct (Z.eqb_spec b 15); try lia;
      Z.to_euclidean_division_equations; lia.
Qed.

Lemma autodetect_converts_once_witness :
  length (lowmem_adj defaults) = 6%nat /\
  lowmem_adj (lowmem_autodetect_oom_adj_values defaults)
  = [0; 58; 352; 705; 0; 0] /\
  lowmem_autodetect_oom_adj_values (lowmem_autodetect_oom_adj_values defaults)
  = lowmem_autodetect_oom_adj_values defaults.
Proof.
  split; [reflexivity|]. split; [reflexivity|].
  exact (proj1 (autodetect_converts_once defaults eq_refl)).
Defined.

End LowmemFacts.

Module ManifestRoundTrip.
Import Kernel Manifest ManifestFacts.
Local Open Scope kernel_scope.

(** *** Reading what the encoders wrote *)

Lemma byte_of_value (v : Z) : Z.of_N (Byte.to_N (byte_of v)) = v mod 256.
Proof.
  unfold byte_of.
  pose proof (Z.mod_pos_bound v 256 ltac:(lia)) as Hr.
  destruct (Byte.of_N (Z.to_N (v mod 256))) as [b|] eqn:E.
  - apply Byte.to_of_N in E. simpl. rewrite E. lia.
  - apply Byte.of_N_None_iff in E. lia.
Qed.

Lemma length_le (w : nat) (v : Z) : length (le w v) = w.
Proof. revert v. induction w as [|w IH]; intros v; simpl; [done|]. by rewrite IH. Qed.

Lemma byte_at_skip (pre l : list byte) (off : Z) :
  Z.of_nat (length pre) <= off ->
  byte_at (pre ++ l) off = byte_at l (off - Z.of_nat (length pre)).
Proof.
  intros H. unfold byte_at. rewrite app_nth2 by lia.
  do 3 f_equal. lia.
Qed.

Lemma le_at_skip (pre l : list byte) (off : Z) (w : nat) :
  Z.of_nat (length pre) <= off ->
  le_at (pre ++ l) off w = le_at l (off - Z.of_nat (length pre)) w.
Proof.
  revert off. induction w as [|w IH]; intros off H; [done|].
  change (le_at ?b ?o (S w)) with (byte_at b o + 256 * le_at b (o + 1) w).
  rewrite byte_at_skip, IH by lia. do 3 f_equal. lia.
Qed.

Lemma le_at_head (w : nat) (v : Z) (rest : list byte) :
  le_at (le w v ++ rest) 0 w = v mod 256 ^ Z.of_nat w.
Proof.
  revert v. induction w as [|w IH]; intros v.
  - change (le_at _ 0 0) with 0. simpl. by rewrite Z.mod_1_r.
  - change (le_at ?b ?o (S w)) with (byte_at b o + 256 * le_at b (o + 1) w).
    cbn [le app]. unfold byte_at at 1. change (Z.to_nat 0) with 0%nat. cbn [nth].
    rewrite byte_of_value.
    change (byte_of v :: le w (v / 256) ++ rest)
      with ([byte_of v] ++ (le w (v / 256) ++ rest)).
    rewrite le_at_skip by (simpl; lia). simpl length.
    replace (0 + 1 - Z.of_nat 1) with 0 by lia. rewrite IH.
    rewrite Nat2Z.inj_succ, Z.pow_succ_r by lia.
    rewrite Z.rem_mul_r by lia. done.
Qed.

Lemma bytes_at_skip (pre l : list byte) (off n : Z) :
  Z.of_nat (length pre) <= off ->
  bytes_at (pre ++ l) off n = bytes_at l (off - Z.of_nat (length pre)) n.
Proof.
  intros H. unfold bytes_at. apply list_eq. intros i.
  rewrite !list_lookup_fmap.
  destruct (decide (Z.of_nat i < n)) as [Hi|Hi].
  - rewrite !lookup_seqZ_lt by lia. simpl. rewrite app_nth2 by lia.
    do 2 f_equal. lia.
  - rewrite !lookup_seqZ_ge by lia. done.
Qed.

Lemma bytes_at_head (l rest : list byte) :
  bytes_at (l ++ rest) 0 (Z.of_nat (length l)) = l.
Proof.
  unfold bytes_at. apply list_eq. intros i. rewrite list_lookup_fmap.
  destruct (decide (i < length l)%nat) as [Hi|Hi].
  - rewrite lookup_seqZ_lt by lia. simpl.
    replace (Z.to_nat (0 + Z.of_nat i)) with i by lia.
    rewrite nth_lookup, lookup_app_l by done.
    destruct (lookup_lt_is_Some_2 l i Hi) as [x Hx]. by rewrite Hx.
  - rewrite lookup_seqZ_ge by lia. simpl. symmetry. apply lookup_ge_None_2. lia.
Qed.

Lemma size_t_small (x : Z) : 0 <= x < 2 ^ 64 -> size_t x = x.
Proof. intros H. unfold size_t, wrap. by rewrite Z.mod_small. Qed.

(** [identify_descriptor] on a descriptor that fits and passes the
    type switch without a message. *)
Lemma identify_descriptor_accepts (L : wire_layout) (ok : nat -> bool)
    (buf : list byte) (desc size dsz : Z) (s : kstate) :
  (size <? sizeof_descriptor_header L) = false ->
  le_at buf (desc + header_size_off L) 2 = dsz ->
  (dsz >? size) = false ->
  check_type L buf desc dsz s = (true, s) ->
  ok (nalloc s) = true ->
  identify_descriptor L ok buf desc size s
  = (dsz,
     {| manifest_descs :=
          manifest_descs s ++
            [{| md_links := nalloc s; md_size := dsz; md_data := desc;
                md_type := read buf desc (header_type_f L) |}];
        allocated := nalloc s :: allocated s; nalloc := S (nalloc s);
        klog := klog s |}).
Proof.
  intros H1 H2 H3 H4 H5. unfold identify_descriptor.
  rewrite H1, H2, H3. unfold bind at 1. rewrite H4.
  unfold bind, kmalloc. rewrite H5. reflexivity.
Qed.

Section RoundTrip.
Variables minor vendor_ product_ version_ serial : Z.
Variables vs ps : list byte.
Hypothesis Hvendor : 0 <= vendor_ < 2 ^ 16.
Hypothesis Hproduct : 0 <= product_ < 2 ^ 16.
Hypothesis Hversion : 0 <= version_ < 2 ^ 16.
Hypothesis Hserial : 0 <= serial < 2 ^ 64.
Hypothesis Hsize :
  38 + Z.of_nat (length vs) + Z.of_nat (length ps) < 65536.

Lemma manifest_of_fields :
  manifest_of minor vendor_ product_ version_ serial vs ps
  = le 2 (38 + Z.of_nat (length vs) + Z.of_nat (length ps)) ++ le 1 0 ++
    le 1 minor ++
    le 2 20 ++ le 2 1 ++ le 2 vendor_ ++ le 2 product_ ++ le 2 version_ ++
    le 1 1 ++ le 1 2 ++ le 8 serial ++
    le 2 (7 + Z.of_nat (length vs)) ++ le 2 2 ++ le 1 1 ++
    le 2 (Z.of_nat (length vs)) ++ vs ++
    le 2 (7 + Z.of_nat (length ps)) ++ le 2 2 ++ le 1 2 ++
    le 2 (Z.of_nat (length ps)) ++ ps ++ [].
Proof.
  unfold manifest_of, envelope, module_descriptor, string_descriptor.
  rewrite <- !app_assoc. by rewrite app_nil_r.
Qed.

Ltac read_field :=
  rewrite manifest_of_fields;
  repeat (rewrite le_at_skip by (rewrite ?length_le; lia));
  rewrite ?length_le;
  match goal with
  | |- le_at (le ?w ?v ++ ?rest) ?off _ = _ =>
      replace off with 0 by lia; rewrite (le_at_head w v rest)
  end;
  apply Z.mod_small;
  change (256 ^ Z.of_nat 1) with 256; change (256 ^ Z.of_nat 2) with 65536;
  change (256 ^ Z.of_nat 8) with (2 ^ 64);
  change (2 ^ 16) with 65536 in *; lia.

Local Notation buf := (manifest_of minor vendor_ product_ version_ serial vs ps).
Local Notation n1 := (Z.of_nat (length vs)).
Local Notation n2 := (Z.of_nat (length ps)).

Lemma read_size : le_at buf 0 2 = 38 + n1 + n2.
Proof. read_field. Qed.
Lemma read_major : le_at buf 2 1 = 0.
Proof. read_field. Qed.
Lemma read_m_size : le_at buf 4 2 = 20.
Proof. read_field. Qed.
Lemma read_m_type : le_at buf 6 2 = 1.
Proof. read_field. Qed.
Lemma read_m_vendor : le_at buf 8 2 = vendor_.
Proof. read_field. Qed.
Lemma read_m_product : le_at buf 10 2 = product_.
Proof. read_field. Qed.
Lemma read_m_version : le_at buf 12 2 = version_.
Proof. read_field. Qed.
Lemma read_m_vsid : le_at buf 14 1 = 1.
Proof. read_field. Qed.
Lemma read_m_psid : le_at buf 15 1 = 2.
Proof. read_field. Qed.
Lemma read_m_serial : le_at buf 16 8 = serial.
Proof. read_field. Qed.
Lemma read_s1_size : le_at buf 24 2 = 7 + n1.
Proof. read_field. Qed.
Lemma read_s1_type : le_at buf 26 2 = 2.
Proof. read_field. Qed.
Lemma read_s1_id : le_at buf 28 1 = 1.
Proof. read_field. Qed.
Lemma read_s1_length : le_at buf 29 2 = n1.
Proof. read_field. Qed.
Lemma read_s2_size : le_at buf (31 + n1) 2 = 7 + n2.
Proof. read_field. Qed.
Lemma read_s2_type : le_at buf (33 + n1) 2 = 2.
Proof. read_field. Qed.
Lemma read_s2_id : le_at buf (35 + n1) 1 = 2.
Proof. read_field. Qed.
Lemma read_s2_length : le_at buf (36 + n1) 2 = n2.
Proof. read_field. Qed.

Lemma read_s1_string : bytes_at buf 31 n1 = vs.
Proof.
  rewrite manifest_of_fields.
  repeat (rewrite bytes_at_skip by (rewrite ?length_le; lia)).
  rewrite ?length_le.
  match goal with |- bytes_at _ ?off _ = _ => replace off with 0 by lia end.
  apply bytes_at_head.
Qed.

Lemma read_s2_string : bytes_at buf (38 + n1) n2 = ps.
Proof.
  rewrite manifest_of_fields.
  repeat (rewrite bytes_at_skip by (rewrite ?length_le; lia)).
  rewrite ?length_le.
  match goal with |- bytes_at _ ?off _ = _ => replace off with 0 by lia end.
  apply bytes_at_head.
Qed.

Local Notation size := (38 + n1 + n2).

Local Notation d0 := first_desc.
Local Notation d1 := (vendor_entry vs).
Local Notation d2 := (product_entry vs ps).

Lemma identify_module :
  identify_descriptor spec_wire served buf 4 (size - 4) boot
  = (20, {| manifest_descs := [d0]; allocated := [0%nat]; nalloc := 1;
            klog := [] |}).
Proof.
  rewrite (identify_descriptor_accepts spec_wire served buf 4 (size - 4) 20).
  - unfold read. cbn [spec_wire spec_layout header_type_f fst snd].
    change (4 + 2) with 6. rewrite read_m_type. reflexivity.
  - apply Z.ltb_ge. simpl. lia.
  - apply read_m_size.
  - rewrite Z.gtb_ltb. apply Z.ltb_ge. lia.
  - unfold check_type, read. cbn [spec_wire spec_layout header_type_f fst snd].
    change (4 + 2) with 6. rewrite read_m_type. reflexivity.
  - reflexivity.
Qed.

Lemma identify_vendor_string :
  identify_descriptor spec_wire served buf 24 (size - 24)
    {| manifest_descs := [d0]; allocated := [0%nat]; nalloc := 1; klog := [] |}
  = (7 + n1, {| manifest_descs := [d0; d1]; allocated := [1%nat; 0%nat];
                nalloc := 2; klog := [] |}).
Proof.
  rewrite (identify_descriptor_accepts spec_wire served buf 24 (size - 24)
             (7 + n1)).
  - unfold read. cbn [spec_wire spec_layout header_type_f fst snd].
    change (24 + 2) with 26. rewrite read_s1_type. reflexivity.
  - apply Z.ltb_ge. simpl. lia.
  - apply read_s1_size.
  - rewrite Z.gtb_ltb. apply Z.ltb_ge. lia.
  - unfold check_type, read.
    cbn [spec_wire spec_layout header_type_f string_length_f fst snd
         GREYBUS_TYPE_MODULE GREYBUS_TYPE_DEVICE GREYBUS_TYPE_CLASS
         GREYBUS_TYPE_STRING sizeof_descriptor_header sizeof_descriptor_string].
    change (24 + 2) with 26. change (24 + 5) with 29.
    rewrite read_s1_type, read_s1_length.
    change (2 =? 1) with false. change (2 =? 6) with false.
    change (2 =? 7) with false. change (2 =? 2) with true. cbv iota.
    rewrite (size_t_small (4 + 3)) by lia. rewrite size_t_small by lia.
    replace (7 + n1 <? 4 + 3 + n1) with false by (symmetry; apply Z.ltb_ge; lia).
    reflexivity.
  - reflexivity.
Qed.

Lemma identify_product_string :
  identify_descriptor spec_wire served buf (31 + n1) (7 + n2)
    {| manifest_descs := [d0; d1]; allocated := [1%nat; 0%nat];
       nalloc := 2; klog := [] |}
  = (7 + n2, {| manifest_descs := [d0; d1; d2];
                allocated := [2%nat; 1%nat; 0%nat];
                nalloc := 3; klog := [] |}).
Proof.
  rewrite (identify_descriptor_accepts spec_wire served buf (31 + n1) (7 + n2)
             (7 + n2)).
  - unfold read. cbn [spec_wire spec_layout header_type_f fst snd].
    replace (31 + n1 + 2) with (33 + n1) by lia. rewrite read_s2_type.
    reflexivity.
  - apply Z.ltb_ge. simpl. lia.
  - replace (31 + n1 + header_size_off spec_wire) with (31 + n1)
      by (simpl; lia).
    apply read_s2_size.
  - rewrite Z.gtb_ltb. apply Z.ltb_ge. lia.
  - unfold check_type, read.
    cbn [spec_wire spec_layout header_type_f string_length_f fst snd
         GREYBUS_TYPE_MODULE GREYBUS_TYPE_DEVICE GREYBUS_TYPE_CLASS
         GREYBUS_TYPE_STRING sizeof_descriptor_header sizeof_descriptor_string].
    replace (31 + n1 + 2) with (33 + n1) by lia.
    replace (31 + n1 + 5) with (36 + n1) by lia.
    rewrite read_s2_type, read_s2_length.
    change (2 =? 1) with false. change (2 =? 6) with false.
    change (2 =? 7) with false. change (2 =? 2) with true. cbv iota.
    rewrite (size_t_small (4 + 3)) by lia. rewrite size_t_small by lia.
    replace (7 + n2 <? 4 + 3 + n2) with false by (symmetry; apply Z.ltb_ge; lia).
    reflexivity.
  - reflexivity.
Qed.

Lemma scan_of_manifest :
  scan_manifest spec_wire served buf size boot
  = (Some true, {| manifest_descs := [d0; d1; d2];
                   allocated := [2%nat; 1%nat; 0%nat];
                   nalloc := 3; klog := [] |}).
Proof.
  unfold scan_manifest. change (sizeof_manifest_header spec_wire) with 4.
  rewrite size_t_small by lia.
  replace (Z.to_nat (size - 4)) with (S (S (S (Z.to_nat (size - 7))))) by lia.
  cbn [scan_descriptors].
  replace (size - 4 =? 0) with false by (symmetry; apply Z.eqb_neq; lia).
  unfold bind at 1. rewrite identify_module.
  change (20 <=? 0) with false. cbv iota.
  change (4 + 20) with 24.
  replace (size_t (size - 4 - 20)) with (size - 24)
    by (rewrite size_t_small; lia).
  replace (size - 24 =? 0) with false by (symmetry; apply Z.eqb_neq; lia).
  unfold bind at 1. rewrite identify_vendor_string.
  replace (7 + n1 <=? 0) with false by (symmetry; apply Z.leb_gt; lia).
  replace (24 + (7 + n1)) with (31 + n1) by lia.
  replace (size_t (size - 24 - (7 + n1))) with (7 + n2)
    by (rewrite size_t_small; lia).
  replace (7 + n2 =? 0) with false by (symmetry; apply Z.eqb_neq; lia).
  unfold bind at 1. rewrite identify_product_string.
  replace (7 + n2 <=? 0) with false by (symmetry; apply Z.leb_gt; lia).
  replace (size_t (7 + n2 - (7 + n2))) with 0
    by (rewrite size_t_small; lia).
  destruct (Z.to_nat (size - 7)); reflexivity.
Qed.

Lemma envelope_of_manifest : envelope_ok spec_wire buf size = true.
Proof.
  unfold envelope_ok.
  change (manifest_size_off spec_wire) with 0.
  change (version_major_off spec_wire) with 2.
  rewrite read_size, read_major, Z.eqb_refl.
  replace (size <=? sizeof_manifest_header spec_wire) with false
    by (symmetry; apply Z.leb_gt; simpl; lia).
  reflexivity.
Qed.

Lemma string_get_vendor :
  gb_string_get spec_wire served buf 1
    {| manifest_descs := [d0; d1; d2];
       allocated := [3%nat; 2%nat; 1%nat; 0%nat]; nalloc := 4; klog := [] |}
  = (PTR 4 (vs ++ [x00]),
     {| manifest_descs := [d0; d2];
        allocated := [4%nat; 3%nat; 2%nat; 0%nat]; nalloc := 5; klog := [] |}).
Proof.
  assert (Hf : find (is_string spec_wire buf 1) [d0; d1; d2] = Some d1).
  { cbn [find]. unfold is_string, read.
    cbn [first_desc vendor_entry md_type md_data spec_wire spec_layout GREYBUS_TYPE_STRING
         string_id_f fst snd].
    change (1 =? 2) with false. cbn [andb]. change (2 =? 2) with true.
    change (24 + 4) with 28. rewrite read_s1_id. reflexivity. }
  unfold gb_string_get. change (1 =? 0) with false. cbv iota.
  unfold bind at 1, get_descs. cbn [manifest_descs]. rewrite Hf.
  unfold read. cbn [vendor_entry md_data spec_wire spec_layout string_length_f
                    string_string_off fst snd].
  change (24 + 5) with 29. change (24 + 7) with 31.
  rewrite read_s1_length, read_s1_string. reflexivity.
Qed.

Lemma string_get_product :
  gb_string_get spec_wire served buf 2
    {| manifest_descs := [d0; d2];
       allocated := [4%nat; 3%nat; 2%nat; 0%nat]; nalloc := 5; klog := [] |}
  = (PTR 5 (ps ++ [x00]),
     {| manifest_descs := [d0];
        allocated := [5%nat; 4%nat; 3%nat; 0%nat]; nalloc := 6; klog := [] |}).
Proof.
  assert (Hf : find (is_string spec_wire buf 2) [d0; d2] = Some d2).
  { cbn [find]. unfold is_string, read.
    cbn [first_desc product_entry md_type md_data spec_wire spec_layout GREYBUS_TYPE_STRING
         string_id_f fst snd].
    change (1 =? 2) with false. cbn [andb]. change (2 =? 2) with true.
    replace (31 + n1 + 4) with (35 + n1) by lia.
    rewrite read_s2_id. reflexivity. }
  unfold gb_string_get. change (2 =? 0) with false. cbv iota.
  unfold bind at 1, get_descs. cbn [manifest_descs]. rewrite Hf.
  unfold read. cbn [product_entry md_data spec_wire spec_layout string_length_f
                    string_string_off fst snd].
  replace (31 + n1 + 5) with (36 + n1) by lia.
  replace (31 + n1 + 7) with (38 + n1) by lia.
  rewrite read_s2_length, read_s2_string. reflexivity.
Qed.

(** X23: a manifest laid out as the wire format has it, with a module
    descriptor that names vendor string 1 and product string 2 and the
    two string descriptors after it, is parsed into the module record
    with the vendor, product, version and serial number that were
    encoded and with copies of the two strings, each ended by a NUL
    byte.  Nothing is logged, the index is empty afterwards, and the
    record and the two copies are all that stays allocated. *)
Theorem manifest_round_trip :
  gb_manifest_parse spec_wire served buf size boot
  = (Some (Some {| gmod_addr := 3; vendor := vendor_; product := product_;
                   version := version_; serial_number := serial;
                   vendor_string := PTR 4 (vs ++ [x00]);
                   product_string := PTR 5 (ps ++ [x00]) |}),
     {| manifest_descs := []; allocated := [5%nat; 4%nat; 3%nat];
        nalloc := 6; klog := [] |}).
Proof.
  rewrite parse_after_envelope by apply envelope_of_manifest.
  unfold bind at 1. rewrite scan_of_manifest.
  cbn [after_scan]. unfold bind at 1, get_descs. cbn [manifest_descs].
  change (find_module spec_wire [d0; d1; d2]) with (1, Some d0).
  cbv iota beta. change (negb (1 =? 1)) with false. cbv iota.
  unfold bind at 1. unfold gb_manifest_parse_module.
  unfold bind at 1, kmalloc. cbn [nalloc served manifest_descs allocated klog].
  cbv iota.
  change (md_data d0 + module_vendor_stringid_off spec_wire) with 14.
  change (md_data d0 + module_product_stringid_off spec_wire) with 15.
  change (md_data d0 + module_vendor_off spec_wire) with 8.
  change (md_data d0 + module_product_off spec_wire) with 10.
  change (md_data d0 + module_version_off spec_wire) with 12.
  change (md_data d0 + module_serial_number_off spec_wire) with 16.
  rewrite read_m_vsid, read_m_psid, read_m_vendor, read_m_product,
    read_m_version, read_m_serial.
  unfold bind at 1. rewrite string_get_vendor. cbn [IS_ERR]. cbv iota.
  unfold bind at 1. rewrite string_get_product. cbn [IS_ERR]. cbv iota.
  reflexivity.
Qed.
End RoundTrip.

Lemma manifest_round_trip_witness :
  (gb_manifest_parse spec_wire served
     (manifest_of 1 0x1234 0x5678 1 42 ["a"%byte] ["b"%byte; "c"%byte]) 41
     boot).1
  = Some (Some {| gmod_addr := 3; vendor := 0x1234; product := 0x5678;
                  version := 1; serial_number := 42;
                  vendor_string := PTR 4 ["a"%byte; x00];
                  product_string := PTR 5 ["b"%byte; "c"%byte; x00] |}).
Proof.
  exact (f_equal fst
    (manifest_round_trip 1 0x1234 0x5678 1 42 ["a"%byte] ["b"%byte; "c"%byte]
       ltac:(lia) ltac:(lia) ltac:(lia) ltac:(lia) ltac:(simpl; lia))).
Defined.

End ManifestRoundTrip.
